(** * The judge tester of ollama-benchmark

    A shallow embedding of [ollama_benchmark/judge/tester.py]: the class
    [Tester] with its constructor, the cached [load_messages] property,
    [check_config], [run_turns], [evaluate_turns], [_parse_judgement] and
    [run].

    Python objects are modelled as follows.
    - A [str] is a [string] holding its UTF-8 encoding.
    - A [list] is a mutable object: it lives in a heap of list cells and a
      value only holds its address, so that aliasing and in-place [pop] and
      [append] are visible.  Dictionaries are never mutated once shared in
      this module and are kept as association lists in insertion order.
    - An exception is a [Raise] outcome; every method is a state
      transformer over the tester object, the heap, the trace of calls made
      to the outside and the clock.
    - The inference client, the question repository, [str.format] and the
      wall clock are outside the module: they are parameters of the
      development.  [json.loads] is modelled in full, since the code's
      behaviour on concrete documents depends on it. *)

From Stdlib Require Import ZArith NArith Ascii String List Bool Lia.
From stdpp Require Import base list strings.
Import ListNotations.
Local Open Scope string_scope.
Local Open Scope list_scope.
Set Warnings "-register-all".

(** ** Exceptions and outcomes *)

Inductive config_problem :=
| MissingMarker (text : string)   (* The judge prompt must contains '...' *)
| NoLoadedMessages                (* No loaded messages *)
| InvalidJSONMessagesFile.        (* Invalid JSON messages file: ... *)

Inductive exn :=
| AttributeError
| IndexError
| KeyError
| TypeError
| JSONDecodeError
| ConfigurationError (p : config_problem)
| LoopBudget                      (* the bound of the model's loop was hit: see [judge_loop_rounds] *)
| External (name : string).       (* raised by a collaborator outside this module *)

Inductive result (A : Type) :=
| Ok (a : A)
| Raise (e : exn).
Arguments Ok {A} a.
Arguments Raise {A} e.

(** ** Python values *)

Abbreviation loc := nat (only parsing).

(** A float read from a decimal literal is kept as the decimal it was read
    from, [m * 10^e] with a sign; Python holds the nearest double. *)
Inductive pyfloat :=
| FDec (neg : bool) (m : N) (e : Z)
| FNaN
| FInf (neg : bool).

Inductive value :=
| VNone
| VBool (b : bool)
| VInt (z : Z)
| VFloat (f : pyfloat)
| VStr (s : string)
| VTuple (items : list value)
| VDict (items : list (string * value))
| VList (l : loc).

(** The heap: the list objects, by address. *)
Abbreviation heap := (list (list value)).

(** The nearest double of a positive decimal is zero exactly when the decimal
    is at most [2^-1075] (ties go to the even neighbour, which is zero). *)
Definition float_nonzero (f : pyfloat) : bool :=
  match f with
  | FDec _ m e =>
      if (m =? 0)%N then false
      else if (0 <=? e)%Z then true
      else (10 ^ (- e) <? Z.of_N m * 2 ^ 1075)%Z
  | FNaN => true
  | FInf _ => true
  end.

Definition nonempty {A} (l : list A) : bool :=
  match l with [] => false | _ => true end.

(** [bool(v)] *)
Definition truthy (h : heap) (v : value) : bool :=
  match v with
  | VNone => false
  | VBool b => b
  | VInt z => negb (z =? 0)%Z
  | VFloat f => float_nonzero f
  | VStr s => negb (String.eqb s "")
  | VTuple items => nonempty items
  | VDict items => nonempty items
  | VList l => match h !! l with Some c => nonempty c | None => false end
  end.

(** [hash(v)] succeeds *)
Fixpoint hashable (v : value) : bool :=
  match v with
  | VTuple items => forallb hashable items
  | VDict _ => false
  | VList _ => false
  | _ => true
  end.

(** The code points of a string: a new one starts at every byte that is not
    a UTF-8 continuation byte (10xxxxxx). *)
Definition continuation (c : ascii) : bool :=
  let n := nat_of_ascii c in (128 <=? n)%nat && (n <? 192)%nat.

Fixpoint utf8_chars_aux (cur : string) (s : string) : list string :=
  match s with
  | EmptyString => [cur]
  | String c r =>
      if continuation c then utf8_chars_aux (cur +:+ String c "") r
      else cur :: utf8_chars_aux (String c "") r
  end.

Definition utf8_chars (s : string) : list string :=
  match s with
  | EmptyString => []
  | String c r => utf8_chars_aux (String c "") r
  end.

(** [seq[i]] for an integer [i], with Python's negative indices *)
Definition index_seq {A} (l : list A) (i : Z) : result A :=
  let n := Z.of_nat (length l) in
  let j := if (i <? 0)%Z then (i + n)%Z else i in
  if (j <? 0)%Z then Raise IndexError
  else match l !! Z.to_nat j with
       | Some x => Ok x
       | None => Raise IndexError
       end.

Definition as_index (k : value) : option Z :=
  match k with
  | VInt z => Some z
  | VBool b => Some (if b then 1 else 0)%Z
  | _ => None
  end.

Fixpoint dict_get {A} (d : list (string * A)) (k : string) : option A :=
  match d with
  | [] => None
  | (k', v) :: r => if String.eqb k' k then Some v else dict_get r k
  end.

(** [d[k] = v]: an existing key keeps its place *)
Fixpoint dict_set {A} (k : string) (v : A) (d : list (string * A)) : list (string * A) :=
  match d with
  | [] => [(k, v)]
  | (k', v') :: r => if String.eqb k' k then (k', v) :: r else (k', v') :: dict_set k v r
  end.

(** [container[key]] *)
Definition getitem (h : heap) (container key : value) : result value :=
  match container with
  | VList l =>
      match as_index key with
      | Some i => match h !! l with Some c => index_seq c i | None => Raise IndexError end
      | None => Raise TypeError
      end
  | VTuple items =>
      match as_index key with
      | Some i => index_seq items i
      | None => Raise TypeError
      end
  | VStr s =>
      match as_index key with
      | Some i => match index_seq (utf8_chars s) i with
                  | Ok c => Ok (VStr c)
                  | Raise e => Raise e
                  end
      | None => Raise TypeError
      end
  | VDict items =>
      match key with
      | VStr k => match dict_get items k with Some v => Ok v | None => Raise KeyError end
      | _ => if hashable key then Raise KeyError else Raise TypeError
      end
  | _ => Raise TypeError
  end.

(** ** JSON documents, as [json.loads] reads them *)

Inductive json :=
| JNull
| JBool (b : bool)
| JInt (z : Z)
| JFloat (f : pyfloat)
| JStr (s : string)
| JArr (items : list json)
| JObj (members : list (string * json)).

Inductive token :=
| TLBrace | TRBrace | TLBracket | TRBracket | TColon | TComma
| TAtom (j : json).

(** *** Scanner

    One pass over the characters.  [LStr], [LEsc] and [LHex] are inside a
    string literal; they carry the bytes read so far (latest first) and a
    high surrogate read from a [\u] escape that still waits for its low
    half.  [LNum] is inside a number, [LWord] inside a constant. *)

Inductive numpart :=
| NMinus | NZero | NInt | NDot | NFrac | NExp | NExpSign | NExpDigits.

Record numacc := {
  nneg : bool;      (* leading minus *)
  nmant : N;        (* digits of the integer and fraction parts *)
  nfrac : Z;        (* number of fraction digits *)
  nexpneg : bool;   (* exponent sign *)
  nexp : N          (* exponent digits *)
}.

Inductive lmode :=
| LStart
| LWord (rest : list ascii) (j : json)
| LNum (p : numpart) (a : numacc)
| LStr (acc : list ascii) (hi : option N)
| LEsc (acc : list ascii) (hi : option N)
| LHex (acc : list ascii) (hi : option N) (n : nat) (code : N).

Definition dquote : ascii := "034"%char.
Definition backslash : ascii := "092"%char.

Definition is_space (c : ascii) : bool :=
  match nat_of_ascii c with
  | 32 | 9 | 10 | 13 => true
  | _ => false
  end.

Definition digit_of (c : ascii) : option N :=
  let n := N_of_ascii c in
  if (48 <=? n)%N && (n <=? 57)%N then Some (n - 48)%N else None.

Definition hex_of (c : ascii) : option N :=
  let n := N_of_ascii c in
  if (48 <=? n)%N && (n <=? 57)%N then Some (n - 48)%N
  else if (65 <=? n)%N && (n <=? 70)%N then Some (n - 55)%N
  else if (97 <=? n)%N && (n <=? 102)%N then Some (n - 87)%N
  else None.

Definition byte (n : N) : ascii := ascii_of_N (n mod 256).

(** UTF-8 bytes of a code point, latest byte first (surrogates included) *)
Definition utf8_rev (c : N) : list ascii :=
  if (c <? 128)%N then [byte c]
  else if (c <? 2048)%N then
    [byte (128 + c mod 64); byte (192 + c / 64)]
  else if (c <? 65536)%N then
    [byte (128 + c mod 64); byte (128 + (c / 64) mod 64); byte (224 + c / 4096)]
  else
    [byte (128 + c mod 64); byte (128 + (c / 64) mod 64);
     byte (128 + (c / 4096) mod 64); byte (240 + c / 262144)].

Definition is_high (c : N) : bool := (55296 <=? c)%N && (c <=? 56319)%N.
Definition is_low (c : N) : bool := (56320 <=? c)%N && (c <=? 57343)%N.

Definition flush (acc : list ascii) (hi : option N) : list ascii :=
  match hi with
  | Some h => utf8_rev h ++ acc
  | None => acc
  end.

Definition string_of_rev (acc : list ascii) : string :=
  fold_left (fun s c => String c s) acc "".

Definition num0 (neg : bool) (m : N) : numacc :=
  {| nneg := neg; nmant := m; nfrac := 0; nexpneg := false; nexp := 0 |}.

(** The value of a finished number, if the scanner may stop in part [p]. *)
Definition num_value (p : numpart) (a : numacc) : option json :=
  match p with
  | NZero | NInt =>
      Some (JInt (if nneg a then - Z.of_N (nmant a) else Z.of_N (nmant a)))
  | NFrac | NExpDigits =>
      let e := if nexpneg a then (- Z.of_N (nexp a))%Z else Z.of_N (nexp a) in
      Some (JFloat (FDec (nneg a) (nmant a) (e - nfrac a)))
  | _ => None
  end.

(** A character read between two tokens. *)
Definition start_char (c : ascii) : option (lmode * list token) :=
  if is_space c then Some (LStart, [])
  else if Ascii.eqb c "{" then Some (LStart, [TLBrace])
  else if Ascii.eqb c "}" then Some (LStart, [TRBrace])
  else if Ascii.eqb c "[" then Some (LStart, [TLBracket])
  else if Ascii.eqb c "]" then Some (LStart, [TRBracket])
  else if Ascii.eqb c ":" then Some (LStart, [TColon])
  else if Ascii.eqb c "," then Some (LStart, [TComma])
  else if Ascii.eqb c dquote then Some (LStr [] None, [])
  else if Ascii.eqb c "t" then Some (LWord (list_ascii_of_string "rue") (JBool true), [])
  else if Ascii.eqb c "f" then Some (LWord (list_ascii_of_string "alse") (JBool false), [])
  else if Ascii.eqb c "n" then Some (LWord (list_ascii_of_string "ull") JNull, [])
  else if Ascii.eqb c "N" then Some (LWord (list_ascii_of_string "aN") (JFloat FNaN), [])
  else if Ascii.eqb c "I" then
    Some (LWord (list_ascii_of_string "nfinity") (JFloat (FInf false)), [])
  else if Ascii.eqb c "-" then Some (LNum NMinus (num0 true 0), [])
  else match digit_of c with
       | Some 0%N => Some (LNum NZero (num0 false 0), [])
       | Some d => Some (LNum NInt (num0 false d), [])
       | None => None
       end.

(** A character read inside a number: [Some (Some m)] goes on in mode [m],
    [Some None] means the number ended before [c], [None] is an error. *)
Definition num_char (p : numpart) (a : numacc) (c : ascii) : option (option lmode) :=
  let is_e := Ascii.eqb c "e" || Ascii.eqb c "E" in
  let push d := {| nneg := nneg a; nmant := nmant a * 10 + d; nfrac := nfrac a;
                   nexpneg := nexpneg a; nexp := nexp a |} in
  let pushf d := {| nneg := nneg a; nmant := nmant a * 10 + d; nfrac := nfrac a + 1;
                    nexpneg := nexpneg a; nexp := nexp a |} in
  let pushe d := {| nneg := nneg a; nmant := nmant a; nfrac := nfrac a;
                    nexpneg := nexpneg a; nexp := nexp a * 10 + d |} in
  let nege := {| nneg := nneg a; nmant := nmant a; nfrac := nfrac a;
                 nexpneg := true; nexp := nexp a |} in
  match p with
  | NMinus =>
      if Ascii.eqb c "I" then
        Some (Some (LWord (list_ascii_of_string "nfinity") (JFloat (FInf true))))
      else match digit_of c with
           | Some 0%N => Some (Some (LNum NZero a))
           | Some d => Some (Some (LNum NInt (push d)))
           | None => None
           end
  | NZero =>
      if Ascii.eqb c "." then Some (Some (LNum NDot a))
      else if is_e then Some (Some (LNum NExp a))
      else match digit_of c with Some _ => None | None => Some None end
  | NInt =>
      if Ascii.eqb c "." then Some (Some (LNum NDot a))
      else if is_e then Some (Some (LNum NExp a))
      else match digit_of c with
           | Some d => Some (Some (LNum NInt (push d)))
           | None => Some None
           end
  | NDot =>
      match digit_of c with
      | Some d => Some (Some (LNum NFrac (pushf d)))
      | None => None
      end
  | NFrac =>
      if is_e then Some (Some (LNum NExp a))
      else match digit_of c with
           | Some d => Some (Some (LNum NFrac (pushf d)))
           | None => Some None
           end
  | NExp =>
      if Ascii.eqb c "+" then Some (Some (LNum NExpSign a))
      else if Ascii.eqb c "-" then Some (Some (LNum NExpSign nege))
      else match digit_of c with
           | Some d => Some (Some (LNum NExpDigits (pushe d)))
           | None => None
           end
  | NExpSign =>
      match digit_of c with
      | Some d => Some (Some (LNum NExpDigits (pushe d)))
      | None => None
      end
  | NExpDigits =>
      match digit_of c with
      | Some d => Some (Some (LNum NExpDigits (pushe d)))
      | None => Some None
      end
  end.

(** A code point decoded from a [\u] escape, with the pending high
    surrogate [hi]: a low surrogate completes the pair, anything else
    leaves the high one on its own. *)
Definition unicode_escape (acc : list ascii) (hi : option N) (c : N) : lmode :=
  match hi with
  | Some h =>
      if is_low c then
        LStr (utf8_rev (65536 + (h - 55296) * 1024 + (c - 56320)) ++ acc) None
      else if is_high c then LStr (utf8_rev h ++ acc) (Some c)
      else LStr (utf8_rev c ++ utf8_rev h ++ acc) None
  | None =>
      if is_high c then LStr acc (Some c) else LStr (utf8_rev c ++ acc) None
  end.

Definition simple_escape (c : ascii) : option ascii :=
  if Ascii.eqb c dquote then Some dquote
  else if Ascii.eqb c backslash then Some backslash
  else if Ascii.eqb c "/" then Some "/"%char
  else if Ascii.eqb c "b" then Some "008"%char
  else if Ascii.eqb c "f" then Some "012"%char
  else if Ascii.eqb c "n" then Some "010"%char
  else if Ascii.eqb c "r" then Some "013"%char
  else if Ascii.eqb c "t" then Some "009"%char
  else None.

Fixpoint scan (m : lmode) (cs : list ascii) : option (list token) :=
  match cs with
  | [] =>
      match m with
      | LStart => Some []
      | LNum p a => match num_value p a with Some j => Some [TAtom j] | None => None end
      | _ => None
      end
  | c :: r =>
      match m with
      | LStart =>
          match start_char c with
          | Some (m', ts) => option_map (app ts) (scan m' r)
          | None => None
          end
      | LWord [] j => None
      | LWord [x] j =>
          if Ascii.eqb c x then option_map (cons (TAtom j)) (scan LStart r) else None
      | LWord (x :: rest) j =>
          if Ascii.eqb c x then scan (LWord rest j) r else None
      | LNum p a =>
          match num_char p a c with
          | Some (Some m') => scan m' r
          | Some None =>
              match num_value p a, start_char c with
              | Some j, Some (m', ts) => option_map (fun l => TAtom j :: ts ++ l) (scan m' r)
              | _, _ => None
              end
          | None => None
          end
      | LStr acc hi =>
          if Ascii.eqb c dquote then
            option_map (cons (TAtom (JStr (string_of_rev (flush acc hi))))) (scan LStart r)
          else if Ascii.eqb c backslash then scan (LEsc acc hi) r
          else if (nat_of_ascii c <? 32)%nat then None
          else scan (LStr (c :: flush acc hi) None) r
      | LEsc acc hi =>
          if Ascii.eqb c "u" then scan (LHex acc hi 0 0) r
          else match simple_escape c with
               | Some x => scan (LStr (x :: flush acc hi) None) r
               | None => None
               end
      | LHex acc hi n code =>
          match hex_of c with
          | Some d =>
              let code' := (code * 16 + d)%N in
              if (n =? 3)%nat then scan (unicode_escape acc hi code') r
              else scan (LHex acc hi (S n) code') r
          | None => None
          end
      end
  end.

(** *** Parser

    A pushdown automaton over the tokens: the stack holds the arrays and
    objects that are still open. *)

Inductive frame :=
| InArr (acc : list json)                                  (* items, latest first *)
| InObj (members : list (string * json)) (key : option string).

Inductive expect :=
| XValue       (* a value must come *)
| XFirst       (* after an opening bracket: a value or the closing bracket *)
| XFirstKey    (* after an opening brace: a key or the closing brace *)
| XKey         (* after a comma in an object: a key *)
| XColon       (* after a key *)
| XNext        (* after a value in an array or object: a comma or the end of it *)
| XDone (j : json).

Definition push_value (j : json) (stack : list frame) : option (list frame * expect) :=
  match stack with
  | [] => Some ([], XDone j)
  | InArr acc :: r => Some (InArr (j :: acc) :: r, XNext)
  | InObj ms (Some k) :: r => Some (InObj (dict_set k j ms) None :: r, XNext)
  | InObj _ None :: _ => None
  end.

Definition parse_step (st : list frame * expect) (t : token) : option (list frame * expect) :=
  let '(stack, x) := st in
  match x, t with
  | (XValue | XFirst), TAtom j => push_value j stack
  | (XValue | XFirst), TLBracket => Some (InArr [] :: stack, XFirst)
  | (XValue | XFirst), TLBrace => Some (InObj [] None :: stack, XFirstKey)
  | (XFirst | XNext), TRBracket =>
      match stack with
      | InArr acc :: r => push_value (JArr (rev acc)) r
      | _ => None
      end
  | (XFirstKey | XNext), TRBrace =>
      match stack with
      | InObj ms None :: r => push_value (JObj ms) r
      | _ => None
      end
  | (XFirstKey | XKey), TAtom (JStr k) =>
      match stack with
      | InObj ms None :: r => Some (InObj ms (Some k) :: r, XColon)
      | _ => None
      end
  | XColon, TColon => Some (stack, XValue)
  | XNext, TComma =>
      match stack with
      | InArr _ :: _ => Some (stack, XValue)
      | InObj _ _ :: _ => Some (stack, XKey)
      | [] => None
      end
  | _, _ => None
  end.

Fixpoint parse (st : list frame * expect) (ts : list token) : option json :=
  match ts with
  | [] => match st with ([], XDone j) => Some j | _ => None end
  | t :: r => match parse_step st t with Some st' => parse st' r | None => None end
  end.

(** The document a text denotes, [None] when [json.loads] raises
    [JSONDecodeError]. *)
Definition json_parse (text : string) : option json :=
  match scan LStart (list_ascii_of_string text) with
  | Some ts => parse ([], XValue) ts
  | None => None
  end.

(** The Python object built for a document: each array becomes a new list
    object, inner ones first. *)
Fixpoint materialize (j : json) (h : heap) : value * heap :=
  match j with
  | JNull => (VNone, h)
  | JBool b => (VBool b, h)
  | JInt z => (VInt z, h)
  | JFloat f => (VFloat f, h)
  | JStr s => (VStr s, h)
  | JArr items =>
      let '(vs, h1) :=
        (fix go (l : list json) (h : heap) : list value * heap :=
           match l with
           | [] => ([], h)
           | x :: r =>
               let '(v, h1) := materialize x h in
               let '(vs, h2) := go r h1 in
               (v :: vs, h2)
           end) items h in
      (VList (length h1), h1 ++ [vs])
  | JObj members =>
      let '(kvs, h1) :=
        (fix go (l : list (string * json)) (h : heap) : list (string * value) * heap :=
           match l with
           | [] => ([], h)
           | (k, x) :: r =>
               let '(v, h1) := materialize x h in
               let '(kvs, h2) := go r h1 in
               ((k, v) :: kvs, h2)
           end) members h in
      (VDict kvs, h1)
  end.

(** ** Documents and the objects built for them *)

(** [bool] of the object built for a document *)
Definition json_truthy (j : json) : bool :=
  match j with
  | JNull => false
  | JBool b => b
  | JInt z => negb (z =? 0)%Z
  | JFloat f => float_nonzero f
  | JStr s => negb (String.eqb s "")
  | JArr items => nonempty items
  | JObj members => nonempty members
  end.

(** The objects built for the items of an array and the members of an
    object, as [materialize] builds them. *)
Fixpoint materialize_items (l : list json) (h : heap) : list value * heap :=
  match l with
  | [] => ([], h)
  | x :: r =>
      let '(v, h1) := materialize x h in
      let '(vs, h2) := materialize_items r h1 in
      (v :: vs, h2)
  end.

Fixpoint materialize_members (l : list (string * json)) (h : heap)
    : list (string * value) * heap :=
  match l with
  | [] => ([], h)
  | (k, x) :: r =>
      let '(v, h1) := materialize x h in
      let '(kvs, h2) := materialize_members r h1 in
      ((k, v) :: kvs, h2)
  end.

(** In the heap [h], the value [v] is the object of the document [j]. *)
Fixpoint denotes (h : heap) (j : json) (v : value) {struct j} : Prop :=
  match j, v with
  | JNull, VNone => True
  | JBool b, VBool b' => b = b'
  | JInt z, VInt z' => z = z'
  | JFloat f, VFloat f' => f = f'
  | JStr s, VStr s' => s = s'
  | JArr items, VList a =>
      exists vs, h !! a = Some vs /\
        (fix all (js : list json) (vs : list value) : Prop :=
           match js, vs with
           | [], [] => True
           | x :: js', y :: vs' => denotes h x y /\ all js' vs'
           | _, _ => False
           end) items vs
  | JObj members, VDict kvs =>
      (fix all (ms : list (string * json)) (kvs : list (string * value)) : Prop :=
         match ms, kvs with
         | [], [] => True
         | (k, x) :: ms', (k', y) :: kvs' => k = k' /\ denotes h x y /\ all ms' kvs'
         | _, _ => False
         end) members kvs
  | _, _ => False
  end.

Definition denotes_items (h : heap) : list json -> list value -> Prop :=
  fix all (js : list json) (vs : list value) : Prop :=
    match js, vs with
    | [], [] => True
    | x :: js', y :: vs' => denotes h x y /\ all js' vs'
    | _, _ => False
    end.

Definition denotes_members (h : heap)
    : list (string * json) -> list (string * value) -> Prop :=
  fix all (ms : list (string * json)) (kvs : list (string * value)) : Prop :=
    match ms, kvs with
    | [], [] => True
    | (k, x) :: ms', (k', y) :: kvs' => k = k' /\ denotes h x y /\ all ms' kvs'
    | _, _ => False
    end.

(** The size of a value, lists counting for one. *)
Fixpoint vsize (v : value) : nat :=
  match v with
  | VTuple items => S (list_sum (map vsize items))
  | VDict items => S (list_sum (map (fun kv => vsize (snd kv)) items))
  | _ => 1
  end.

(** ** The tester object and the world around it *)

Definition quoted (s : string) : string := String dquote (s +:+ String dquote "").

Definition newline : string := String "010"%char "".

Definition text_of_lines (ls : list string) : string :=
  fold_right (fun l r => l +:+ newline +:+ r) "" ls.

Definition JUDGE_SYSTEM_PROMPT : string :=
  newline +:+ text_of_lines [
    "You will be given a user_question and system_answer couple.";
    "Your task is to provide a 'total rating' scoring how well the system_answer answers the user concerns expressed in the user_question.";
    "Give your answer on a scale of 1 to 100, where 1 means that the system_answer is not helpful at all, and 100 means that the system_answer completely and helpfully addresses the user_question.";
    "";
    "Here is the scale you should use to build your answer:";
    "10: The system_answer is terrible: completely irrelevant to the question asked, or very partial";
    "30: The system_answer is mostly not helpful: misses some key aspects of the question";
    "60: The system_answer is mostly helpful: provides support, but still could be improved";
    "90: The system_answer is excellent: relevant, direct, detailed, and addresses all the concerns raised in the question";
    "";
    "Provide your feedback as JSON as follows with just the result, no other text:";
    "";
    "{";
    "    " +:+ quoted "evaluation" +:+ ": "
      +:+ quoted "(your rationale for the rating, as a text)" +:+ ",";
    "    " +:+ quoted "total_rating" +:+ ": "
      +:+ quoted "(your rating, as a number between 1 and 100)" +:+ ",";
    "    " +:+ quoted "feedback" +:+ ": "
      +:+ quoted "(How you think it could be improved)" +:+ ",";
    "}"
  ].

Definition JUDGE_PROMPT : string :=
  newline +:+ text_of_lines [
    "Now here are the question and answer.";
    "";
    "Question: {question}";
    "Answer: {answer}"
  ].

(** The attributes of a [Tester].  [model] and [ollama_options] are set by
    [BaseTester.__init__]; a file handle is the text still unread in it;
    [_load_messages] is [None] while the attribute does not exist. *)
Record Tester := {
  model : string;
  ollama_options : value;
  judge_model : string;
  system_prompt : option string;
  ollama_judge_options : value;
  judge_system_prompt : string;
  judge_prompt : string;
  question : value;
  max_turns : Z;
  load_messages_file : option string;
  _load_messages : option value
}.

(** Assignments to the three attributes that change after construction. *)
Definition set_system_prompt (f : option string) (t : Tester) : Tester :=
  {| model := model t; ollama_options := ollama_options t;
     judge_model := judge_model t; system_prompt := f;
     ollama_judge_options := ollama_judge_options t;
     judge_system_prompt := judge_system_prompt t;
     judge_prompt := judge_prompt t; question := question t;
     max_turns := max_turns t; load_messages_file := load_messages_file t;
     _load_messages := _load_messages t |}.

Definition set_load_messages_file (f : option string) (t : Tester) : Tester :=
  {| model := model t; ollama_options := ollama_options t;
     judge_model := judge_model t; system_prompt := system_prompt t;
     ollama_judge_options := ollama_judge_options t;
     judge_system_prompt := judge_system_prompt t;
     judge_prompt := judge_prompt t; question := question t;
     max_turns := max_turns t; load_messages_file := f;
     _load_messages := _load_messages t |}.

Definition set__load_messages (v : option value) (t : Tester) : Tester :=
  {| model := model t; ollama_options := ollama_options t;
     judge_model := judge_model t; system_prompt := system_prompt t;
     ollama_judge_options := ollama_judge_options t;
     judge_system_prompt := judge_system_prompt t;
     judge_prompt := judge_prompt t; question := question t;
     max_turns := max_turns t; load_messages_file := load_messages_file t;
     _load_messages := v |}.

(** [x or default] for an optional string *)
Definition or_default (x : option string) (default : string) : string :=
  match x with
  | Some s => if String.eqb s "" then default else s
  | None => default
  end.

Definition __init__ (judge_model : string) (system_prompt : option string)
    (judge_system_prompt judge_prompt : option string) (ollama_judge_options : value)
    (question : value) (max_turns : Z) (load_messages : option string)
    (base_model : string) (base_ollama_options : value) : Tester :=
  {| model := base_model;
     ollama_options := base_ollama_options;
     judge_model := judge_model;
     system_prompt := system_prompt;
     ollama_judge_options := VTuple [ollama_judge_options];
     judge_system_prompt := or_default judge_system_prompt JUDGE_SYSTEM_PROMPT;
     judge_prompt := or_default judge_prompt JUDGE_PROMPT;
     question := question;
     max_turns := max_turns;
     load_messages_file := load_messages;
     _load_messages := None |}.

(** What the inference client and the question repository return. *)
Record chat_message := { role : string; content : string }.
Record chat_response := { message : chat_message }.
Record Question := { turns : list string; image_urls : bool }.

Inductive level := DEBUG | INFO.

(** Calls that leave the module, in the order they are made. *)
Inductive event :=
| EGetQuestion (question_id : value)
| EGetImages (question_id : value)
| ELog (lvl : level) (fmt : string) (arg : value)
| EChat (to : string) (messages : list value) (options : value)
        (reply : result chat_response)
| EUnload (to : string) (reply : result unit).

Record state := {
  self : Tester;
  store : heap;
  trace : list event;
  clock : nat          (* readings of the wall clock taken so far *)
}.

Definition set_self (t : Tester) (s : state) : state :=
  {| self := t; store := store s; trace := trace s; clock := clock s |}.
Definition set_store (h : heap) (s : state) : state :=
  {| self := self s; store := h; trace := trace s; clock := clock s |}.
Definition emit (e : event) (s : state) : state :=
  {| self := self s; store := store s; trace := trace s ++ [e]; clock := clock s |}.
Definition tick (s : state) : state :=
  {| self := self s; store := store s; trace := trace s; clock := S (clock s) |}.

(** ** Computations *)

Definition M (A : Type) : Type := state -> result A * state.

Definition ret {A} (a : A) : M A := fun s => (Ok a, s).
Definition raise {A} (e : exn) : M A := fun s => (Raise e, s).
Definition bind {A B} (m : M A) (k : A -> M B) : M B :=
  fun s => match m s with
           | (Ok a, s') => k a s'
           | (Raise e, s') => (Raise e, s')
           end.
Definition gets {A} (f : state -> A) : M A := fun s => (Ok (f s), s).
Definition modify (f : state -> state) : M unit := fun s => (Ok tt, f s).
Definition lift {A} (f : state -> result A) : M A := fun s => (f s, s).

Declare Scope py_scope.
Delimit Scope py_scope with py.
Notation "x <- m ;; k" := (bind m (fun x => k))
  (at level 100, m at next level, right associativity) : py_scope.
Notation "m ;; k" := (bind m (fun _ => k))
  (at level 100, right associativity) : py_scope.
Local Open Scope py_scope.

(** [for x in xs: body x] *)
Fixpoint for_each {A} (xs : list A) (body : A -> M unit) : M unit :=
  match xs with
  | [] => ret tt
  | x :: r => body x;; for_each r body
  end.

(** [[f x for x in xs]] *)
Fixpoint comprehension {A B} (f : A -> M B) (xs : list A) : M (list B) :=
  match xs with
  | [] => ret []
  | x :: r => y <- f x;; ys <- comprehension f r;; ret (y :: ys)
  end.

(** *** Operations on Python objects *)

Definition truth (v : value) : M bool := gets (fun s => truthy (store s) v).
Definition item (container key : value) : M value :=
  lift (fun s => getitem (store s) container key).

(** A list display or [list(...)]: a new list object *)
Definition list_new (c : list value) : M value :=
  fun s => (Ok (VList (length (store s))), set_store (store s ++ [c]) s).

(** [l.append(x)]; only list objects have the method (an address without a
    list does not occur). *)
Definition list_append (l x : value) : M unit :=
  match l with
  | VList a =>
      fun s => match store s !! a with
               | Some c => (Ok tt, set_store (<[a := c ++ [x]]> (store s)) s)
               | None => (Raise AttributeError, s)
               end
  | _ => raise AttributeError
  end.

(** [l.pop(0)] *)
Definition pop0 (l : value) : M value :=
  match l with
  | VList a =>
      fun s => match store s !! a with
               | Some (x :: c) => (Ok x, set_store (<[a := c]> (store s)) s)
               | Some [] => (Raise IndexError, s)
               | None => (Raise AttributeError, s)
               end
  | _ => raise AttributeError
  end.

(** [v[::]]: a copy of a list; a tuple or a string is returned as it is;
    other objects cannot be sliced (for a dictionary the slice is looked up
    as a key: [TypeError] up to Python 3.11, where slices are unhashable). *)
Definition slice_all (v : value) : M value :=
  match v with
  | VList a =>
      fun s => match store s !! a with
               | Some c => list_new c s
               | None => (Raise TypeError, s)
               end
  | VTuple _ | VStr _ => ret v
  | _ => raise TypeError
  end.

(** [l[:k]] *)
Definition slice_to {A} (l : list A) (k : Z) : list A :=
  if (k <? 0)%Z then firstn (Z.to_nat (Z.of_nat (length l) + k)) l
  else firstn (Z.to_nat k) l.

(** [x == s] for a string literal [s] *)
Definition equals_str (x : value) (s : string) : bool :=
  match x with
  | VStr t => String.eqb t s
  | _ => false
  end.

(** [needle in hay] on strings *)
Fixpoint contains (needle hay : string) : bool :=
  String.prefix needle hay
  || match hay with
     | EmptyString => false
     | String _ r => contains needle r
     end.

(** The contents of a list object, for the record of a call. *)
Definition snapshot (h : heap) (v : value) : list value :=
  match v with
  | VList a => match h !! a with Some c => c | None => [] end
  | _ => []
  end.

(** [json.loads(text)] *)
Definition json_loads (text : string) : M value :=
  fun s => match json_parse text with
           | Some j => let '(v, h) := materialize j (store s) in (Ok v, set_store h s)
           | None => (Raise JSONDecodeError, s)
           end.

(** ** A small environment to run the methods on examples

    Theorems below hold for every client, question repository, formatter
    and clock.  The examples run the methods with these ones. *)

Inductive fmode :=
| FText
| FOpen
| FField (name : string)
| FClose.

(** Text that [repr] shows as it is between single quotes: letters, digits
    and spaces. *)
Definition plain_char (c : ascii) : bool :=
  let n := nat_of_ascii c in
  Nat.leb 48 n && Nat.leb n 57 || Nat.leb 65 n && Nat.leb n 90
  || Nat.leb 97 n && Nat.leb n 122 || Nat.eqb n 32.

Fixpoint plain (s : string) : bool :=
  match s with
  | EmptyString => true
  | String c r => plain_char c && plain r
  end.

(** A fragment of [str.format]: replacement fields [{name}] bound to string
    arguments, or to a tuple of one plain string, which is shown as [repr]
    shows it, and the escapes of the two braces.  Conversions, format
    specifications and other arguments are left out. *)
Fixpoint format_fields (m : fmode) (kwargs : list (string * value)) (template : string)
    : result string :=
  match template with
  | EmptyString =>
      match m with
      | FText => Ok ""
      | _ => Raise (External "ValueError")
      end
  | String c r =>
      let out x := match format_fields FText kwargs r with
                   | Ok t => Ok (x +:+ t)
                   | Raise e => Raise e
                   end in
      match m with
      | FText =>
          if Ascii.eqb c "{" then format_fields FOpen kwargs r
          else if Ascii.eqb c "}" then format_fields FClose kwargs r
          else out (String c "")
      | FOpen =>
          if Ascii.eqb c "{" then out "{"
          else if Ascii.eqb c "}" then Raise IndexError
          else format_fields (FField (String c "")) kwargs r
      | FField name =>
          if Ascii.eqb c "}" then
            match dict_get kwargs name with
            | Some (VStr x) => out x
            | Some (VTuple [VStr x]) =>
                if plain x then out ("('" +:+ x +:+ "',)")
                else Raise (External "unsupported")
            | Some _ => Raise (External "unsupported")
            | None => Raise KeyError
            end
          else format_fields (FField (name +:+ String c "")) kwargs r
      | FClose =>
          if Ascii.eqb c "}" then out "}" else Raise (External "ValueError")
      end
  end.

Definition example_format (h : heap) (template : string) (kwargs : list (string * value))
    : result string :=
  format_fields FText kwargs template.

(** A client whose model always answers [answer]. *)
Definition constant_chat (answer : string)
    (s : state) (to : string) (messages : list value) (options : value)
    : result chat_response :=
  Ok {| message := {| role := "assistant"; content := answer |} |}.

(** A client that cannot reach its server. *)
Definition failing_chat
    (s : state) (to : string) (messages : list value) (options : value)
    : result chat_response :=
  Raise (External "ConnectionError").

(** A client whose judge model answers with the judgement of the example
    and whose other models answer in prose. *)
Definition model_chat
    (s : state) (to : string) (messages : list value) (options : value)
    : result chat_response :=
  Ok {| message :=
          {| role := "assistant";
             content := if String.eqb to "judge" then
                          "{" +:+ quoted "evaluation" +:+ ":" +:+ quoted "ok" +:+ ","
                          +:+ quoted "total_rating" +:+ ":" +:+ quoted "70" +:+ ","
                          +:+ quoted "feedback" +:+ ":" +:+ quoted "none" +:+ "}"
                        else "Hello." |} |}.

Definition example_unload (s : state) (to : string) : result unit := Ok tt.

Definition example_question (s : state) (question_id : value) : result Question :=
  Ok {| turns := ["What is a monad?"; "And a comonad?"]; image_urls := false |}.

Definition example_images (s : state) (question_id : value) : result (list string) :=
  Ok [].

Definition example_wall (n : nat) : Z := Z.of_nat n.

(** The state in which a freshly built tester starts. *)
Definition initial (t : Tester) : state :=
  {| self := t; store := []; trace := []; clock := 0 |}.

(** The judge's answer of the specification's example. *)
Definition example_judgement : string :=
  "{" +:+ quoted "evaluation" +:+ ":" +:+ quoted "ok" +:+ ","
      +:+ quoted "total_rating" +:+ ":" +:+ quoted "70" +:+ ","
      +:+ quoted "feedback" +:+ ":" +:+ quoted "none" +:+ "}".

(** The transcripts file of the specification's example. *)
Definition message_text (r c : string) : string :=
  "{" +:+ quoted "role" +:+ ":" +:+ quoted r +:+ ","
      +:+ quoted "content" +:+ ":" +:+ quoted c +:+ "}".

Definition example_transcripts : string :=
  "[[" +:+ message_text "user" "hi" +:+ "," +:+ message_text "assistant" "hello" +:+ "]]".

(** A transcripts file whose only transcript lacks its answer. *)
Definition odd_transcripts : string :=
  "[[" +:+ message_text "user" "hi" +:+ "]]".

(** Testers and states of the examples. *)
Definition replay_tester : Tester :=
  __init__ "judge" None None None VNone (VInt 80) 1 (Some example_transcripts)
    "subject" VNone.

Definition odd_tester : Tester :=
  __init__ "judge" None None None VNone (VInt 80) 1 (Some odd_transcripts)
    "subject" VNone.

(** The subject model judges itself and the transcripts file is empty. *)
Definition same_model_tester : Tester :=
  __init__ "judge" (Some "You are concise.") None None VNone (VInt 80) 2 (Some "[]")
    "judge" VNone.

(** Another model judges, the transcripts file is empty. *)
Definition live_tester : Tester :=
  __init__ "judge" (Some "You are concise.") None None VNone (VInt 80) 2 (Some "[]")
    "subject" VNone.

(** A judge prompt without the answer marker. *)
Definition unmarked_tester : Tester :=
  __init__ "judge" None None (Some "Question: {question}") VNone (VInt 80) 1 None
    "subject" VNone.

(** A transcripts file that is not a JSON document. *)
Definition invalid_file_tester : Tester :=
  __init__ "judge" None None None VNone (VInt 80) 1 (Some "not json")
    "subject" VNone.

(** A transcripts file with two transcripts, both empty. *)
Definition two_transcripts_tester : Tester :=
  __init__ "judge" None None None VNone (VInt 80) 1 (Some "[[],[]]")
    "subject" VNone.

(** The judge options differ from the general options. *)
Definition options_tester : Tester :=
  __init__ "judge" None None None (VStr "judge options") (VInt 80) 1 None
    "subject" (VStr "general options").

(** A judge prompt that shows the options. *)
Definition options_prompt_tester : Tester :=
  __init__ "judge" None None (Some "{question} {answer} {options}") (VStr "fast")
    (VInt 80) 1 None "subject" VNone.

Definition user_hi : value := VDict [("role", VStr "user"); ("content", VStr "hi")].
Definition assistant_hello : value :=
  VDict [("role", VStr "assistant"); ("content", VStr "hello")].
Definition system_terse : value :=
  VDict [("role", VStr "system"); ("content", VStr "Be terse.")].

(** A state whose only list object is the transcript [msgs]. *)
Definition judging (msgs : list value) : state :=
  {| self := replay_tester; store := [msgs]; trace := []; clock := 0 |}.

(** The same, for the tester [t]. *)
Definition judging_with (t : Tester) (msgs : list value) : state :=
  {| self := t; store := [msgs]; trace := []; clock := 0 |}.

Definition not_json_response : chat_response :=
  {| message := {| role := "assistant"; content := "not json" |} |}.

(** ** The methods of [Tester] *)

Section Methods.

(** Wall-clock readings: their type, the n-th value [time.time()] returns,
    and the float operations used on them. *)
Variable time : Type.
Variable wall : nat -> time.
Variable time_sub time_add : time -> time -> time.

(** [self.client.chat] and [self.client.unload]: the reply may depend on
    everything that happened before. *)
Variable client_chat : state -> string -> list value -> value -> result chat_response.
Variable client_unload : state -> string -> result unit.

(** [utils.DataManager]: [get_question] and [get_question_b64_images] *)
Variable get_question : state -> value -> result Question.
Variable get_question_b64_images : state -> value -> result (list string).

(** [template.format] applied to keyword arguments *)
Variable str_format : heap -> string -> list (string * value) -> result string.

Record Result := {
  messages : value;
  judgements : list value;
  message_duration : time;
  judge_duration : time;
  work_duration : time
}.

Definition time_time : M time := fun s => (Ok (wall (clock s)), tick s).

Definition log (lvl : level) (fmt : string) (arg : value) : M unit :=
  modify (emit (ELog lvl fmt arg)).

Definition chat (to : string) (messages options : value) : M chat_response :=
  fun s =>
    let sent := snapshot (store s) messages in
    let reply := client_chat s to sent options in
    (reply, emit (EChat to sent options reply) s).

Definition unload (to : string) : M unit :=
  fun s =>
    let reply := client_unload s to in
    (reply, emit (EUnload to reply) s).

Definition fetch_question (question_id : value) : M Question :=
  fun s => (get_question s question_id, emit (EGetQuestion question_id) s).

Definition fetch_images (question_id : value) : M (list string) :=
  fun s => (get_question_b64_images s question_id, emit (EGetImages question_id) s).

Definition format (template : string) (kwargs : list (string * value)) : M string :=
  lift (fun s => str_format (store s) template kwargs).

(** [file.read()]: what is left of the file, which is then at its end;
    [None] has no such method. *)
Definition read_load_messages_file : M string :=
  fun s =>
    match load_messages_file (self s) with
    | Some text => (Ok text, set_self (set_load_messages_file (Some "") (self s)) s)
    | None => (Raise AttributeError, s)
    end.

Definition read_system_prompt : M string :=
  fun s =>
    match system_prompt (self s) with
    | Some text => (Ok text, set_self (set_system_prompt (Some "") (self s)) s)
    | None => (Raise AttributeError, s)
    end.

(** [self._load_messages = v] *)
Definition assign_load_messages (v : value) : M unit :=
  modify (fun s => set_self (set__load_messages (Some v) (self s)) s).

(** [json.load(fp)] is [json.loads(fp.read())]. *)
Definition json_load_messages_file : M value :=
  text <- read_load_messages_file;;
  json_loads text.

(** The property [load_messages] (lines 57-65) *)
Definition load_messages : M value :=
  cached <- gets (fun s => _load_messages (self s));;
  match cached with
  | Some v => ret v
  | None =>
      fun s =>
        match json_load_messages_file s with
        | (Ok v, s') => (assign_load_messages v;; ret v) s'
        | (Raise JSONDecodeError, s') =>
            (Raise (ConfigurationError InvalidJSONMessagesFile), s')
        | (Raise e, s') => (Raise e, s')
        end
  end.

(** [check_config] (lines 67-74) *)
Definition check_config : M unit :=
  for_each ["{question}"; "{answer}"] (fun text =>
    jp <- gets (fun s => judge_prompt (self s));;
    if negb (contains text jp)
    then raise (ConfigurationError (MissingMarker text))
    else ret tt);;
  file <- gets (fun s => load_messages_file (self s));;
  match file with
  | Some _ =>
      loaded <- load_messages;;
      some <- truth loaded;;
      if negb some then raise (ConfigurationError NoLoadedMessages) else ret tt
  | None => ret tt
  end.

(** The loop of [run_turns] (lines 104-124), over the enumerated prompts. *)
Fixpoint turns_loop (question_id : value) (question : Question) (messages : value)
    (turn_id : Z) (prompts : list string) (responses : list chat_response)
    : M (list chat_response) :=
  match prompts with
  | [] => ret responses
  | prompt :: rest =>
      log DEBUG "turn #%s" (VInt turn_id);;
      log INFO "> %s" (VStr prompt);;
      message' <-
        (if image_urls question then
           images <- fetch_images question_id;;
           images <- list_new (map VStr images);;
           ret [("role", VStr "user"); ("content", VStr prompt); ("images", images)]
         else ret [("role", VStr "user"); ("content", VStr prompt)]);;
      list_append messages (VDict message');;
      model <- gets (fun s => model (self s));;
      options <- gets (fun s => ollama_options (self s));;
      response <- chat model messages options;;
      log INFO "< %s" (VStr (content (message response)));;
      list_append messages
        (VDict [("role", VStr "assistant");
                ("content", VStr (content (message response)))]);;
      turns_loop question_id question messages (turn_id + 1) rest
        (responses ++ [response])
  end.

(** [run_turns] (lines 93-125) *)
Definition run_turns (question_id : value) : M value :=
  question <- fetch_question question_id;;
  messages <- list_new [];;
  sp <- gets (fun s => system_prompt (self s));;
  (match sp with
   | Some _ =>
       text <- read_system_prompt;;
       list_append messages (VDict [("role", VStr "system"); ("content", VStr text)])
   | None => ret tt
   end);;
  limit <- gets (fun s => max_turns (self s));;
  turns_loop question_id question messages 0 (slice_to (turns question) limit) [];;
  ret messages.

(** The [while] loop of [evaluate_turns] (lines 133-156).  Every round
    removes two messages from the working copy, so a budget of one round
    per message is never used up. *)
Fixpoint judge_loop (budget : nat) (messages : value) (judgements : list chat_response)
    : M (list chat_response) :=
  match budget with
  | O => raise LoopBudget
  | S budget' =>
      more <- truth messages;;
      if more then
        prompt <- pop0 messages;;
        answer <- pop0 messages;;
        template <- gets (fun s => judge_prompt (self s));;
        q <- item prompt (VStr "content");;
        a <- item answer (VStr "content");;
        o <- gets (fun s => ollama_judge_options (self s));;
        judge_prompt <- format template [("question", q); ("answer", a); ("options", o)];;
        jsp <- gets (fun s => judge_system_prompt (self s));;
        judge_messages <-
          list_new [VDict [("role", VStr "system"); ("content", VStr jsp)];
                    VDict [("role", VStr "user"); ("content", VStr judge_prompt)]];;
        log DEBUG "system > %s" (VStr jsp);;
        log INFO "> %s" (VStr judge_prompt);;
        judge <- gets (fun s => judge_model (self s));;
        options <- gets (fun s => ollama_options (self s));;
        response <- chat judge judge_messages options;;
        log INFO "< %s" (VStr (content (message response)));;
        judge_loop budget' messages (judgements ++ [response])
      else ret judgements
  end.

(** [evaluate_turns] (lines 127-157) *)
Definition evaluate_turns (messages : value) : M (list chat_response) :=
  messages <- slice_all messages;;
  some <- truth messages;;
  leading_system <-
    (if some then
       first <- item messages (VInt 0);;
       r <- item first (VStr "role");;
       ret (equals_str r "system")
     else ret false);;
  (if leading_system then pop0 messages;; ret tt else ret tt);;
  budget <- gets (fun s => S (length (snapshot (store s) messages)));;
  judge_loop budget messages [].

(** [_parse_judgement] (lines 159-160) *)
Definition _parse_judgement (judgement : string) : M value :=
  json_loads judgement.

(** [run] (lines 162-188) *)
Definition run (question_id : value) : M Result :=
  t0 <- time_time;;
  loaded <- load_messages;;
  some <- truth loaded;;
  messages <-
    (if some then
       loaded <- load_messages;;
       item loaded question_id
     else run_turns question_id);;
  t1 <- time_time;;
  let message_duration := time_sub t1 t0 in
  loaded <- load_messages;;
  some <- truth loaded;;
  subject <- gets (fun s => model (self s));;
  judge <- gets (fun s => judge_model (self s));;
  (if negb some && String.eqb subject judge then unload subject else ret tt);;
  t0 <- time_time;;
  judgements <- evaluate_turns messages;;
  t1 <- time_time;;
  let judge_duration := time_sub t1 t0 in
  judgements_content <-
    comprehension (fun j => _parse_judgement (content (message j))) judgements;;
  ret {| messages := messages;
         judgements := judgements_content;
         message_duration := message_duration;
         judge_duration := judge_duration;
         work_duration := time_add message_duration judge_duration |}.


(** [get_tasks] (lines 76-77) *)
Definition get_tasks : M (list value) :=
  q <- gets (fun s => question (self s));;
  ret [q].

(** The items a [for] loop or [enumerate] goes through: the elements of a
    list or tuple, the characters of a string, the keys of a dictionary;
    other objects are not iterable. *)
Definition iterate (v : value) : M (list value) :=
  match v with
  | VList a =>
      fun s => match store s !! a with
               | Some c => (Ok c, s)
               | None => (Raise TypeError, s)
               end
  | VTuple items => ret items
  | VStr str => ret (map VStr (utf8_chars str))
  | VDict items => ret (map (fun kv => VStr (fst kv)) items)
  | _ => raise TypeError
  end.

(** [get_tasks_kwargs] (lines 79-91): the tasks, each with the keyword
    arguments of its run. *)
Definition get_tasks_kwargs : M (list (value * list (string * value))) :=
  loaded <- load_messages;;
  some <- truth loaded;;
  if some then
    loaded <- load_messages;;
    items <- iterate loaded;;
    ret (imap (fun i msg => (VInt (Z.of_nat i), [("question_id", VInt 0)])) items)
  else
    tasks <- get_tasks;;
    ret (map (fun task => (task, [("question_id", task)])) tasks).

(** ** Vocabulary of the statements *)

(** [m[k]] for a string key does not look at the heap. *)
Definition field (m : value) (k : string) : result value := getitem [] m (VStr k).

(** The conversation sent to the judge for a rendered prompt, and the
    record of that call. *)
Definition judge_conversation (t : Tester) (text : string) : list value :=
  [VDict [("role", VStr "system"); ("content", VStr (judge_system_prompt t))];
   VDict [("role", VStr "user"); ("content", VStr text)]].

Definition judge_call (t : Tester) (text : string) (reply : result chat_response) : event :=
  EChat (judge_model t) (judge_conversation t text) (ollama_options t) reply.

(** The keyword arguments of the rendering of a pair. *)
Definition judge_kwargs (t : Tester) (q a : value) : list (string * value) :=
  [("question", q); ("answer", a); ("options", ollama_judge_options t)].

(** [text] is the judge prompt rendered for the messages [p] and [a]. *)
Definition renders (t : Tester) (p a : value) (text : string) : Prop :=
  exists q a' h,
    field p "content" = Ok q /\ field a "content" = Ok a' /\
    str_format h (judge_prompt t) (judge_kwargs t q a') = Ok text.

Definition is_chat (e : event) : bool :=
  match e with EChat _ _ _ _ => true | _ => false end.
Definition is_unload (e : event) : bool :=
  match e with EUnload _ _ => true | _ => false end.
Definition is_log (e : event) : bool :=
  match e with ELog _ _ _ => true | _ => false end.

Definition chats (evs : list event) : list event := List.filter is_chat evs.
Definition unloads (evs : list event) : list event := List.filter is_unload evs.

(** The rounds of the pairing loop over a working copy [l], started with
    the responses [js]: the calls made and the outcome. *)
Inductive rounds (t : Tester) :
    list value -> list chat_response -> list event -> result (list chat_response) -> Prop :=
| rounds_done js :
    rounds t [] js [] (Ok js)
| rounds_odd p js :
    rounds t [p] js [] (Raise IndexError)
| rounds_prompt p a rest js e :
    field p "content" = Raise e ->
    rounds t (p :: a :: rest) js [] (Raise e)
| rounds_answer p a rest js q e :
    field p "content" = Ok q ->
    field a "content" = Raise e ->
    rounds t (p :: a :: rest) js [] (Raise e)
| rounds_format p a rest js q a' h e :
    field p "content" = Ok q ->
    field a "content" = Ok a' ->
    str_format h (judge_prompt t) (judge_kwargs t q a') = Raise e ->
    rounds t (p :: a :: rest) js [] (Raise e)
| rounds_chat p a rest js text st e :
    renders t p a text ->
    client_chat st (judge_model t) (judge_conversation t text) (ollama_options t)
      = Raise e ->
    rounds t (p :: a :: rest) js
      [ELog DEBUG "system > %s" (VStr (judge_system_prompt t));
       ELog INFO "> %s" (VStr text);
       judge_call t text (Raise e)]
      (Raise e)
| rounds_next p a rest js text st r evs res :
    renders t p a text ->
    client_chat st (judge_model t) (judge_conversation t text) (ollama_options t)
      = Ok r ->
    rounds t rest (js ++ [r]) evs res ->
    rounds t (p :: a :: rest) js
      (ELog DEBUG "system > %s" (VStr (judge_system_prompt t))
       :: ELog INFO "> %s" (VStr text)
       :: judge_call t text (Ok r)
       :: ELog INFO "< %s" (VStr (content (message r)))
       :: evs)
      res.

(** The transcript without its leading system message. *)
Definition is_system (m : value) : bool :=
  match field m "role" with
  | Ok r => equals_str r "system"
  | Raise _ => false
  end.

Definition without_system (msgs : list value) : list value :=
  match msgs with
  | m :: rest => if is_system m then rest else msgs
  | [] => []
  end.

(** A message as the data model has it: a dictionary with a role and a
    content. *)
Definition is_message (m : value) : Prop :=
  exists r c, field m "role" = Ok r /\ field m "content" = Ok c.

(** Cells of [h] are the same in [h']. *)
Definition preserved (h h' : heap) : Prop :=
  forall a, a < length h -> h' !! a = h !! a.

(** The loop only logs and calls the judge. *)
Definition judge_event (t : Tester) (ev : event) : Prop :=
  is_log ev = true \/
  exists p a text reply, renders t p a text /\ ev = judge_call t text reply.

(** The template renders for the contents of the messages of [l]. *)
Definition renderable (t : Tester) (l : list value) : Prop :=
  forall h p a q a',
    In p l -> In a l ->
    field p "content" = Ok q -> field a "content" = Ok a' ->
    exists text, str_format h (judge_prompt t) (judge_kwargs t q a') = Ok text.

(** The client answers every call. *)
Definition client_answers : Prop :=
  forall st to ms o, exists r, client_chat st to ms o = Ok r.

(** The state once the transcripts file has been read, parsed into the
    object [v] and cached; [h] is the heap with the new lists. *)
Definition loaded_state (s : state) (v : value) (h : heap) : state :=
  {| self := set__load_messages (Some v)
               (set_load_messages_file (Some "") (self s));
     store := h; trace := trace s; clock := clock s |}.

(** The cached transcripts, if a list, are a list of the heap. *)
Definition cache_ok (s : state) : Prop :=
  forall a, _load_messages (self s) = Some (VList a) -> a < length (store s).

(** No call to [unload] among the events. *)
Definition no_unload (evs : list event) : Prop :=
  Forall (fun e => is_unload e = false) evs.

(** What [run] does from line 173 on, once it has the transcript and the
    time it took. *)
Definition finish (messages : value) (message_duration : time) : M Result :=
  t0 <- time_time;;
  judgements <- evaluate_turns messages;;
  t1 <- time_time;;
  let judge_duration := time_sub t1 t0 in
  judgements_content <-
    comprehension (fun j => _parse_judgement (content (message j))) judgements;;
  ret {| messages := messages;
         judgements := judgements_content;
         message_duration := message_duration;
         judge_duration := judge_duration;
         work_duration := time_add message_duration judge_duration |}.

(** The content of a judge response is a JSON document. *)
Definition parses (j : chat_response) : Prop :=
  exists doc, json_parse (content (message j)) = Some doc.

(** [v] is the object built for the content of the response [j]. *)
Definition parsed (j : chat_response) (v : value) : Prop :=
  exists doc h, json_parse (content (message j)) = Some doc /\
                v = fst (materialize doc h).

(** A message of a transcripts file: an object whose role and content are
    strings; and the file's transcript without its leading system message. *)
Definition json_turn (j : json) : Prop :=
  exists members r c,
    j = JObj members /\
    dict_get members "role" = Some (JStr r) /\
    dict_get members "content" = Some (JStr c).

Definition json_is_system (j : json) : bool :=
  match j with
  | JObj members =>
      match dict_get members "role" with
      | Some (JStr r) => String.eqb r "system"
      | _ => false
      end
  | _ => false
  end.

Definition json_without_system (l : list json) : list json :=
  match l with
  | m :: rest => if json_is_system m then rest else l
  | [] => []
  end.

(** The same, for the message built from it. *)
Definition is_turn (m : value) : Prop :=
  exists r c, field m "role" = Ok (VStr r) /\ field m "content" = Ok (VStr c).

(** The template renders for every pair of strings. *)
Definition renders_strings (t : Tester) : Prop :=
  forall h q a, exists text,
    str_format h (judge_prompt t) (judge_kwargs t (VStr q) (VStr a)) = Ok text.

(** *** The conversation driver *)

(** The user message of a turn: with the images of the question when it
    declares image URLs. *)
Definition user_message_of (q : Question) (question_id : value) (prompt : string)
    (u : value) : Prop :=
  if image_urls q then
    exists st imgs a,
      get_question_b64_images st question_id = Ok imgs /\
      u = VDict [("role", VStr "user"); ("content", VStr prompt); ("images", VList a)]
  else u = VDict [("role", VStr "user"); ("content", VStr prompt)].

Definition assistant_message (r : chat_response) : value :=
  VDict [("role", VStr "assistant"); ("content", VStr (content (message r)))].

Definition images_event (q : Question) (question_id : value) : list event :=
  if image_urls q then [EGetImages question_id] else [].

(** The record of a call to the subject model. *)
Definition subject_call (t : Tester) (sent : list value) (reply : result chat_response)
    : event :=
  EChat (model t) sent (ollama_options t) reply.

(** The turns of [run_turns] over the prompts, from a transcript [before]
    at turn [i] with the responses [rs]: the calls made, the outcome and the
    transcript at the end. *)
Inductive driven (t : Tester) (q : Question) (question_id : value) :
    list value -> Z -> list string -> list chat_response ->
    list event -> result (list chat_response) -> list value -> Prop :=
| driven_done before i rs :
    driven t q question_id before i [] rs [] (Ok rs) before
| driven_images before i prompt rest rs st e :
    image_urls q = true ->
    get_question_b64_images st question_id = Raise e ->
    driven t q question_id before i (prompt :: rest) rs
      [ELog DEBUG "turn #%s" (VInt i); ELog INFO "> %s" (VStr prompt);
       EGetImages question_id]
      (Raise e) before
| driven_chat before i prompt rest rs u st e :
    user_message_of q question_id prompt u ->
    client_chat st (model t) (before ++ [u]) (ollama_options t) = Raise e ->
    driven t q question_id before i (prompt :: rest) rs
      ([ELog DEBUG "turn #%s" (VInt i); ELog INFO "> %s" (VStr prompt)]
       ++ images_event q question_id
       ++ [subject_call t (before ++ [u]) (Raise e)])
      (Raise e) (before ++ [u])
| driven_next before i prompt rest rs u st r evs res final :
    user_message_of q question_id prompt u ->
    client_chat st (model t) (before ++ [u]) (ollama_options t) = Ok r ->
    driven t q question_id (before ++ [u; assistant_message r]) (i + 1) rest
      (rs ++ [r]) evs res final ->
    driven t q question_id before i (prompt :: rest) rs
      ([ELog DEBUG "turn #%s" (VInt i); ELog INFO "> %s" (VStr prompt)]
       ++ images_event q question_id
       ++ [subject_call t (before ++ [u]) (Ok r);
           ELog INFO "< %s" (VStr (content (message r)))]
       ++ evs)
      res final.

(** The transcript [run_turns] starts from: the system message when a
    system prompt is configured. *)
Definition opening (t : Tester) : list value :=
  match system_prompt t with
  | Some text => [VDict [("role", VStr "system"); ("content", VStr text)]]
  | None => []
  end.

(** The question repository knows the question. *)
Definition question_is (question_id : value) (q : Question) : Prop :=
  forall st, get_question st question_id = Ok q.

(** The images of the question can be fetched, when it declares some. *)
Definition images_available (question_id : value) (q : Question) : Prop :=
  image_urls q = true ->
  forall st, exists imgs, get_question_b64_images st question_id = Ok imgs.

(** A failed call to a model ends the trace and is the outcome. *)
Definition failures_last {A} (evs : list event) (res : result A) : Prop :=
  forall i to ms o e,
    evs !! i = Some (EChat to ms o (Raise e)) ->
    S i = length evs /\ res = Raise e.

(** *** The replies of the judge *)

(** The reply recorded for a call, and the replies to the calls among the
    events, in order. *)
Definition reply_of (e : event) : option (result chat_response) :=
  match e with
  | EChat _ _ _ reply => Some reply
  | _ => None
  end.

Definition replies (evs : list event) : list (result chat_response) :=
  omap reply_of evs.

(** What the judge answers to a judge conversation is always a JSON
    document; and is never one. *)
Definition judge_answers_json (t : Tester) : Prop :=
  forall st text r,
    client_chat st (judge_model t) (judge_conversation t text) (ollama_options t) = Ok r ->
    parses r.

Definition judge_never_json (t : Tester) : Prop :=
  forall st text r,
    client_chat st (judge_model t) (judge_conversation t text) (ollama_options t) = Ok r ->
    json_parse (content (message r)) = None.

(** ** Basic facts *)

Lemma getitem_field h m k : getitem h m (VStr k) = field m k.
Proof. destruct m; reflexivity. Qed.

Lemma lookup_snoc {A} (l : list A) (x : A) : (l ++ [x]) !! length l = Some x.
Proof. induction l; simpl; auto. Qed.

Lemma preserved_refl h : preserved h h.
Proof. intros a _. reflexivity. Qed.

Lemma preserved_trans h1 h2 h3 :
  preserved h1 h2 -> length h1 <= length h2 -> preserved h2 h3 -> preserved h1 h3.
Proof. intros H12 Hle H23 a Ha. rewrite H23 by lia. apply H12, Ha. Qed.

Lemma preserved_snoc h c : preserved h (h ++ [c]).
Proof. intros a Ha. apply lookup_app_l, Ha. Qed.

Lemma preserved_insert h w c : length h <= w -> preserved h (<[w := c]> h).
Proof. intros Hw a Ha. apply list_lookup_insert_ne. lia. Qed.

Lemma lookup_insert_same (h : heap) w c c' :
  h !! w = Some c -> (<[w := c']> h) !! w = Some c'.
Proof. intros H. apply list_lookup_insert_eq. eapply lookup_lt_Some, H. Qed.

Ltac sstate := cbn [store set_store set_self emit tick trace self clock fst snd].
Ltac sstate_in H := cbn [store set_store set_self emit tick trace self clock fst snd] in H.

Lemma judge_loop_rounds budget : forall w l js s,
  store s !! w = Some l -> length l < budget ->
  exists evs res s',
    judge_loop budget (VList w) js s = (res, s') /\
    rounds (self s) l js evs res /\
    trace s' = trace s ++ evs /\ self s' = self s /\ clock s' = clock s /\
    length (store s) <= length (store s') /\
    (forall a, a < length (store s) -> a <> w -> store s' !! a = store s !! a).
Proof.
  induction budget as [|b IH]; intros w l js s Hw Hb; [lia|].
  cbn [judge_loop]. unfold bind at 1. unfold truth, gets. cbn [truthy].
  rewrite Hw.
  destruct l as [|p [|a rest]]; cbn [nonempty].
  - exists [], (Ok js), s. rewrite app_nil_r. repeat split; auto. constructor.
  - unfold bind at 1. unfold pop0 at 1. rewrite Hw.
    unfold bind at 1. unfold pop0 at 1. sstate.
    rewrite (lookup_insert_same _ _ _ _ Hw).
    eexists [], _, _. split; [reflexivity|].
    sstate. rewrite app_nil_r, length_insert. repeat split; auto.
    + constructor.
    + intros a _ Ha. apply list_lookup_insert_ne. auto.
  - unfold bind at 1. unfold pop0 at 1. rewrite Hw.
    unfold bind at 1. unfold pop0 at 1. sstate.
    rewrite (lookup_insert_same _ _ _ _ Hw).
    unfold bind at 1. sstate.
    unfold bind at 1. unfold item at 1. unfold lift. rewrite getitem_field.
    set (s1 := set_store (<[w:=rest]> (<[w:=a :: rest]> (store s))) _).
    assert (Hlen1 : length (store s1) = length (store s))
      by (subst s1; sstate; rewrite !length_insert; reflexivity).
    assert (Hpres1 : forall x, x <> w -> store s1 !! x = store s !! x).
    { intros x Hx. subst s1; sstate.
      rewrite !list_lookup_insert_ne by auto. reflexivity. }
    assert (Hw1 : store s1 !! w = Some rest).
    { subst s1; sstate. eapply lookup_insert_same, lookup_insert_same, Hw. }
    destruct (field p "content") as [q|e] eqn:Hq.
    2:{ exists [], (Raise e), s1. rewrite app_nil_r.
        repeat apply conj; try reflexivity; try lia; auto.
        now constructor. }
    unfold bind at 1. unfold item at 1. unfold lift. rewrite getitem_field.
    destruct (field a "content") as [a'|e] eqn:Ha.
    2:{ exists [], (Raise e), s1. rewrite app_nil_r.
        repeat apply conj; try reflexivity; try lia; auto.
        eapply rounds_answer; eauto. }
    unfold bind at 1. unfold bind at 1. unfold format at 1. unfold lift.
    change (self s1) with (self s).
    fold (judge_kwargs (self s) q a').
    destruct (str_format (store s1) (judge_prompt (self s)) (judge_kwargs (self s) q a'))
      as [text|e] eqn:Hf.
    2:{ exists [], (Raise e), s1. rewrite app_nil_r.
        repeat apply conj; try reflexivity; try lia; auto.
        eapply rounds_format; eauto. }
    assert (Hr : renders (self s) p a text) by (exists q, a', (store s1); auto).
    unfold bind at 1. unfold bind at 1. unfold list_new at 1.
    unfold bind at 1. unfold log at 1. unfold modify.
    unfold bind at 1. unfold log at 1. unfold modify.
    unfold bind at 1. unfold bind at 1. unfold bind at 1.
    unfold chat at 1. unfold snapshot. sstate.
    rewrite lookup_snoc.
    change (self s1) with (self s).
    fold (judge_conversation (self s) text).
    set (s3 := emit _ (emit _ (set_store _ s1))).
    assert (Hst3 : store s3 = store s1 ++ [judge_conversation (self s) text])
      by reflexivity.
    assert (Htr3 : trace s3 = trace s ++
              [ELog DEBUG "system > %s" (VStr (judge_system_prompt (self s)));
               ELog INFO "> %s" (VStr text)]).
    { subst s3 s1. sstate. rewrite <- app_assoc. reflexivity. }
    assert (Hpres3 : forall x, x < length (store s) -> x <> w ->
              store s3 !! x = store s !! x).
    { intros x Hx Hxw. rewrite Hst3, lookup_app_l by lia. auto. }
    assert (Hlen3 : length (store s3) = S (length (store s))).
    { rewrite Hst3, length_app, Hlen1. simpl. lia. }
    destruct (client_chat s3 _ _ _) as [r|e] eqn:Hc.
    2:{ eexists _, (Raise e), _. split; [reflexivity|]. sstate.
        split; [eapply rounds_chat; eauto|].
        repeat apply conj; try reflexivity; try lia; auto.
        rewrite Htr3, <- app_assoc. reflexivity. }
    unfold bind at 1. unfold log at 1. unfold modify.
    set (s5 := emit _ (emit _ s3)).
    assert (Hw5 : store s5 !! w = Some rest).
    { subst s5; sstate. rewrite Hst3, lookup_app_l; auto.
      eapply lookup_lt_Some, Hw1. }
    destruct (IH w rest (js ++ [r]) s5 Hw5)
      as (evs & res & s' & Hrun & Hrounds & Htr & Hself & Hclk & Hlen & Hpres).
    { simpl in Hb. lia. }
    exists (ELog DEBUG "system > %s" (VStr (judge_system_prompt (self s)))
       :: ELog INFO "> %s" (VStr text)
       :: judge_call (self s) text (Ok r)
       :: ELog INFO "< %s" (VStr (content (message r)))
       :: evs), res, s'.
    split; [exact Hrun|].
    split; [eapply rounds_next; eauto|].
    split.
    { rewrite Htr. subst s5. sstate. rewrite Htr3, <- !app_assoc. reflexivity. }
    split; [rewrite Hself; reflexivity|].
    split; [rewrite Hclk; reflexivity|].
    change (store s5) with (store s3) in Hlen, Hpres.
    split; [lia|].
    intros x Hx Hxw. rewrite Hpres by (auto; lia). auto.
Qed.

(** [evaluate_turns] on a list object: the working copy is the transcript
    without its leading system message, unless the first message has no
    role to look at. *)
Lemma evaluate_turns_list a msgs s :
  store s !! a = Some msgs ->
  exists evs res s',
    evaluate_turns (VList a) s = (res, s') /\
    (rounds (self s) (without_system msgs) [] evs res \/
     (evs = [] /\ exists m rest e,
         msgs = m :: rest /\ field m "role" = Raise e /\ res = Raise e)) /\
    trace s' = trace s ++ evs /\ self s' = self s /\ clock s' = clock s /\
    length (store s) <= length (store s') /\
    preserved (store s) (store s').
Proof.
  intros Ha. unfold evaluate_turns.
  unfold bind at 1. unfold slice_all. rewrite Ha. unfold list_new.
  set (w := length (store s)).
  set (s1 := set_store (store s ++ [msgs]) s).
  assert (Hw : store s1 !! w = Some msgs) by apply lookup_snoc.
  unfold bind at 1. unfold truth at 1, gets. cbn [truthy]. rewrite Hw.
  destruct msgs as [|m rest]; cbn [nonempty].
  - unfold bind at 1. unfold ret at 1. unfold bind at 1. unfold ret at 1.
    unfold bind at 1. unfold gets. unfold snapshot. rewrite Hw.
    destruct (judge_loop_rounds (S (length (@nil value))) w [] [] s1 Hw)
      as (evs & res & s' & Hrun & Hrounds & Htr & Hself & Hclk & Hlen & Hpres);
      [simpl; lia|].
    exists evs, res, s'. split; [exact Hrun|]. split; [left; exact Hrounds|].
    repeat apply conj; auto.
    + subst s1. sstate_in Hlen. rewrite length_app in Hlen. lia.
    + intros x Hx. rewrite Hpres.
      * apply lookup_app_l, Hx.
      * subst s1. sstate. rewrite length_app. lia.
      * subst w. lia.
  - unfold bind at 1. unfold bind at 1. unfold item at 1, lift.
    cbn [getitem as_index]. rewrite Hw.
    change (index_seq (m :: rest) 0) with (Ok m).
    unfold bind at 1. unfold item at 1, lift. rewrite getitem_field.
    unfold without_system, is_system.
    destruct (field m "role") as [r|e] eqn:Hrole.
    2:{ exists [], (Raise e), s1. split; [reflexivity|].
        split; [right; split; [reflexivity|]; exists m, rest, e; auto|].
        rewrite app_nil_r.
        repeat apply conj; try reflexivity.
        - subst s1. sstate. rewrite length_app. lia.
        - subst s1. sstate. apply preserved_snoc. }
    unfold ret at 1.
    destruct (equals_str r "system") eqn:Hsys.
    + unfold bind at 1. unfold bind at 1. unfold pop0 at 1. rewrite Hw.
      unfold ret at 1. unfold bind at 1. unfold gets. unfold snapshot. sstate.
      set (s2 := set_store (<[w:=rest]> (store s1)) s1).
      assert (Hw2 : store s2 !! w = Some rest)
        by (eapply lookup_insert_same, Hw).
      change (<[w:=rest]> (store s1)) with (store s2). rewrite Hw2.
      destruct (judge_loop_rounds (S (length rest)) w rest [] s2 Hw2)
        as (evs & res & s' & Hrun & Hrounds & Htr & Hself & Hclk & Hlen & Hpres);
        [lia|].
      exists evs, res, s'. split; [exact Hrun|]. split; [left; exact Hrounds|].
      assert (Hlen2 : length (store s2) = S w).
      { subst s2 s1. sstate. rewrite length_insert, length_app. simpl. lia. }
      repeat apply conj; auto.
      * lia.
      * intros x Hx. rewrite Hpres by (fold w in Hx; lia).
        subst s2 s1. sstate. rewrite list_lookup_insert_ne by (fold w in Hx; lia).
        apply lookup_app_l, Hx.
    + unfold bind at 1. unfold ret at 1.
      unfold bind at 1. unfold gets. unfold snapshot. rewrite Hw.
      destruct (judge_loop_rounds (S (length (m :: rest))) w (m :: rest) [] s1 Hw)
        as (evs & res & s' & Hrun & Hrounds & Htr & Hself & Hclk & Hlen & Hpres);
        [lia|].
      exists evs, res, s'. split; [exact Hrun|]. split; [left; exact Hrounds|].
      assert (Hlen1 : length (store s1) = S w).
      { subst s1. sstate. rewrite length_app. simpl. lia. }
      repeat apply conj; auto.
      * lia.
      * intros x Hx. rewrite Hpres by (fold w in Hx; lia).
        apply lookup_app_l, Hx.
Qed.

(** *** What the rounds do *)

Lemma rounds_events t l js evs res :
  rounds t l js evs res -> Forall (judge_event t) evs.
Proof.
  assert (Hlog : forall lvl fmt arg, judge_event t (ELog lvl fmt arg))
    by (intros; left; reflexivity).
  assert (Hcall : forall p a text reply,
             renders t p a text -> judge_event t (judge_call t text reply))
    by (intros; right; eauto 6).
  induction 1; eauto 8 using Forall_nil, Forall_cons_2.
Qed.

(** The i-th call to the judge is made for the i-th pair. *)
Lemma rounds_pairs t l js evs res :
  rounds t l js evs res ->
  forall i ev, chats evs !! i = Some ev ->
    exists p a text reply,
      l !! (2 * i) = Some p /\ l !! (2 * i + 1) = Some a /\
      renders t p a text /\ ev = judge_call t text reply.
Proof.
  induction 1; intros i ev Hi; try discriminate.
  - destruct i as [|i]; [|discriminate]. cbn in Hi. inversion Hi; subst.
    exists p, a, text, (Raise e). auto.
  - destruct i as [|i]; cbn in Hi.
    + inversion Hi; subst. exists p, a, text, (Ok r). auto.
    + destruct (IHrounds i ev Hi) as (p' & a' & text' & reply & Ep & Ea & Er & Ee).
      exists p', a', text', reply.
      replace (2 * S i) with (S (S (2 * i))) by lia.
      repeat split; auto.
Qed.

Lemma renderable_tail t x l : renderable t (x :: l) -> renderable t l.
Proof. intros H h p a q a' Hp Ha. apply H; right; assumption. Qed.

(** When the judge answers every call and every pair renders, each pair
    of messages gets its response. *)
Lemma rounds_complete t l js evs res :
  rounds t l js evs res ->
  forall n,
  length l = 2 * n ->
  Forall is_message l ->
  client_answers ->
  renderable t l ->
  exists rs,
    res = Ok (js ++ rs) /\ length rs = n /\ length (chats evs) = n /\
    forall i, i < n ->
      exists p a text r,
        l !! (2 * i) = Some p /\ l !! (2 * i + 1) = Some a /\
        renders t p a text /\
        chats evs !! i = Some (judge_call t text (Ok r)) /\
        rs !! i = Some r.
Proof.
  induction 1; intros n Hlen Hmsg Hchat Hfmt.
  - exists []. destruct n; [|simpl in Hlen; lia].
    rewrite app_nil_r. repeat split; auto. intros; lia.
  - simpl in Hlen. lia.
  - apply Forall_cons in Hmsg as [(r & c & _ & Hc) _]. congruence.
  - apply Forall_cons in Hmsg as [_ Hmsg].
    apply Forall_cons in Hmsg as [(r & c & _ & Hc) _]. congruence.
  - destruct (Hfmt h p a q a') as [text Ht]; auto; [left; auto | right; left; auto | congruence].
  - destruct (Hchat st (judge_model t) (judge_conversation t text) (ollama_options t))
      as [r Hr]. congruence.
  - destruct n as [|n]; [simpl in Hlen; lia|].
    apply Forall_cons in Hmsg as [_ Hmsg].
    apply Forall_cons in Hmsg as [_ Hmsg].
    destruct (IHrounds n) as (rs & Hres & Hlrs & Hlc & Hall); auto.
    { simpl in Hlen. lia. }
    { eapply renderable_tail, renderable_tail, Hfmt. }
    exists (r :: rs). rewrite Hres, <- app_assoc.
    repeat split; auto; [simpl; lia | cbn; f_equal; exact Hlc |].
    intros [|i] Hi.
    + exists p, a, text, r. auto.
    + destruct (Hall i) as (p' & a'' & text' & r' & Ep & Ea & Er & Ec & Es); [lia|].
      exists p', a'', text', r'.
      replace (2 * S i) with (S (S (2 * i))) by lia.
      repeat split; auto.
Qed.

(** An odd working copy ends in an exception. *)
Lemma rounds_odd_raises t l js evs res :
  rounds t l js evs res -> Nat.Odd (length l) -> exists e, res = Raise e.
Proof.
  induction 1; intros Hodd; eauto.
  - destruct Hodd as [k Hk]. simpl in Hk. lia.
  - apply IHrounds. destruct Hodd as [k Hk]. simpl in Hk.
    exists (k - 1). lia.
Qed.

(** It is the missing answer that raises, when nothing else fails. *)
Lemma rounds_odd_index t l js evs res :
  rounds t l js evs res -> Nat.Odd (length l) ->
  Forall is_message l ->
  client_answers ->
  renderable t l ->
  res = Raise IndexError /\ 2 * length (chats evs) + 1 = length l.
Proof.
  induction 1; intros Hodd Hmsg Hchat Hfmt.
  - destruct Hodd as [k Hk]. simpl in Hk. lia.
  - auto.
  - apply Forall_cons in Hmsg as [(r & c & _ & Hc) _]. congruence.
  - apply Forall_cons in Hmsg as [_ Hmsg].
    apply Forall_cons in Hmsg as [(r & c & _ & Hc) _]. congruence.
  - destruct (Hfmt h p a q a') as [text Ht]; auto; [left; auto | right; left; auto | congruence].
  - destruct (Hchat st (judge_model t) (judge_conversation t text) (ollama_options t))
      as [r Hr]. congruence.
  - apply Forall_cons in Hmsg as [_ Hmsg].
    apply Forall_cons in Hmsg as [_ Hmsg].
    destruct IHrounds as [Hres Hn]; auto.
    { destruct Hodd as [k Hk]. simpl in Hk. exists (k - 1). lia. }
    { eapply renderable_tail, renderable_tail, Hfmt. }
    split; auto. cbn [chats List.filter is_chat judge_call length].
    fold (chats evs). lia.
Qed.

(** [evaluate_turns] on anything that is not a list object leaves the
    state as it was. *)
Lemma evaluate_turns_not_list v s :
  (forall a, v = VList a -> store s !! a = None) ->
  exists res, evaluate_turns v s = (res, s).
Proof.
  intros Hv. unfold evaluate_turns.
  destruct v as [| | | |str|items| |a];
    try (eexists; reflexivity).
  - (* a string *)
    destruct str as [|c str]; [eexists; reflexivity|].
    unfold bind at 1. cbn [slice_all]. unfold ret at 1.
    unfold bind at 1. unfold truth, gets. cbn [truthy String.eqb negb].
    unfold bind at 1. unfold bind at 1. unfold item at 1, lift.
    cbn [getitem as_index].
    destruct (index_seq (utf8_chars (String c str)) 0); eexists; reflexivity.
  - (* a tuple *)
    unfold bind at 1. cbn [slice_all]. unfold ret at 1.
    unfold bind at 1. unfold truth, gets. cbn [truthy].
    destruct items as [|x items]; cbn [nonempty].
    + eexists; reflexivity.
    + unfold bind at 1. unfold bind at 1. unfold item at 1, lift.
      cbn [getitem as_index]. change (index_seq (x :: items) 0) with (Ok x).
      unfold bind at 1. unfold item at 1, lift.
      destruct (getitem (store s) x (VStr "role")) as [r|e]; [|eexists; reflexivity].
      unfold ret at 1.
      destruct (equals_str r "system"); eexists; reflexivity.
  - (* an address without a list *)
    unfold bind at 1. cbn [slice_all]. rewrite (Hv a eq_refl).
    eexists; reflexivity.
Qed.

(** Whatever [evaluate_turns] is given, it only logs and calls the judge,
    leaves the tester and the clock alone and keeps every list object that
    existed before. *)
Lemma evaluate_turns_frame v s :
  exists evs res s',
    evaluate_turns v s = (res, s') /\
    trace s' = trace s ++ evs /\ Forall (judge_event (self s)) evs /\
    self s' = self s /\ clock s' = clock s /\
    length (store s) <= length (store s') /\
    preserved (store s) (store s').
Proof.
  destruct v as [| | | | | | |a].
  8: destruct (store s !! a) as [msgs|] eqn:Ha.
  8: { destruct (evaluate_turns_list a msgs s Ha)
         as (evs & res & s' & Hrun & Hshape & Htr & Hself & Hclk & Hlen & Hpres).
       exists evs, res, s'. repeat apply conj; auto.
       destruct Hshape as [Hr | [-> _]]; [eapply rounds_events, Hr | constructor]. }
  all: match goal with
       | |- context [evaluate_turns ?v ?s0] =>
           destruct (evaluate_turns_not_list v s0) as [res Hres];
           [intros ? [=]; subst; auto|];
           exists [], res, s0; rewrite app_nil_r;
           repeat apply conj; auto using preserved_refl
       end.
Qed.

(** ** The judge pipeline *)

Lemma Forall_without_system (P : value -> Prop) l :
  Forall P l -> Forall P (without_system l).
Proof.
  intros H. destruct l as [|m rest]; [exact H|].
  unfold without_system. destruct (is_system m); [|exact H].
  apply Forall_cons in H as [_ H]. exact H.
Qed.

Lemma renderable_without_system t l :
  renderable t l -> renderable t (without_system l).
Proof.
  intros H h p a q a' Hp Ha.
  assert (Hsub : forall x, In x (without_system l) -> In x l).
  { destruct l as [|m rest]; [auto|]. unfold without_system.
    destruct (is_system m); [right|]; auto. }
  apply H; auto.
Qed.

(** The calls of [evaluate_turns] on a list object: the i-th call is the
    call for the i-th pair of the transcript without its system message,
    and every pair gets its call when nothing fails. *)
Lemma evaluate_turns_calls a msgs s :
  store s !! a = Some msgs ->
  exists evs res s',
    evaluate_turns (VList a) s = (res, s') /\
    trace s' = trace s ++ evs /\
    (forall i ev, chats evs !! i = Some ev ->
       exists p ans text reply,
         without_system msgs !! (2 * i) = Some p /\
         without_system msgs !! (2 * i + 1) = Some ans /\
         renders (self s) p ans text /\ ev = judge_call (self s) text reply) /\
    (forall n, length (without_system msgs) = 2 * n ->
       Forall is_message msgs -> client_answers -> renderable (self s) msgs ->
       length (chats evs) = n /\ exists rs, res = Ok rs /\ length rs = n).
Proof.
  intros Ha.
  destruct (evaluate_turns_list a msgs s Ha)
    as (evs & res & s' & Hrun & Hshape & Htr & _).
  exists evs, res, s'. split; [exact Hrun|]. split; [exact Htr|].
  destruct Hshape as [Hr | (-> & m & rest & e & -> & He & ->)].
  - split; [eapply rounds_pairs, Hr|].
    intros n Hlen Hmsg Hchat Hfmt.
    destruct (rounds_complete _ _ _ _ _ Hr n Hlen
                (Forall_without_system _ _ Hmsg) Hchat
                (renderable_without_system _ _ Hfmt))
      as (rs & -> & Hlrs & Hlc & _).
    split; [exact Hlc|]. exists rs. split; [reflexivity | exact Hlrs].
  - split; [intros i ev [=]|].
    intros n _ Hmsg. apply Forall_cons in Hmsg as [(r & c & Hr & _) _]. congruence.
Qed.

(** C2.  A transcript without system message that holds [n] pairs of
    messages gets exactly [n] judge responses when the judge answers and
    the template renders: [n] calls are made, and the i-th response is the
    answer to the call made for the messages at [2i] and [2i+1]. *)
Theorem evaluate_turns_one_response_per_pair a msgs n s :
  store s !! a = Some msgs ->
  length msgs = 2 * n ->
  Forall is_message msgs ->
  Forall (fun m => is_system m = false) msgs ->
  client_answers ->
  renderable (self s) msgs ->
  exists rs s' evs,
    evaluate_turns (VList a) s = (Ok rs, s') /\
    length rs = n /\
    trace s' = trace s ++ evs /\
    length (chats evs) = n /\
    forall i, i < n ->
      exists p ans text r,
        msgs !! (2 * i) = Some p /\ msgs !! (2 * i + 1) = Some ans /\
        renders (self s) p ans text /\
        chats evs !! i = Some (judge_call (self s) text (Ok r)) /\
        rs !! i = Some r.
Proof.
  intros Ha Hlen Hmsg Hsys Hchat Hfmt.
  destruct (evaluate_turns_list a msgs s Ha)
    as (evs & res & s' & Hrun & Hshape & Htr & _).
  assert (Hws : without_system msgs = msgs).
  { destruct msgs as [|m rest]; [reflexivity|].
    apply Forall_cons in Hsys as [Hm _]. unfold without_system. now rewrite Hm. }
  destruct Hshape as [Hr | (_ & m & rest & e & -> & He & _)].
  - rewrite Hws in Hr.
    destruct (rounds_complete _ _ _ _ _ Hr n Hlen Hmsg Hchat Hfmt)
      as (rs & -> & Hlrs & Hlc & Hall).
    exists rs, s', evs. auto.
  - apply Forall_cons in Hmsg as [(r & c & Hr & _) _]. congruence.
Qed.

(** C3.  A leading system message is dropped from the working copy: the
    rounds run over the messages after it, so every call to the judge is
    made for a pair of those, and the list object that was passed in still
    holds the whole transcript afterwards, as does every other list. *)
Theorem evaluate_turns_discards_system a sys rest s :
  store s !! a = Some (sys :: rest) ->
  field sys "role" = Ok (VStr "system") ->
  exists evs res s',
    evaluate_turns (VList a) s = (res, s') /\
    trace s' = trace s ++ evs /\
    rounds (self s) rest [] evs res /\
    (forall i ev, chats evs !! i = Some ev ->
       exists p ans text reply,
         rest !! (2 * i) = Some p /\ rest !! (2 * i + 1) = Some ans /\
         renders (self s) p ans text /\ ev = judge_call (self s) text reply) /\
    store s' !! a = Some (sys :: rest) /\
    preserved (store s) (store s').
Proof.
  intros Ha Hrole.
  destruct (evaluate_turns_list a _ s Ha)
    as (evs & res & s' & Hrun & Hshape & Htr & _ & _ & _ & Hpres).
  assert (Hws : without_system (sys :: rest) = rest).
  { unfold without_system, is_system. rewrite Hrole. reflexivity. }
  destruct Hshape as [Hr | (_ & m & rest' & e & [= <- <-] & He & _)];
    [|congruence].
  rewrite Hws in Hr.
  exists evs, res, s'. repeat apply conj; auto.
  - eapply rounds_pairs, Hr.
  - rewrite Hpres; [exact Ha|]. eapply lookup_lt_Some, Ha.
Qed.

(** C5.  On a transcript, the call [evaluate_turns] makes for a pair goes
    to the judge model with the general options [ollama_options], whatever
    [ollama_judge_options] holds, and carries two messages: the judge system
    prompt as system message and the judge prompt rendered for that pair as
    user message.  The i-th call is the call for the i-th pair, and every
    pair gets its call when the messages are well formed, the judge answers
    and the template renders. *)
Theorem evaluate_turns_calls_with_general_options a msgs s :
  store s !! a = Some msgs ->
  exists evs res s',
    evaluate_turns (VList a) s = (res, s') /\
    trace s' = trace s ++ evs /\
    (forall i ev, chats evs !! i = Some ev ->
       exists p ans text reply,
         without_system msgs !! (2 * i) = Some p /\
         without_system msgs !! (2 * i + 1) = Some ans /\
         renders (self s) p ans text /\
         ev = EChat (judge_model (self s))
                [VDict [("role", VStr "system");
                        ("content", VStr (judge_system_prompt (self s)))];
                 VDict [("role", VStr "user"); ("content", VStr text)]]
                (ollama_options (self s)) reply) /\
    (forall n, length (without_system msgs) = 2 * n ->
       Forall is_message msgs -> client_answers -> renderable (self s) msgs ->
       length (chats evs) = n /\ exists rs, res = Ok rs /\ length rs = n).
Proof.
  intros Ha.
  destruct (evaluate_turns_calls a msgs s Ha)
    as (evs & res & s' & Hrun & Htr & Hcalls & Hall).
  exists evs, res, s'.
  split; [exact Hrun|]. split; [exact Htr|]. split; [exact Hcalls | exact Hall].
Qed.

(** C6.  A transcript that is odd once its leading system message is
    removed makes [evaluate_turns] raise; when the messages are well formed,
    the judge answers and the template renders, every complete pair is
    judged first and the exception is the [IndexError] of the [pop] of the
    missing answer. *)
Theorem evaluate_turns_odd_raises a msgs s :
  store s !! a = Some msgs ->
  Nat.Odd (length (without_system msgs)) ->
  exists e s' evs,
    evaluate_turns (VList a) s = (Raise e, s') /\
    trace s' = trace s ++ evs /\
    (Forall is_message msgs -> client_answers -> renderable (self s) msgs ->
     e = IndexError /\ 2 * length (chats evs) + 1 = length (without_system msgs)).
Proof.
  intros Ha Hodd.
  destruct (evaluate_turns_list a msgs s Ha)
    as (evs & res & s' & Hrun & Hshape & Htr & _).
  destruct Hshape as [Hr | (-> & m & rest & e & -> & He & ->)].
  - destruct (rounds_odd_raises _ _ _ _ _ Hr Hodd) as [e ->].
    exists e, s', evs. repeat apply conj; auto.
    intros Hmsg Hchat Hfmt.
    assert (Hsub : forall x, In x (without_system msgs) -> In x msgs).
    { destruct msgs as [|m rest]; [auto|]. unfold without_system.
      destruct (is_system m); [right|]; auto. }
    destruct (rounds_odd_index _ _ _ _ _ Hr Hodd) as [He Hn]; auto.
    + rewrite Forall_forall in *. intros x Hx.
      apply Hmsg, list_elem_of_In, Hsub, list_elem_of_In, Hx.
    + intros h p q c c' Hp Hq. apply Hfmt; auto.
    + split; [congruence | exact Hn].
  - exists e, s', []. repeat apply conj; auto.
    intros Hmsg _ _. apply Forall_cons in Hmsg as [(r & c & Hr & _) _]. congruence.
Qed.

(** ** Documents in the heap *)

Lemma materialize_arr items h :
  materialize (JArr items) h =
  let '(vs, h1) := materialize_items items h in (VList (length h1), h1 ++ [vs]).
Proof. reflexivity. Qed.

Lemma materialize_obj members h :
  materialize (JObj members) h =
  let '(kvs, h1) := materialize_members members h in (VDict kvs, h1).
Proof. reflexivity. Qed.

Lemma json_induction (P : json -> Prop) :
  P JNull -> (forall b, P (JBool b)) -> (forall z, P (JInt z)) ->
  (forall f, P (JFloat f)) -> (forall s, P (JStr s)) ->
  (forall items, Forall P items -> P (JArr items)) ->
  (forall members, Forall (fun kv => P (snd kv)) members -> P (JObj members)) ->
  forall j, P j.
Proof.
  intros Hnull Hbool Hint Hfloat Hstr Harr Hobj.
  fix IH 1. intros [|b|z|f|s|items|members].
  - exact Hnull.
  - apply Hbool.
  - apply Hint.
  - apply Hfloat.
  - apply Hstr.
  - apply Harr. induction items as [|x r IHr]; constructor; [apply IH | exact IHr].
  - apply Hobj. induction members as [|[k x] r IHr]; constructor;
      [apply IH | exact IHr].
Qed.

Lemma denotes_arr h items a :
  denotes h (JArr items) (VList a) =
  exists vs, h !! a = Some vs /\ denotes_items h items vs.
Proof. reflexivity. Qed.

Lemma denotes_obj h members kvs :
  denotes h (JObj members) (VDict kvs) = denotes_members h members kvs.
Proof. reflexivity. Qed.

(** A document stays denoted when the list objects of the heap stay. *)
Lemma denotes_frame j : forall h h' v,
  denotes h j v -> preserved h h' -> denotes h' j v.
Proof.
  induction j as [| | | | |items IH|members IH] using json_induction;
    intros h h' v Hd Hp; destruct v; try exact Hd; try contradiction.
  - rewrite denotes_arr in *. destruct Hd as (vs & Hl & Hvs).
    exists vs. split.
    + rewrite Hp; [exact Hl|]. eapply lookup_lt_Some, Hl.
    + clear Hl. revert vs Hvs.
      induction IH as [|x r Hx _ IHr]; intros [|y vs] Hvs; try exact Hvs.
      destruct Hvs as [Hy Hvs]. split; [eapply Hx; eauto | apply IHr, Hvs].
  - rewrite denotes_obj in *. revert items Hd.
    induction IH as [|[k x] r Hx _ IHr]; intros [|[k' y] kvs] Hd; try exact Hd.
    destruct Hd as (Hk & Hy & Hd).
    repeat split; [exact Hk | eapply Hx; eauto | apply IHr, Hd].
Qed.

Lemma denotes_items_frame h h' js vs :
  denotes_items h js vs -> preserved h h' -> denotes_items h' js vs.
Proof.
  revert vs. induction js as [|x r IH]; intros [|y vs] Hd Hp; try exact Hd.
  destruct Hd as [Hy Hd]. split; [eapply denotes_frame; eauto | eapply IH; eauto].
Qed.

Lemma denotes_members_frame h h' ms kvs :
  denotes_members h ms kvs -> preserved h h' -> denotes_members h' ms kvs.
Proof.
  revert kvs. induction ms as [|[k x] r IH]; intros [|[k' y] kvs] Hd Hp; try exact Hd.
  destruct Hd as (Hk & Hy & Hd).
  repeat split; [exact Hk | eapply denotes_frame; eauto | eapply IH; eauto].
Qed.

Lemma preserved_app h ext : preserved h (h ++ ext).
Proof. intros a Ha. apply lookup_app_l, Ha. Qed.

(** [materialize] only adds list objects, and the value it returns
    denotes the document. *)
Lemma materialize_spec j : forall h,
  exists ext,
    snd (materialize j h) = h ++ ext /\
    denotes (h ++ ext) j (fst (materialize j h)).
Proof.
  induction j as [| | | | |items IH|members IH] using json_induction; intros h;
    try (exists []; rewrite app_nil_r; split; reflexivity).
  - assert (Hitems : forall h, exists ext,
               snd (materialize_items items h) = h ++ ext /\
               denotes_items (h ++ ext) items (fst (materialize_items items h))).
    { clear h. induction IH as [|x r Hx _ IHr]; intros h.
      - exists []. rewrite app_nil_r. split; reflexivity.
      - cbn [materialize_items].
        destruct (Hx h) as (e1 & Hs1 & Hd1).
        destruct (materialize x h) as [v h1]. cbn [fst snd] in *. subst h1.
        destruct (IHr (h ++ e1)) as (e2 & Hs2 & Hd2).
        destruct (materialize_items r (h ++ e1)) as [vs h2]. cbn [fst snd] in *.
        subst h2. exists (e1 ++ e2). rewrite app_assoc. split; [reflexivity|].
        split; [|exact Hd2].
        eapply denotes_frame; [exact Hd1 | apply preserved_app]. }
    rewrite materialize_arr. destruct (Hitems h) as (ext & Hs & Hd).
    destruct (materialize_items items h) as [vs h1]. cbn [fst snd] in *. subst h1.
    exists (ext ++ [vs]). rewrite app_assoc. split; [reflexivity|].
    rewrite denotes_arr. exists vs. split; [apply lookup_snoc|].
    eapply denotes_items_frame; [exact Hd | apply preserved_app].
  - assert (Hmembers : forall h, exists ext,
               snd (materialize_members members h) = h ++ ext /\
               denotes_members (h ++ ext) members
                 (fst (materialize_members members h))).
    { clear h. induction IH as [|[k x] r Hx _ IHr]; intros h.
      - exists []. rewrite app_nil_r. split; reflexivity.
      - cbn [materialize_members]. cbn [snd] in Hx.
        destruct (Hx h) as (e1 & Hs1 & Hd1).
        destruct (materialize x h) as [v h1]. cbn [fst snd] in *. subst h1.
        destruct (IHr (h ++ e1)) as (e2 & Hs2 & Hd2).
        destruct (materialize_members r (h ++ e1)) as [kvs h2]. cbn [fst snd] in *.
        subst h2. exists (e1 ++ e2). rewrite app_assoc. split; [reflexivity|].
        repeat split; [|exact Hd2].
        eapply denotes_frame; [exact Hd1 | apply preserved_app]. }
    rewrite materialize_obj. destruct (Hmembers h) as (ext & Hs & Hd).
    destruct (materialize_members members h) as [kvs h1]. cbn [fst snd] in *.
    subst h1. exists ext. split; [reflexivity|].
    rewrite denotes_obj. exact Hd.
Qed.

Lemma denotes_truthy h j v : denotes h j v -> truthy h v = json_truthy j.
Proof.
  destruct j, v; try contradiction; cbn [denotes]; try (intros ->; reflexivity).
  - reflexivity.
  - fold (denotes_items h items). intros (vs & Hl & Hvs). cbn [truthy json_truthy].
    rewrite Hl. destruct items, vs; try contradiction; reflexivity.
  - fold (denotes_members h members). intros Hd. cbn [truthy json_truthy].
    destruct members as [|[k x] r], items as [|[k' y] kvs]; try contradiction;
      reflexivity.
Qed.

(** ** The cached property [load_messages] *)

Lemma load_messages_cached s v :
  _load_messages (self s) = Some v -> load_messages s = (Ok v, s).
Proof. intros H. unfold load_messages, bind, gets. rewrite H. reflexivity. Qed.

Lemma load_messages_no_file s :
  _load_messages (self s) = None -> load_messages_file (self s) = None ->
  load_messages s = (Raise AttributeError, s).
Proof.
  intros Hc Hf. unfold load_messages, bind, gets. rewrite Hc.
  unfold json_load_messages_file, bind, read_load_messages_file. rewrite Hf.
  reflexivity.
Qed.

Lemma load_messages_parsed s text j :
  _load_messages (self s) = None -> load_messages_file (self s) = Some text ->
  json_parse text = Some j ->
  load_messages s =
  (Ok (fst (materialize j (store s))),
   loaded_state s (fst (materialize j (store s))) (snd (materialize j (store s)))).
Proof.
  intros Hc Hf Hj. unfold load_messages, bind, gets. rewrite Hc.
  unfold json_load_messages_file, bind, read_load_messages_file. rewrite Hf.
  unfold json_loads. rewrite Hj. sstate.
  destruct (materialize j (store s)) as [v h]. reflexivity.
Qed.

Lemma load_messages_invalid s text :
  _load_messages (self s) = None -> load_messages_file (self s) = Some text ->
  json_parse text = None ->
  load_messages s =
  (Raise (ConfigurationError InvalidJSONMessagesFile),
   set_self (set_load_messages_file (Some "") (self s)) s).
Proof.
  intros Hc Hf Hj. unfold load_messages, bind, gets. rewrite Hc.
  unfold json_load_messages_file, bind, read_load_messages_file. rewrite Hf.
  unfold json_loads. rewrite Hj. reflexivity.
Qed.

(** ** Claims on construction and configuration *)

Lemma vsize_tuple o : VTuple [o] <> o.
Proof.
  intros H. apply (f_equal vsize) in H. cbn in H. lia.
Qed.

(** C10.  The constructor stores the judge options wrapped in a tuple of
    one element, never the options themselves.  Whatever the tester has read
    from its files since, this tuple is what [evaluate_turns] binds [options]
    to when it renders the judge prompt of a pair: the text of the i-th call
    is the template formatted with the contents of the i-th pair and that
    tuple, and every pair gets its call when the messages are well formed,
    the judge answers and the template renders. *)
Theorem judge_options_are_wrapped
    jm sp jsp jp (o : value) q mt lm bm bo :
  let t := __init__ jm sp jsp jp o q mt lm bm bo in
  ollama_judge_options t = VTuple [o] /\
  VTuple [o] <> o /\
  forall s a msgs,
    (exists f c sp',
       self s = set_system_prompt sp' (set__load_messages c (set_load_messages_file f t))) ->
    store s !! a = Some msgs ->
    exists evs res s',
      evaluate_turns (VList a) s = (res, s') /\
      trace s' = trace s ++ evs /\
      (forall i ev, chats evs !! i = Some ev ->
         exists p ans q' a' h' text reply,
           without_system msgs !! (2 * i) = Some p /\
           without_system msgs !! (2 * i + 1) = Some ans /\
           field p "content" = Ok q' /\ field ans "content" = Ok a' /\
           str_format h' (judge_prompt t)
             [("question", q'); ("answer", a'); ("options", VTuple [o])] = Ok text /\
           ev = judge_call t text reply) /\
      (forall n, length (without_system msgs) = 2 * n ->
         Forall is_message msgs -> client_answers -> renderable (self s) msgs ->
         length (chats evs) = n /\ exists rs, res = Ok rs /\ length rs = n).
Proof.
  intros t. split; [reflexivity|]. split; [apply vsize_tuple|].
  intros s a msgs (f & c & sp' & Hself) Ha.
  destruct (evaluate_turns_calls a msgs s Ha)
    as (evs & res & s' & Hrun & Htr & Hcalls & Hall).
  exists evs, res, s'.
  split; [exact Hrun|]. split; [exact Htr|]. split; [|exact Hall].
  intros i ev Hi.
  destruct (Hcalls i ev Hi)
    as (p & ans & text & reply & Hp & Hans & (q' & a' & h' & Hq & Hc & Hf) & ->).
  exists p, ans, q', a', h', text, reply.
  rewrite Hself in Hf |- *.
  split; [exact Hp|]. split; [exact Hans|]. split; [exact Hq|]. split; [exact Hc|].
  split; [exact Hf | reflexivity].
Qed.

(** C1 (the code departs from it).  A tester built without a transcripts
    file raises [AttributeError] as soon as [run] reads the property
    [load_messages]: no call leaves the module, [run_turns] is not
    reached. *)
Theorem run_without_source_raises jm sp jsp jp o q mt bm bo question_id :
  let s := initial (__init__ jm sp jsp jp o q mt None bm bo) in
  run question_id s = (Raise AttributeError, tick s).
Proof. reflexivity. Qed.

Lemma check_config_unfold s :
  check_config s =
  if negb (contains "{question}" (judge_prompt (self s))) then
    (Raise (ConfigurationError (MissingMarker "{question}")), s)
  else if negb (contains "{answer}" (judge_prompt (self s))) then
    (Raise (ConfigurationError (MissingMarker "{answer}")), s)
  else match load_messages_file (self s) with
       | None => (Ok tt, s)
       | Some _ =>
           match load_messages s with
           | (Ok v, s') =>
               if negb (truthy (store s') v)
               then (Raise (ConfigurationError NoLoadedMessages), s')
               else (Ok tt, s')
           | (Raise e, s') => (Raise e, s')
           end
       end.
Proof.
  unfold check_config. cbn [for_each]. unfold bind, gets, ret, raise, truth.
  destruct (contains "{question}" (judge_prompt (self s))); cbn [negb];
    [|reflexivity].
  destruct (contains "{answer}" (judge_prompt (self s))); cbn [negb];
    [|reflexivity].
  destruct (load_messages_file (self s)); [|reflexivity].
  destruct (load_messages s) as [[v|e] s']; [|reflexivity].
  unfold gets. destruct (truthy (store s') v); reflexivity.
Qed.

(** C9.  [check_config] raises a [ConfigurationError] when the judge
    prompt lacks one of the two markers, and leaves the state as it was: no
    call is made.  With both markers it returns, when no transcripts file is
    configured, and when the configured file holds a document that is not
    empty; no call is made either. *)
Theorem check_config_markers s :
  (contains "{question}" (judge_prompt (self s)) = false ->
   check_config s = (Raise (ConfigurationError (MissingMarker "{question}")), s)) /\
  (contains "{question}" (judge_prompt (self s)) = true ->
   contains "{answer}" (judge_prompt (self s)) = false ->
   check_config s = (Raise (ConfigurationError (MissingMarker "{answer}")), s)) /\
  (contains "{question}" (judge_prompt (self s)) = true ->
   contains "{answer}" (judge_prompt (self s)) = true ->
   (load_messages_file (self s) = None -> check_config s = (Ok tt, s)) /\
   (forall text j,
      load_messages_file (self s) = Some text ->
      _load_messages (self s) = None ->
      json_parse text = Some j -> json_truthy j = true ->
      exists s', check_config s = (Ok tt, s') /\ trace s' = trace s)).
Proof.
  rewrite check_config_unfold. split; [|split].
  - intros ->. reflexivity.
  - intros -> ->. reflexivity.
  - intros Hq Ha. rewrite Hq, Ha. cbn [negb]. split.
    { intros ->. reflexivity. }
    intros text j Hf Hc Hj Ht. rewrite Hf.
    rewrite (load_messages_parsed s text j Hc Hf Hj).
    destruct (materialize_spec j (store s)) as (ext & Hs & Hd).
    destruct (materialize j (store s)) as [v h]. cbn [fst snd] in *. subst h.
    unfold loaded_state. sstate.
    rewrite (denotes_truthy _ _ _ Hd), Ht.
    eexists. split; reflexivity.
Qed.

(** C8 (the code departs from it).  A tester whose subject model is also
    its judge, built without a transcripts file and with the default judge
    prompt, passes [check_config].  No transcript is loaded and the two
    models are the same, and yet [run] never unloads the model: it raises
    [AttributeError] when it reads the property [load_messages], before any
    call is made. *)
Theorem run_without_source_never_unloads jm sp jsp o q mt bo question_id :
  let s := initial (__init__ jm sp jsp None o q mt None jm bo) in
  model (self s) = judge_model (self s) /\
  _load_messages (self s) = None /\
  check_config s = (Ok tt, s) /\
  fst (run question_id s) = Raise AttributeError /\
  trace (snd (run question_id s)) = [] /\
  unloads (trace (snd (run question_id s))) = [].
Proof.
  intros s. split; [reflexivity|]. split; [reflexivity|].
  split; [rewrite check_config_unfold; vm_compute; reflexivity|].
  split; [reflexivity|]. split; reflexivity.
Qed.

(** ** The conversation driver *)

Ltac solve_no_unload :=
  unfold no_unload in *;
  repeat first [ assumption
               | apply Forall_nil_2
               | apply Forall_cons_2; [reflexivity|]
               | apply Forall_app_2 ].

Lemma turns_loop_frame prompts : forall question_id q m i rs s,
  m < length (store s) ->
  exists evs res s',
    turns_loop question_id q (VList m) i prompts rs s = (res, s') /\
    trace s' = trace s ++ evs /\ no_unload evs /\
    self s' = self s /\ clock s' = clock s /\
    length (store s) <= length (store s') /\
    (forall a, a < length (store s) -> a <> m -> store s' !! a = store s !! a).
Proof.
  induction prompts as [|prompt rest IH]; intros question_id q m i rs s Hm.
  - exists [], (Ok rs), s. rewrite app_nil_r.
    repeat apply conj; auto. constructor.
  - cbn [turns_loop].
    unfold bind at 1. unfold log at 1, modify.
    unfold bind at 1. unfold log at 1, modify.
    set (s1 := emit _ (emit _ s)).
    assert (Htr1 : trace s1 = trace s ++
              [ELog DEBUG "turn #%s" (VInt i); ELog INFO "> %s" (VStr prompt)]).
    { subst s1. sstate. rewrite <- app_assoc. reflexivity. }
    (* the user message, with or without images *)
    assert (Hmsg : exists evs1 res1 s2,
               (if image_urls q
                then images <- fetch_images question_id;;
                     images <- list_new (map VStr images);;
                     ret [("role", VStr "user"); ("content", VStr prompt);
                          ("images", images)]
                else ret [("role", VStr "user"); ("content", VStr prompt)]) s1
               = (res1, s2) /\
               trace s2 = trace s1 ++ evs1 /\ no_unload evs1 /\
               self s2 = self s /\ clock s2 = clock s /\
               length (store s) <= length (store s2) /\
               preserved (store s) (store s2)).
    { destruct (image_urls q).
      - unfold bind at 1. unfold fetch_images at 1.
        destruct (get_question_b64_images s1 question_id) as [imgs|e].
        + unfold bind at 1. unfold list_new at 1. unfold ret.
          eexists [EGetImages question_id], _, _. split; [reflexivity|].
          sstate. change (store s1) with (store s). rewrite length_app.
          split; [reflexivity|]. split; [solve_no_unload|].
          split; [reflexivity|]. split; [reflexivity|]. split; [lia|].
          apply preserved_app.
        + eexists [EGetImages question_id], _, _. split; [reflexivity|].
          sstate. split; [reflexivity|]. split; [solve_no_unload|].
          split; [reflexivity|]. split; [reflexivity|]. split; [reflexivity|].
          apply preserved_refl.
      - eexists [], _, _. split; [reflexivity|]. rewrite app_nil_r.
        split; [reflexivity|]. split; [solve_no_unload|].
        split; [reflexivity|]. split; [reflexivity|]. split; [reflexivity|].
        apply preserved_refl. }
    destruct Hmsg as (evs1 & res1 & s2 & Hrun1 & Htr2 & Hnu1 & Hself2 & Hclk2 & Hlen2 & Hpres2).
    unfold bind at 1. rewrite Hrun1.
    destruct res1 as [msg|e].
    2:{ eexists _, _, _. split; [reflexivity|].
        rewrite Htr2, Htr1, <- app_assoc.
        split; [reflexivity|]. split; [solve_no_unload|].
        split; [exact Hself2|]. split; [exact Hclk2|]. split; [exact Hlen2|].
        intros a Ha _. apply Hpres2, Ha. }
    assert (Hm2 : exists c, store s2 !! m = Some c).
    { apply lookup_lt_is_Some. lia. }
    destruct Hm2 as [c Hc].
    unfold bind at 1. unfold list_append at 1. rewrite Hc.
    unfold bind at 1. unfold gets at 1. unfold bind at 1. unfold gets at 1.
    unfold bind at 1. unfold chat at 1. sstate.
    set (s3 := set_store _ s2).
    match goal with
    | |- context [client_chat ?x1 ?x2 ?x3 ?x4] =>
        destruct (client_chat x1 x2 x3 x4) as [r|e] eqn:Hchat
    end.
    2:{ eexists _, _, _. split; [reflexivity|]. subst s3. sstate.
        rewrite Htr2, Htr1, <- !app_assoc. rewrite length_insert.
        split; [reflexivity|].
        split; [solve_no_unload|].
        split; [exact Hself2|]. split; [exact Hclk2|]. split; [exact Hlen2|].
        intros a Ha Ham. rewrite list_lookup_insert_ne by auto. apply Hpres2, Ha. }
    unfold bind at 1. unfold log at 1, modify.
    unfold bind at 1. unfold list_append at 1. sstate.
    assert (Hc3 : store s3 !! m = Some (c ++ [VDict msg])).
    { subst s3. sstate. eapply lookup_insert_same, Hc. }
    rewrite Hc3.
    set (s5 := set_store _ (emit _ (emit _ s3))).
    assert (Hlen5 : length (store s5) = length (store s2)).
    { subst s5 s3. sstate. rewrite !length_insert. reflexivity. }
    destruct (IH question_id q m (i + 1)%Z (rs ++ [r]) s5)
      as (evs & res & s' & Hrun & Htr & Hnu & Hself & Hclk & Hlen & Hpres); [lia|].
    eexists _, res, s'. split; [exact Hrun|].
    rewrite Htr. subst s5 s3. sstate. rewrite Htr2, Htr1, <- !app_assoc.
    split; [reflexivity|].
    split; [solve_no_unload|].
    split; [rewrite Hself; exact Hself2|].
    split; [rewrite Hclk; exact Hclk2|].
    split; [lia|].
    intros a Ha Ham. rewrite Hpres by (auto; lia).
    sstate. rewrite !list_lookup_insert_ne by auto.
    apply Hpres2, Ha.
Qed.

Lemma set_system_prompt_id t : t = set_system_prompt (system_prompt t) t.
Proof. destruct t; reflexivity. Qed.

Lemma run_turns_frame question_id s :
  exists evs res s' f,
    run_turns question_id s = (res, s') /\
    trace s' = trace s ++ evs /\ no_unload evs /\
    self s' = set_system_prompt f (self s) /\ clock s' = clock s /\
    length (store s) <= length (store s') /\
    preserved (store s) (store s').
Proof.
  unfold run_turns.
  unfold bind at 1. unfold fetch_question at 1.
  destruct (get_question s question_id) as [q|e].
  2:{ exists [EGetQuestion question_id], (Raise e), (emit (EGetQuestion question_id) s),
        (system_prompt (self s)).
      split; [reflexivity|]. split; [reflexivity|]. split; [solve_no_unload|].
      split; [sstate; apply set_system_prompt_id|]. split; [reflexivity|].
      split; [reflexivity|]. apply preserved_refl. }
  unfold bind at 1. unfold list_new at 1. sstate.
  set (m := length (store s)).
  set (s1 := set_store (store s ++ [[]]) (emit (EGetQuestion question_id) s)).
  unfold bind at 1. unfold gets at 1.
  assert (Hsp : exists s2 f res2,
             (match system_prompt (self s1) with
              | Some _ =>
                  text <- read_system_prompt;;
                  list_append (VList m)
                    (VDict [("role", VStr "system"); ("content", VStr text)])
              | None => ret tt
              end) s1 = (res2, s2) /\
             trace s2 = trace s1 /\ self s2 = set_system_prompt f (self s) /\
             clock s2 = clock s /\ length (store s2) = S m /\
             preserved (store s) (store s2)).
  { destruct (system_prompt (self s1)) as [text|] eqn:Hs.
    - unfold bind at 1. unfold read_system_prompt at 1. rewrite Hs.
      unfold list_append. sstate.
      assert (Hm1 : store s1 !! m = Some []) by apply lookup_snoc.
      rewrite Hm1.
      eexists _, (Some ""), _. split; [reflexivity|]. subst s1. sstate.
      rewrite length_insert, length_app.
      split; [reflexivity|]. split; [reflexivity|]. split; [reflexivity|].
      split; [simpl; lia|].
      intros a Ha. rewrite list_lookup_insert_ne by (fold m in Ha; lia).
      apply lookup_app_l, Ha.
    - exists s1, (system_prompt (self s)), (Ok tt). split; [reflexivity|].
      subst s1. sstate. rewrite length_app.
      split; [reflexivity|]. split; [sstate; apply set_system_prompt_id|].
      split; [reflexivity|]. split; [simpl; lia|]. apply preserved_app. }
  destruct Hsp as (s2 & f & res2 & Hrun2 & Htr2 & Hself2 & Hclk2 & Hlen2 & Hpres2).
  unfold bind at 1. rewrite Hrun2.
  destruct res2 as [[]|e].
  2:{ exists [EGetQuestion question_id], (Raise e), s2, f.
      split; [reflexivity|]. split; [rewrite Htr2; reflexivity|].
      split; [solve_no_unload|]. split; [exact Hself2|]. split; [exact Hclk2|].
      split; [fold m; lia | exact Hpres2]. }
  unfold bind at 1. unfold gets at 1. unfold bind at 1.
  destruct (turns_loop_frame (slice_to (turns q) (max_turns (self s2)))
              question_id q m 0%Z [] s2)
    as (evs & res & s' & Hrun & Htr & Hnu & Hself & Hclk & Hlen & Hpres); [lia|].
  rewrite Hrun.
  exists (EGetQuestion question_id :: evs),
    (match res with Ok _ => Ok (VList m) | Raise e => Raise e end), s', f.
  split; [destruct res; reflexivity|].
  split; [rewrite Htr, Htr2; subst s1; sstate; rewrite <- app_assoc; reflexivity|].
  split; [solve_no_unload|].
  split; [rewrite Hself; exact Hself2|].
  split; [rewrite Hclk; exact Hclk2|].
  split; [fold m; lia|].
  intros a Ha. fold m in Ha. rewrite Hpres by lia. apply Hpres2, Ha.
Qed.

(** ** The end of [run] *)

Lemma json_loads_frame text s :
  exists res s',
    json_loads text s = (res, s') /\
    trace s' = trace s /\ self s' = self s /\ clock s' = clock s /\
    length (store s) <= length (store s') /\ preserved (store s) (store s') /\
    (json_parse text = None -> res = Raise JSONDecodeError) /\
    (forall doc, json_parse text = Some doc ->
       res = Ok (fst (materialize doc (store s))) /\
       denotes (store s') doc (fst (materialize doc (store s)))).
Proof.
  unfold json_loads. destruct (json_parse text) as [doc|].
  - destruct (materialize_spec doc (store s)) as (ext & Hs & Hd).
    destruct (materialize doc (store s)) as [v h] eqn:Hm. cbn [fst snd] in *. subst h.
    eexists _, _. split; [reflexivity|]. sstate. rewrite length_app.
    split; [reflexivity|]. split; [reflexivity|]. split; [reflexivity|].
    split; [lia|]. split; [apply preserved_app|].
    split; [discriminate|]. intros d [= <-]. rewrite Hm. auto.
  - eexists _, _. split; [reflexivity|].
    split; [reflexivity|]. split; [reflexivity|]. split; [reflexivity|].
    split; [lia|]. split; [apply preserved_refl|].
    split; [reflexivity | discriminate].
Qed.

(** The list comprehension of [run]: the documents of the responses, or
    [JSONDecodeError] at the first response that is not one. *)
Lemma parse_all js : forall s,
  exists res s',
    comprehension (fun j => _parse_judgement (content (message j))) js s = (res, s') /\
    trace s' = trace s /\ self s' = self s /\ clock s' = clock s /\
    length (store s) <= length (store s') /\ preserved (store s) (store s') /\
    (Forall parses js -> exists vs, res = Ok vs /\ Forall2 parsed js vs) /\
    (Exists (fun j => json_parse (content (message j)) = None) js ->
     res = Raise JSONDecodeError) /\
    (forall vs, res = Ok vs -> Forall2 parsed js vs).
Proof.
  induction js as [|j js IH]; intros s.
  - exists (Ok []), s. split; [reflexivity|].
    split; [reflexivity|]. split; [reflexivity|]. split; [reflexivity|].
    split; [lia|]. split; [apply preserved_refl|].
    split; [intros _; exists []; split; [reflexivity | constructor]|].
    split; [intros H; inversion H|].
    intros vs [= <-]. constructor.
  - cbn [comprehension]. unfold bind at 1. unfold _parse_judgement at 1.
    destruct (json_loads_frame (content (message j)) s)
      as (res1 & s1 & Hrun1 & Htr1 & Hself1 & Hclk1 & Hlen1 & Hpres1 & Hbad & Hgood).
    rewrite Hrun1.
    destruct (json_parse (content (message j))) as [doc|] eqn:Hdoc.
    + destruct (Hgood doc eq_refl) as [-> Hd].
      destruct (IH s1)
        as (res & s' & Hrun & Htr & Hself & Hclk & Hlen & Hpres & Hall & Hex & Hok).
      unfold bind at 1. rewrite Hrun.
      assert (Hp : parsed j (fst (materialize doc (store s))))
        by (exists doc, (store s); auto).
      exists (match res with
              | Ok vs => Ok (fst (materialize doc (store s)) :: vs)
              | Raise e => Raise e
              end), s'.
      split; [destruct res; reflexivity|].
      split; [congruence|]. split; [congruence|]. split; [congruence|].
      split; [lia|]. split; [eapply preserved_trans; eauto|].
      split; [|split].
      * intros Hf. apply Forall_cons in Hf as [_ Hf].
        destruct (Hall Hf) as (vs & -> & Hvs). eexists. split; [reflexivity|].
        constructor; auto.
      * intros He. apply Exists_cons in He as [He | He]; [congruence|].
        rewrite (Hex He). reflexivity.
      * intros vs Hvs. destruct res as [vs'|]; [|discriminate].
        injection Hvs as <-. constructor; auto.
    + rewrite (Hbad eq_refl).
      exists (Raise JSONDecodeError), s1. split; [reflexivity|].
      split; [exact Htr1|]. split; [exact Hself1|]. split; [exact Hclk1|].
      split; [exact Hlen1|]. split; [exact Hpres1|].
      split; [|split].
      * intros Hf. apply Forall_cons in Hf as [[d Hd] _]. congruence.
      * reflexivity.
      * discriminate.
Qed.

Lemma finish_spec msgs d s :
  exists evs jres s2 res s',
    evaluate_turns msgs (tick s) = (jres, s2) /\
    finish msgs d s = (res, s') /\
    trace s2 = trace s ++ evs /\ trace s' = trace s ++ evs /\
    Forall (judge_event (self s)) evs /\
    self s' = self s /\
    length (store s) <= length (store s') /\ preserved (store s) (store s') /\
    match jres with
    | Raise e => res = Raise e
    | Ok js =>
        (Forall parses js -> exists r, res = Ok r) /\
        (Exists (fun j => json_parse (content (message j)) = None) js ->
         res = Raise JSONDecodeError) /\
        (forall r, res = Ok r ->
           messages r = msgs /\ Forall2 parsed js (judgements r) /\
           message_duration r = d /\
           work_duration r = time_add (message_duration r) (judge_duration r))
    end.
Proof.
  unfold finish. unfold bind at 1. unfold time_time at 1.
  destruct (evaluate_turns_frame msgs (tick s))
    as (evs & jres & s2 & Hrun & Htr & Hev & Hself & Hclk & Hlen & Hpres).
  unfold bind at 1. rewrite Hrun.
  exists evs, jres, s2.
  destruct jres as [js|e].
  2:{ exists (Raise e), s2. repeat (split; [solve [auto]|]). reflexivity. }
  unfold bind at 1. unfold time_time at 1.
  destruct (parse_all js (tick s2))
    as (pres & s3 & Hrun3 & Htr3 & Hself3 & Hclk3 & Hlen3 & Hpres3 & Hall & Hex & Hok).
  unfold bind at 1. rewrite Hrun3.
  eexists (match pres with Ok vs => Ok _ | Raise e => Raise e end), s3.
  split; [reflexivity|].
  split; [destruct pres; reflexivity|].
  split; [exact Htr|]. split; [rewrite Htr3; exact Htr|].
  split; [exact Hev|]. split; [rewrite Hself3; exact Hself|].
  split; [sstate_in Hlen3; sstate_in Hlen; lia|].
  split; [eapply preserved_trans; [exact Hpres| exact Hlen | exact Hpres3]|].
  split; [|split].
  - intros Hf. destruct (Hall Hf) as (vs & -> & _). eexists. reflexivity.
  - intros He. rewrite (Hex He). reflexivity.
  - intros r Hr. destruct pres as [vs|]; [|discriminate].
    injection Hr as <-. cbn. repeat split; auto.
Qed.

(** [run], step by step. *)
Lemma run_unfold question_id s :
  run question_id s =
  match load_messages (tick s) with
  | (Raise e, s1) => (Raise e, s1)
  | (Ok loaded, s1) =>
      match (if truthy (store s1) loaded
             then (again <- load_messages;; item again question_id) s1
             else run_turns question_id s1) with
      | (Raise e, s2) => (Raise e, s2)
      | (Ok msgs, s2) =>
          let d := time_sub (wall (clock s2)) (wall (clock s)) in
          match load_messages (tick s2) with
          | (Raise e, s3) => (Raise e, s3)
          | (Ok loaded', s3) =>
              if negb (truthy (store s3) loaded')
                 && String.eqb (model (self s3)) (judge_model (self s3))
              then match unload (model (self s3)) s3 with
                   | (Ok _, s4) => finish msgs d s4
                   | (Raise e, s4) => (Raise e, s4)
                   end
              else finish msgs d s3
          end
      end
  end.
Proof.
  unfold run. unfold bind at 1. unfold time_time at 1.
  unfold bind at 1.
  destruct (load_messages (tick s)) as [[loaded|e] s1]; [|reflexivity].
  unfold bind at 1. unfold truth at 1, gets.
  unfold bind at 1.
  destruct (truthy (store s1) loaded).
  - destruct ((again <- load_messages;; item again question_id) s1)
      as [[msgs|e] s2]; [|reflexivity].
    unfold bind at 1. unfold time_time at 1.
    unfold bind at 1.
    destruct (load_messages (tick s2)) as [[loaded'|e] s3]; [|reflexivity].
    unfold bind at 1. unfold truth at 1, gets.
    unfold bind at 1. unfold bind at 1. unfold bind at 1.
    destruct (negb (truthy (store s3) loaded')
              && String.eqb (model (self s3)) (judge_model (self s3))).
    + unfold bind at 1. destruct (unload (model (self s3)) s3) as [[[]|e] s4];
        reflexivity.
    + reflexivity.
  - destruct (run_turns question_id s1) as [[msgs|e] s2]; [|reflexivity].
    unfold bind at 1. unfold time_time at 1.
    unfold bind at 1.
    destruct (load_messages (tick s2)) as [[loaded'|e] s3]; [|reflexivity].
    unfold bind at 1. unfold truth at 1, gets.
    unfold bind at 1. unfold bind at 1. unfold bind at 1.
    destruct (negb (truthy (store s3) loaded')
              && String.eqb (model (self s3)) (judge_model (self s3))).
    + unfold bind at 1. destruct (unload (model (self s3)) s3) as [[[]|e] s4];
        reflexivity.
    + reflexivity.
Qed.

Lemma truthy_preserved h h' v :
  (forall a, v = VList a -> a < length h) -> preserved h h' ->
  truthy h' v = truthy h v.
Proof.
  intros Hv Hp. destruct v; try reflexivity.
  cbn [truthy]. rewrite Hp; [reflexivity|]. apply Hv. reflexivity.
Qed.

Lemma denotes_valid h j a : denotes h j (VList a) -> a < length h.
Proof.
  destruct j; try contradiction. rewrite denotes_arr.
  intros (vs & Hl & _). eapply lookup_lt_Some, Hl.
Qed.

(** The property reads no clock and makes no call; what it returns is
    cached. *)
Lemma load_messages_frame s :
  exists res s',
    load_messages s = (res, s') /\
    trace s' = trace s /\ clock s' = clock s /\
    model (self s') = model (self s) /\
    judge_model (self s') = judge_model (self s) /\
    length (store s) <= length (store s') /\ preserved (store s) (store s') /\
    (forall v, res = Ok v -> _load_messages (self s') = Some v) /\
    (cache_ok s -> cache_ok s').
Proof.
  destruct (_load_messages (self s)) as [v|] eqn:Hc.
  - exists (Ok v), s. rewrite (load_messages_cached s v Hc).
    repeat (split; [solve [auto using preserved_refl]|]).
    split; [intros ? [= <-]; exact Hc | auto].
  - destruct (load_messages_file (self s)) as [text|] eqn:Hf.
    + destruct (json_parse text) as [j|] eqn:Hj.
      * rewrite (load_messages_parsed s text j Hc Hf Hj).
        destruct (materialize_spec j (store s)) as (ext & Hs & Hd).
        destruct (materialize j (store s)) as [v h]. cbn [fst snd] in *. subst h.
        eexists _, _. split; [reflexivity|]. unfold loaded_state. sstate.
        rewrite length_app.
        split; [reflexivity|]. split; [reflexivity|]. split; [reflexivity|].
        split; [reflexivity|]. split; [lia|]. split; [apply preserved_app|].
        split; [intros ? [= <-]; reflexivity|].
        intros _ a [= ->]. sstate. eapply denotes_valid, Hd.
      * rewrite (load_messages_invalid s text Hc Hf Hj).
        eexists _, _. split; [reflexivity|]. sstate.
        split; [reflexivity|]. split; [reflexivity|]. split; [reflexivity|].
        split; [reflexivity|]. split; [lia|]. split; [apply preserved_refl|].
        split; [discriminate|].
        intros _ a. cbn. rewrite Hc. discriminate.
    + rewrite (load_messages_no_file s Hc Hf).
      exists (Raise AttributeError), s.
      repeat (split; [solve [auto using preserved_refl]|]).
      split; [discriminate | auto].
Qed.

Lemma unloads_app evs1 evs2 : unloads (evs1 ++ evs2) = unloads evs1 ++ unloads evs2.
Proof. apply List.filter_app. Qed.

Lemma unloads_none evs : no_unload evs -> unloads evs = [].
Proof.
  induction 1 as [|e evs He _ IH]; [reflexivity|].
  cbn. rewrite He. exact IH.
Qed.

Lemma judge_events_no_unload t evs : Forall (judge_event t) evs -> no_unload evs.
Proof.
  intros H. eapply Forall_impl; [exact H|].
  intros ev [Hl | (p & a & text & reply & _ & ->)]; [destruct ev; try discriminate|];
    reflexivity.
Qed.

(** ** The run of a question *)

(** X18.  [run] asks the client to unload the subject model at most once.
    It never does when the property [load_messages] gave transcripts, nor
    when the subject and judge models differ.  When the property gave an
    empty value, [run_turns] returned the transcript and the two models are
    the same, it does so exactly once, right after [run_turns] returned and
    before [evaluate_turns] starts: what follows in the trace are the events
    of [evaluate_turns].  And it does so in that case only. *)
Theorem run_unloads_once question_id s :
  cache_ok s ->
  exists evs res s',
    run question_id s = (res, s') /\
    trace s' = trace s ++ evs /\
    length (unloads evs) <= 1 /\
    (forall loaded s1,
       load_messages (tick s) = (Ok loaded, s1) ->
       truthy (store s1) loaded = true -> unloads evs = []) /\
    (model (self s) <> judge_model (self s) -> unloads evs = []) /\
    (forall loaded s1 msgs s2,
       load_messages (tick s) = (Ok loaded, s1) ->
       truthy (store s1) loaded = false ->
       run_turns question_id s1 = (Ok msgs, s2) ->
       model (self s) = judge_model (self s) ->
       exists reply evs_judge,
         unloads evs = [EUnload (model (self s)) reply] /\
         trace s' = trace s2 ++ [EUnload (model (self s)) reply] ++ evs_judge /\
         Forall (judge_event (self s')) evs_judge /\
         ((exists e, reply = Raise e /\ evs_judge = [] /\ res = Raise e) \/
          (reply = Ok tt /\
           exists sj,
             trace sj = trace s2 ++ [EUnload (model (self s)) reply] /\
             trace (snd (evaluate_turns msgs sj)) = trace sj ++ evs_judge))) /\
    (unloads evs <> [] ->
     exists loaded s1 msgs s2,
       load_messages (tick s) = (Ok loaded, s1) /\
       truthy (store s1) loaded = false /\
       run_turns question_id s1 = (Ok msgs, s2) /\
       model (self s) = judge_model (self s)).
Proof.
  intros Hcache. rewrite run_unfold.
  destruct (load_messages_frame (tick s))
    as (res1 & s1 & Hload & Htr1 & Hclk1 & Hm1 & Hj1 & Hlen1 & Hpres1 & Hc1 & Hok1).
  rewrite Hload. sstate_in Htr1. sstate_in Hm1. sstate_in Hj1.
  destruct res1 as [loaded|e].
  2:{ exists [], (Raise e), s1. rewrite app_nil_r.
      split; [reflexivity|]. split; [exact Htr1|]. split; [simpl; lia|].
      split; [reflexivity|]. split; [reflexivity|].
      split; [intros ? ? ? ? [=]|]. intros H; contradiction H; reflexivity. }
  specialize (Hc1 loaded eq_refl). specialize (Hok1 Hcache).
  destruct (truthy (store s1) loaded) eqn:Htruth.
  - (* transcripts were loaded *)
    unfold bind at 1. rewrite (load_messages_cached s1 loaded Hc1).
    unfold item at 1, lift.
    destruct (getitem (store s1) loaded question_id) as [msgs|e].
    2:{ exists [], (Raise e), s1. rewrite app_nil_r.
        split; [reflexivity|]. split; [exact Htr1|]. split; [simpl; lia|].
        split; [reflexivity|]. split; [reflexivity|].
        split; [intros ? ? ? ? [= <- <-]; congruence|].
        intros H; contradiction H; reflexivity. }
    cbv zeta.
    rewrite (load_messages_cached (tick s1) loaded Hc1). sstate.
    rewrite Htruth. cbn [negb andb].
    destruct (finish_spec msgs (time_sub (wall (clock s1)) (wall (clock s))) (tick s1))
      as (evs & jres & s2 & res & s' & _ & Hfin & _ & Htr & Hev & _).
    rewrite Hfin. exists evs, res, s'.
    assert (Hnone : unloads evs = [])
      by (eapply unloads_none, judge_events_no_unload, Hev).
    split; [reflexivity|]. split; [rewrite Htr; sstate; congruence|].
    split; [rewrite Hnone; simpl; lia|].
    split; [auto|]. split; [auto|].
    split; [intros ? ? ? ? [= <- <-]; congruence|].
    intros H; contradiction.
  - (* nothing was loaded: the conversation is driven *)
    destruct (run_turns_frame question_id s1)
      as (evs_t & res2 & s2 & f & Hturns & Htr2 & Hnu2 & Hself2 & Hclk2 & Hlen2 & Hpres2).
    rewrite Hturns.
    assert (Hnone2 : unloads evs_t = []) by (apply unloads_none, Hnu2).
    destruct res2 as [msgs|e].
    2:{ exists evs_t, (Raise e), s2.
        split; [reflexivity|]. split; [congruence|].
        split; [rewrite Hnone2; simpl; lia|].
        split; [auto|]. split; [auto|].
        split; [intros ? ? ? ? [= <- <-] _; congruence|].
        intros H; contradiction. }
    cbv zeta.
    assert (Hc2 : _load_messages (self (tick s2)) = Some loaded).
    { sstate. rewrite Hself2. cbn. exact Hc1. }
    rewrite (load_messages_cached (tick s2) loaded Hc2). sstate.
    assert (Htruth2 : truthy (store s2) loaded = false).
    { rewrite <- Htruth. apply truthy_preserved; [|exact Hpres2].
      intros a ->. apply Hok1, Hc1. }
    rewrite Htruth2. cbn [negb andb].
    assert (Hmodel : model (self s2) = model (self s))
      by (rewrite Hself2; cbn; exact Hm1).
    assert (Hjudge : judge_model (self s2) = judge_model (self s))
      by (rewrite Hself2; cbn; exact Hj1).
    rewrite Hmodel, Hjudge.
    destruct (String.eqb (model (self s)) (judge_model (self s))) eqn:Heq.
    + (* the same model judges: unload *)
      apply String.eqb_eq in Heq.
      unfold unload at 1.
      set (reply := client_unload (tick s2) (model (self s))).
      set (s4 := emit (EUnload (model (self s)) reply) (tick s2)).
      destruct reply as [[]|e] eqn:Hreply.
      * destruct (finish_spec msgs (time_sub (wall (clock s2)) (wall (clock s))) s4)
          as (evs & jres & sj & res & s' & Hjudged & Hfin & Htrj & Htr & Hev & Hself & _).
        rewrite Hfin.
        assert (Hnone : unloads evs = [])
          by (eapply unloads_none, judge_events_no_unload, Hev).
        exists (evs_t ++ [EUnload (model (self s)) (Ok tt)] ++ evs), res, s'.
        assert (Htr' : trace s' = trace s2 ++ [EUnload (model (self s)) (Ok tt)] ++ evs).
        { rewrite Htr. subst s4. sstate. rewrite <- app_assoc. reflexivity. }
        assert (Hun : unloads (evs_t ++ [EUnload (model (self s)) (Ok tt)] ++ evs)
                      = [EUnload (model (self s)) (Ok tt)]).
        { rewrite !unloads_app, Hnone2, Hnone. reflexivity. }
        split; [reflexivity|].
        split; [rewrite Htr', Htr2, Htr1, <- app_assoc; reflexivity|].
        split; [rewrite Hun; simpl; lia|].
        split; [intros ? ? [= <- <-]; congruence|].
        split; [intros Hne; contradiction|].
        split.
        { intros l' s1' msgs' s2' [= <- <-] _ Hrt _.
          rewrite Hturns in Hrt. injection Hrt as <- <-.
          exists (Ok tt), evs. split; [exact Hun|]. split; [exact Htr'|].
          split; [rewrite Hself; exact Hev|].
          right. split; [reflexivity|].
          exists (tick s4). split; [subst s4; reflexivity|].
          rewrite Hjudged. sstate. exact Htrj. }
        intros _. exists loaded, s1, msgs, s2. auto.
      * exists (evs_t ++ [EUnload (model (self s)) (Raise e)]), (Raise e), s4.
        assert (Hun : unloads (evs_t ++ [EUnload (model (self s)) (Raise e)])
                      = [EUnload (model (self s)) (Raise e)]).
        { rewrite unloads_app, Hnone2. reflexivity. }
        split; [reflexivity|].
        split; [subst s4; sstate; rewrite Htr2, Htr1, <- app_assoc; reflexivity|].
        split; [rewrite Hun; simpl; lia|].
        split; [intros ? ? [= <- <-]; congruence|].
        split; [intros Hne; contradiction|].
        split.
        { intros l' s1' msgs' s2' [= <- <-] _ Hrt _.
          rewrite Hturns in Hrt. injection Hrt as <- <-.
          exists (Raise e), []. split; [exact Hun|].
          split; [subst s4; reflexivity|].
          split; [constructor|].
          left. exists e. auto. }
        intros _. exists loaded, s1, msgs, s2. auto.
    + (* another model judges *)
      apply String.eqb_neq in Heq.
      destruct (finish_spec msgs (time_sub (wall (clock s2)) (wall (clock s))) (tick s2))
        as (evs & jres & sj & res & s' & _ & Hfin & _ & Htr & Hev & _).
      rewrite Hfin.
      assert (Hnone : unloads evs = [])
        by (eapply unloads_none, judge_events_no_unload, Hev).
      exists (evs_t ++ evs), res, s'.
      assert (Hun : unloads (evs_t ++ evs) = [])
        by (rewrite unloads_app, Hnone2, Hnone; reflexivity).
      split; [reflexivity|].
      split; [rewrite Htr; sstate; rewrite Htr2, Htr1, <- app_assoc; reflexivity|].
      split; [rewrite Hun; simpl; lia|].
      split; [auto|]. split; [auto|].
      split; [intros ? ? ? ? _ _ _ Hsame; contradiction|].
      intros H; contradiction.
Qed.

(** ** Transcripts read from a file *)

Lemma denotes_members_get h ms kvs k j :
  denotes_members h ms kvs -> dict_get ms k = Some j ->
  exists v, dict_get kvs k = Some v /\ denotes h j v.
Proof.
  revert kvs. induction ms as [|[k1 x] r IH]; intros [|[k2 y] kvs] Hd Hg;
    try contradiction; try discriminate.
  destruct Hd as (<- & Hy & Hd). cbn [dict_get] in *.
  destruct (String.eqb k1 k).
  - injection Hg as <-. eauto.
  - eauto.
Qed.

Lemma denotes_turn h j m :
  denotes h j m -> json_turn j -> is_turn m /\ is_system m = json_is_system j.
Proof.
  intros Hd (members & r & c & -> & Hr & Hc).
  destruct m; try contradiction. rewrite denotes_obj in Hd.
  destruct (denotes_members_get _ _ _ _ _ Hd Hr) as (vr & Hvr & Hdr).
  destruct (denotes_members_get _ _ _ _ _ Hd Hc) as (vc & Hvc & Hdc).
  destruct vr; try contradiction. destruct vc; try contradiction.
  cbn in Hdr, Hdc. subst.
  unfold is_turn, is_system, json_is_system, field. cbn [getitem].
  rewrite Hvr, Hvc, Hr. split; [eauto | reflexivity].
Qed.

Lemma denotes_items_length h js vs : denotes_items h js vs -> length vs = length js.
Proof.
  revert vs. induction js as [|x r IH]; intros [|y vs] Hd; try contradiction; auto.
  destruct Hd as [_ Hd]. cbn. f_equal. auto.
Qed.

Lemma denotes_items_lookup h js vs n j :
  denotes_items h js vs -> js !! n = Some j ->
  exists v, vs !! n = Some v /\ denotes h j v.
Proof.
  revert vs n. induction js as [|x r IH]; intros [|y vs] n Hd Hn;
    try contradiction; try discriminate.
  destruct Hd as [Hy Hd]. destruct n as [|n]; cbn in *.
  - injection Hn as <-. eauto.
  - eauto.
Qed.

Lemma denotes_items_index h js vs i j :
  denotes_items h js vs -> index_seq js i = Ok j ->
  exists v, index_seq vs i = Ok v /\ denotes h j v.
Proof.
  intros Hd. unfold index_seq. rewrite (denotes_items_length _ _ _ Hd).
  destruct (_ <? 0)%Z; [discriminate|].
  destruct (js !! _) as [x|] eqn:Hx; [|discriminate].
  intros [= <-].
  destruct (denotes_items_lookup _ _ _ _ _ Hd Hx) as (v & -> & Hv). eauto.
Qed.

Lemma denotes_items_turns h js vs :
  denotes_items h js vs -> Forall json_turn js ->
  Forall is_turn vs /\
  length (without_system vs) = length (json_without_system js).
Proof.
  intros Hd Hf. split.
  - revert vs Hd. induction Hf as [|x r Hx _ IH]; intros [|y vs] Hd;
      try contradiction; constructor.
    + destruct Hd as [Hy _]. eapply denotes_turn; eauto.
    + destruct Hd as [_ Hd]. auto.
  - destruct js as [|x r], vs as [|y vs]; try contradiction; [reflexivity|].
    destruct Hd as [Hy Hd]. apply Forall_cons in Hf as [Hx _].
    destruct (denotes_turn _ _ _ Hy Hx) as [_ Hs].
    unfold without_system, json_without_system. rewrite Hs.
    pose proof (denotes_items_length _ _ _ Hd).
    destruct (json_is_system x); cbn; auto.
Qed.

Lemma turns_are_messages l : Forall is_turn l -> Forall is_message l.
Proof.
  intros H. eapply Forall_impl; [exact H|].
  intros m (r & c & Hr & Hc). exists (VStr r), (VStr c). auto.
Qed.

Lemma turns_renderable t l : renders_strings t -> Forall is_turn l -> renderable t l.
Proof.
  intros Hfmt Hl h p a q a' Hp Ha Hq Ha'.
  rewrite Forall_forall in Hl.
  destruct (Hl p) as (? & c1 & _ & Hc1); [apply list_elem_of_In, Hp|].
  destruct (Hl a) as (? & c2 & _ & Hc2); [apply list_elem_of_In, Ha|].
  assert (q = VStr c1) by congruence. assert (a' = VStr c2) by congruence.
  subst. apply Hfmt.
Qed.

Lemma example_judgement_document :
  json_parse example_judgement =
  Some (JObj [("evaluation", JStr "ok"); ("total_rating", JStr "70");
              ("feedback", JStr "none")]).
Proof. vm_compute. reflexivity. Qed.

Lemma index_seq_nonempty {A} (l : list A) i x : index_seq l i = Ok x -> l <> [].
Proof.
  intros H ->. unfold index_seq in H. destruct (_ <? 0)%Z; discriminate.
Qed.

(** ** More on the conversation driver *)

Lemma turns_loop_driven prompts : forall question_id q m i rs s before,
  store s !! m = Some before ->
  exists evs res s' final,
    turns_loop question_id q (VList m) i prompts rs s = (res, s') /\
    driven (self s) q question_id before i prompts rs evs res final /\
    trace s' = trace s ++ evs /\
    store s' !! m = Some final.
Proof.
  induction prompts as [|prompt rest IH]; intros question_id q m i rs s before Hm.
  - exists [], (Ok rs), s, before. rewrite app_nil_r.
    split; [reflexivity|]. split; [constructor|]. split; [reflexivity | exact Hm].
  - cbn [turns_loop].
    unfold bind at 1. unfold log at 1, modify.
    unfold bind at 1. unfold log at 1, modify.
    set (s1 := emit _ (emit _ s)).
    assert (Htr1 : trace s1 = trace s ++
              [ELog DEBUG "turn #%s" (VInt i); ELog INFO "> %s" (VStr prompt)]).
    { subst s1. sstate. rewrite <- app_assoc. reflexivity. }
    assert (Hm1 : store s1 !! m = Some before) by exact Hm.
    assert (Hmsg :
      (exists e st s2,
          image_urls q = true /\
          get_question_b64_images st question_id = Raise e /\
          (if image_urls q
           then images <- fetch_images question_id;;
                images <- list_new (map VStr images);;
                ret [("role", VStr "user"); ("content", VStr prompt);
                     ("images", images)]
           else ret [("role", VStr "user"); ("content", VStr prompt)]) s1
          = (Raise e, s2) /\
          trace s2 = trace s1 ++ [EGetImages question_id] /\
          store s2 !! m = Some before) \/
      (exists msg s2,
          (if image_urls q
           then images <- fetch_images question_id;;
                images <- list_new (map VStr images);;
                ret [("role", VStr "user"); ("content", VStr prompt);
                     ("images", images)]
           else ret [("role", VStr "user"); ("content", VStr prompt)]) s1
          = (Ok msg, s2) /\
          user_message_of q question_id prompt (VDict msg) /\
          trace s2 = trace s1 ++ images_event q question_id /\
          self s2 = self s /\
          store s2 !! m = Some before)).
    { unfold user_message_of, images_event. destruct (image_urls q).
      - unfold bind at 1 3. unfold fetch_images.
        destruct (get_question_b64_images s1 question_id) as [imgs|e] eqn:Himg.
        + right. unfold bind, list_new, ret. sstate.
          eexists _, _. split; [reflexivity|].
          split; [exists s1, imgs, (length (store s1)); auto|].
          sstate. split; [reflexivity|]. split; [reflexivity|].
          rewrite lookup_app_l; [exact Hm1|]. eapply lookup_lt_Some, Hm1.
        + left. exists e, s1. eexists. split; [reflexivity|].
          split; [exact Himg|]. split; [reflexivity|].
          split; [reflexivity | exact Hm1].
      - right. eexists _, _. split; [reflexivity|]. split; [reflexivity|].
        rewrite app_nil_r. auto. }
    destruct Hmsg as [(e & st & s2 & Hiu & Himg & Hrun1 & Htr2 & Hm2)
                     | (msg & s2 & Hrun1 & Hu & Htr2 & Hself2 & Hm2)].
    { unfold bind at 1. rewrite Hrun1.
      exists [ELog DEBUG "turn #%s" (VInt i); ELog INFO "> %s" (VStr prompt);
              EGetImages question_id], (Raise e), s2, before.
      split; [reflexivity|]. split; [eapply driven_images; eauto|].
      split; [rewrite Htr2, Htr1, <- app_assoc; reflexivity | exact Hm2]. }
    unfold bind at 1. rewrite Hrun1.
    unfold bind at 1. unfold list_append at 1. rewrite Hm2.
    unfold bind at 1. unfold gets at 1. unfold bind at 1. unfold gets at 1.
    unfold bind at 1. unfold chat at 1. sstate.
    set (s3 := set_store _ s2).
    assert (Hm3 : store s3 !! m = Some (before ++ [VDict msg])).
    { subst s3. sstate. eapply lookup_insert_same, Hm2. }
    unfold snapshot.
    change (<[m:=before ++ [VDict msg]]> (store s2)) with (store s3).
    rewrite Hm3. rewrite Hself2.
    destruct (client_chat s3 (model (self s)) (before ++ [VDict msg])
                (ollama_options (self s))) as [r|e] eqn:Hchat.
    2:{ eexists _, (Raise e), _, _. split; [reflexivity|].
        split; [eapply driven_chat; eauto|]. sstate.
        split; [|exact Hm3].
        subst s3. sstate. rewrite Htr2, Htr1, <- !app_assoc. reflexivity. }
    unfold bind at 1. unfold log at 1, modify.
    unfold bind at 1. unfold list_append at 1. sstate. rewrite Hm3.
    set (s5 := set_store _ (emit _ (emit _ s3))).
    assert (Hm5 : store s5 !! m = Some (before ++ [VDict msg; assistant_message r])).
    { subst s5. sstate. rewrite <- app_assoc.
      eapply lookup_insert_same, Hm3. }
    destruct (IH question_id q m (i + 1)%Z (rs ++ [r]) s5 _ Hm5)
      as (evs & res & s' & final & Hrun & Hdriven & Htr & Hfinal).
    eexists _, res, s', final. split; [exact Hrun|].
    split.
    { eapply driven_next; eauto. rewrite <- Hself2. exact Hdriven. }
    split; [|exact Hfinal].
    rewrite Htr. subst s5 s3. sstate. rewrite Htr2, Htr1, <- !app_assoc.
    reflexivity.
Qed.

Lemma driven_same_model t t' q question_id before i prompts rs evs res final :
  model t' = model t -> ollama_options t' = ollama_options t ->
  driven t q question_id before i prompts rs evs res final ->
  driven t' q question_id before i prompts rs evs res final.
Proof.
  intros Hm Ho H. induction H.
  - constructor.
  - eapply driven_images; eauto.
  - unfold subject_call. rewrite <- Hm, <- Ho.
    eapply (driven_chat t'); eauto. rewrite Hm, Ho. eassumption.
  - unfold subject_call. rewrite <- Hm, <- Ho.
    eapply (driven_next t'); eauto. rewrite Hm, Ho. eassumption.
Qed.

(** [run_turns], as a relation: the question is fetched, the transcript
    starts with the system message if one is configured, and the turns are
    driven over the first [max_turns] prompts. *)
Lemma run_turns_driven question_id s :
  (exists e,
      get_question s question_id = Raise e /\
      run_turns question_id s = (Raise e, emit (EGetQuestion question_id) s)) \/
  (exists q evs res s' final,
      get_question s question_id = Ok q /\
      run_turns question_id s =
        (match res with
         | Ok _ => Ok (VList (length (store s)))
         | Raise e => Raise e
         end, s') /\
      driven (self s) q question_id (opening (self s)) 0
        (slice_to (turns q) (max_turns (self s))) [] evs res final /\
      trace s' = trace s ++ EGetQuestion question_id :: evs /\
      store s' !! length (store s) = Some final).
Proof.
  destruct (get_question s question_id) as [q|e] eqn:Hq; [right | left].
  2:{ exists e. split; [reflexivity|].
      unfold run_turns, bind, fetch_question. rewrite Hq. reflexivity. }
  exists q. unfold run_turns.
  unfold bind at 1. unfold fetch_question at 1. rewrite Hq.
  unfold bind at 1. unfold list_new at 1. sstate.
  set (m := length (store s)).
  set (s1 := set_store (store s ++ [[]]) (emit (EGetQuestion question_id) s)).
  assert (Hm1 : store s1 !! m = Some []) by apply lookup_snoc.
  unfold bind at 1. unfold gets at 1.
  assert (Hsp : exists s2,
             (match system_prompt (self s1) with
              | Some _ =>
                  text <- read_system_prompt;;
                  list_append (VList m)
                    (VDict [("role", VStr "system"); ("content", VStr text)])
              | None => ret tt
              end) s1 = (Ok tt, s2) /\
             trace s2 = trace s1 /\
             model (self s2) = model (self s) /\
             ollama_options (self s2) = ollama_options (self s) /\
             max_turns (self s2) = max_turns (self s) /\
             store s2 !! m = Some (opening (self s))).
  { unfold opening. change (self s1) with (self s).
    destruct (system_prompt (self s)) as [text|] eqn:Hs.
    - unfold bind at 1. unfold read_system_prompt at 1.
      change (self s1) with (self s). rewrite Hs.
      unfold list_append. sstate. rewrite Hm1.
      eexists. split; [reflexivity|]. sstate.
      repeat (split; [reflexivity|]).
      eapply lookup_insert_same, Hm1.
    - exists s1. repeat (split; [reflexivity|]). exact Hm1. }
  destruct Hsp as (s2 & Hrun2 & Htr2 & Hmod2 & Hopt2 & Hmax2 & Hm2).
  unfold bind at 1. rewrite Hrun2.
  unfold bind at 1. unfold gets at 1. unfold bind at 1. rewrite Hmax2.
  destruct (turns_loop_driven (slice_to (turns q) (max_turns (self s)))
              question_id q m 0%Z [] s2 _ Hm2)
    as (evs & res & s' & final & Hrun & Hdriven & Htr & Hfinal).
  rewrite Hrun. exists evs, res, s', final.
  split; [reflexivity|].
  split; [destruct res; reflexivity|].
  split; [eapply driven_same_model; [| |exact Hdriven]; auto|].
  split; [|exact Hfinal].
  rewrite Htr, Htr2. subst s1. sstate. rewrite <- app_assoc. reflexivity.
Qed.

Lemma user_message_fields q question_id prompt u :
  user_message_of q question_id prompt u ->
  field u "role" = Ok (VStr "user") /\ field u "content" = Ok (VStr prompt).
Proof.
  unfold user_message_of. destruct (image_urls q).
  - intros (st & imgs & a & _ & ->). split; reflexivity.
  - intros ->. split; reflexivity.
Qed.

Lemma chats_app evs1 evs2 : chats (evs1 ++ evs2) = chats evs1 ++ chats evs2.
Proof. apply List.filter_app. Qed.

Lemma chats_images q question_id : chats (images_event q question_id) = [].
Proof. unfold images_event. destruct (image_urls q); reflexivity. Qed.

(** The transcript only grows. *)
Lemma driven_extends t q question_id before i prompts rs evs res final :
  driven t q question_id before i prompts rs evs res final ->
  exists ext, final = before ++ ext.
Proof.
  induction 1.
  - exists []. rewrite app_nil_r. reflexivity.
  - exists []. rewrite app_nil_r. reflexivity.
  - eauto.
  - destruct IHdriven as [ext ->]. rewrite <- app_assoc. eauto.
Qed.

(** The i-th call carries the transcript up to the i-th prompt. *)
Lemma driven_calls t q question_id before i prompts rs evs res final :
  driven t q question_id before i prompts rs evs res final ->
  forall n ev, chats evs !! n = Some ev ->
    exists reply,
      ev = subject_call t (firstn (length before + 2 * n + 1) final) reply.
Proof.
  induction 1; intros n ev Hn; try discriminate.
  - rewrite !chats_app, chats_images in Hn. cbn in Hn.
    destruct n as [|n]; [|discriminate]. injection Hn as <-.
    exists (Raise e). f_equal.
    replace (length before + 2 * 0 + 1) with (length (before ++ [u]))
      by (rewrite length_app; simpl; lia).
    rewrite firstn_all. reflexivity.
  - rewrite !chats_app, chats_images in Hn. cbn in Hn.
    destruct (driven_extends _ _ _ _ _ _ _ _ _ _ H1) as [ext ->].
    destruct n as [|n].
    + injection Hn as <-. exists (Ok r). f_equal.
      replace (before ++ [u; assistant_message r]) with
        ((before ++ [u]) ++ [assistant_message r]) by (rewrite <- app_assoc; reflexivity).
      rewrite <- app_assoc.
      replace (length before + 2 * 0 + 1) with (length (before ++ [u]) + 0)
        by (rewrite length_app; simpl; lia).
      rewrite firstn_app_2. cbn. rewrite app_nil_r. reflexivity.
    + destruct (IHdriven n ev Hn) as [reply ->]. exists reply.
      f_equal. f_equal. rewrite length_app. simpl. lia.
Qed.

(** A failed call is the last event and the outcome. *)
Lemma driven_failures_last t q question_id before i prompts rs evs res final :
  driven t q question_id before i prompts rs evs res final ->
  failures_last evs res.
Proof.
  induction 1; intros n to ms o e' Hn.
  - discriminate.
  - do 3 (destruct n as [|n]; [discriminate|]). discriminate.
  - do 2 (destruct n as [|n]; [discriminate|]). cbn [app lookup list_lookup] in Hn.
    unfold images_event in *. destruct (image_urls q); cbn in Hn |- *.
    + destruct n as [|n]; [discriminate|].
      destruct n as [|n]; [|discriminate]. injection Hn as <- <- <- <-. auto.
    + destruct n as [|n]; [|discriminate]. injection Hn as <- <- <- <-. auto.
  - do 2 (destruct n as [|n]; [discriminate|]). cbn [app lookup list_lookup] in Hn.
    unfold images_event in *. destruct (image_urls q); cbn in Hn |- *.
    + do 3 (destruct n as [|n]; [discriminate|]).
      destruct (IHdriven n to ms o e' Hn) as [Hl ->]. split; [lia | reflexivity].
    + do 2 (destruct n as [|n]; [discriminate|]).
      destruct (IHdriven n to ms o e' Hn) as [Hl ->]. split; [lia | reflexivity].
Qed.

(** When the client answers and the images can be fetched, every prompt
    gets its turn. *)
Lemma driven_complete t q question_id before i prompts rs evs res final :
  driven t q question_id before i prompts rs evs res final ->
  client_answers -> images_available question_id q ->
  exists replies,
    res = Ok (rs ++ replies) /\
    length replies = length prompts /\
    length (chats evs) = length prompts /\
    length final = length before + 2 * length prompts /\
    forall n prompt, prompts !! n = Some prompt ->
      exists u r,
        final !! (length before + 2 * n) = Some u /\
        field u "role" = Ok (VStr "user") /\
        field u "content" = Ok (VStr prompt) /\
        final !! (length before + 2 * n + 1) = Some (assistant_message r) /\
        replies !! n = Some r.
Proof.
  induction 1; intros Hchat Himg.
  - exists []. rewrite app_nil_r. repeat split; auto. intros n p [=].
  - destruct (Himg H st) as [imgs Hi]. congruence.
  - destruct (Hchat st (model t) (before ++ [u]) (ollama_options t)) as [r Hr].
    congruence.
  - destruct (IHdriven Hchat Himg) as (replies & -> & Hlen & Hcalls & Hfinal & Hall).
    exists (r :: replies). rewrite <- app_assoc.
    split; [reflexivity|]. split; [simpl; lia|].
    split; [rewrite !chats_app, chats_images; cbn; rewrite Hcalls; reflexivity|].
    split; [rewrite Hfinal, length_app; simpl; lia|].
    destruct (driven_extends _ _ _ _ _ _ _ _ _ _ H1) as [ext Hext].
    destruct (user_message_fields _ _ _ _ H) as [Hrole Hcontent].
    intros [|n] p Hp.
    + injection Hp as <-. exists u, r.
      subst final. rewrite <- !app_assoc.
      split; [|split; [exact Hrole|split; [exact Hcontent|split; [|reflexivity]]]].
      * rewrite lookup_app_r by lia.
        replace (length before + 2 * 0 - length before) with 0 by lia. reflexivity.
      * rewrite lookup_app_r by lia.
        replace (length before + 2 * 0 + 1 - length before) with 1 by lia.
        reflexivity.
    + destruct (Hall n p Hp) as (u' & r' & Hu & Hr' & Hc' & Ha & Hrep).
      exists u', r'. rewrite length_app in Hu, Ha. cbn [length] in Hu, Ha.
      replace (length before + 2 * S n) with (length before + 2 + 2 * n) by lia.
      repeat split; auto.
Qed.

Lemma slice_to_length {A} (l : list A) (k : Z) :
  Z.of_nat (length (slice_to l k)) =
  if (k <? 0)%Z then Z.max 0 (Z.of_nat (length l) + k)
  else Z.min k (Z.of_nat (length l)).
Proof.
  unfold slice_to. destruct (k <? 0)%Z eqn:Hk; rewrite length_take; lia.
Qed.

(** The responses are the replies the client gave to the calls, as
    recorded, in order, and each is the content of the assistant message of
    its turn. *)
Lemma driven_replies t q question_id before i prompts rs evs res final :
  driven t q question_id before i prompts rs evs res final ->
  forall out, res = Ok out ->
  exists replies, out = rs ++ replies /\
    forall n r, replies !! n = Some r ->
      (exists st,
         client_chat st (model t) (firstn (length before + 2 * n + 1) final)
           (ollama_options t) = Ok r) /\
      chats evs !! n
        = Some (subject_call t (firstn (length before + 2 * n + 1) final) (Ok r)) /\
      final !! (length before + 2 * n + 1) = Some (assistant_message r).
Proof.
  induction 1; intros out Hout; try discriminate.
  - injection Hout as <-. exists []. rewrite app_nil_r.
    split; [reflexivity|]. intros n r [=].
  - destruct (IHdriven out Hout) as (replies & -> & Hall).
    exists (r :: replies). rewrite <- app_assoc. split; [reflexivity|].
    destruct (driven_extends _ _ _ _ _ _ _ _ _ _ H1) as [ext Hext].
    intros [|n] r' Hn.
    + injection Hn as <-. rewrite !chats_app, chats_images. cbn.
      subst final.
      assert (Hsent : firstn (length before + 0 + 1)
                        ((before ++ [u; assistant_message r]) ++ ext)
                      = before ++ [u]).
      { replace (before ++ [u; assistant_message r]) with
          ((before ++ [u]) ++ [assistant_message r])
          by (rewrite <- app_assoc; reflexivity).
        rewrite <- app_assoc.
        replace (length before + 0 + 1) with (length (before ++ [u]) + 0)
          by (rewrite length_app; simpl; lia).
        rewrite firstn_app_2. cbn. rewrite app_nil_r. reflexivity. }
      rewrite Hsent. split; [exists st; exact H0|]. split; [reflexivity|].
      rewrite <- !app_assoc. rewrite lookup_app_r by lia.
      replace (length before + 0 + 1 - length before) with 1 by lia.
      reflexivity.
    + destruct (Hall n r' Hn) as (Hclient & Hc & Hf).
      rewrite !chats_app, chats_images. cbn.
      rewrite length_app in Hclient, Hc, Hf. cbn [length] in Hclient, Hc, Hf.
      replace (length before + S (n + S (n + 0)) + 1)
        with (length before + 2 + 2 * n + 1) by lia.
      split; [exact Hclient|]. split; [exact Hc | exact Hf].
Qed.

(** X1.  When the question is known, the client answers and the images can
    be fetched, [run_turns] returns a new list that holds the system message,
    if a system prompt is configured, and then one user message and one
    assistant message per prompt among the first [max_turns] prompts of the
    question, in order.  One call is made per prompt: the user message of
    the n-th turn carries the n-th prompt, the n-th call carries the
    transcript up to that message, and the assistant message that follows
    carries the content of the reply the client gave to that call.  A
    negative [max_turns] counts from the end, as Python slices do. *)
Theorem run_turns_transcript question_id q s :
  get_question s question_id = Ok q ->
  images_available question_id q ->
  client_answers ->
  let prompts := slice_to (turns q) (max_turns (self s)) in
  let off := length (opening (self s)) in
  exists evs replies s' final,
    run_turns question_id s = (Ok (VList (length (store s))), s') /\
    trace s' = trace s ++ evs /\
    store s' !! length (store s) = Some final /\
    firstn off final = opening (self s) /\
    length final = off + 2 * length prompts /\
    length replies = length prompts /\
    length (chats evs) = length prompts /\
    Z.of_nat (length prompts) =
      (if (max_turns (self s) <? 0)%Z
       then Z.max 0 (Z.of_nat (length (turns q)) + max_turns (self s))
       else Z.min (max_turns (self s)) (Z.of_nat (length (turns q)))) /\
    forall n prompt, prompts !! n = Some prompt ->
      exists u r,
        final !! (off + 2 * n) = Some u /\
        field u "role" = Ok (VStr "user") /\
        field u "content" = Ok (VStr prompt) /\
        (exists st,
           client_chat st (model (self s)) (firstn (off + 2 * n + 1) final)
             (ollama_options (self s)) = Ok r) /\
        chats evs !! n
          = Some (EChat (model (self s)) (firstn (off + 2 * n + 1) final)
                    (ollama_options (self s)) (Ok r)) /\
        final !! (off + 2 * n + 1)
          = Some (VDict [("role", VStr "assistant");
                         ("content", VStr (content (message r)))]) /\
        replies !! n = Some r.
Proof.
  intros Hq Himg Hchat prompts off.
  destruct (run_turns_driven question_id s)
    as [(e & He & _) | (q' & evs & res & s' & final & Hq' & Hrun & Hdriven & Htr & Hfinal)];
    [congruence|].
  assert (q' = q) by congruence. subst q'.
  destruct (driven_complete _ _ _ _ _ _ _ _ _ _ Hdriven Hchat Himg)
    as (replies & -> & Hlen & Hcalls & Hlfinal & Hall).
  destruct (driven_replies _ _ _ _ _ _ _ _ _ _ Hdriven _ eq_refl)
    as (replies' & Heq & Hrec).
  cbn [app] in Heq. subst replies'.
  destruct (driven_extends _ _ _ _ _ _ _ _ _ _ Hdriven) as [ext Hext].
  exists (EGetQuestion question_id :: evs), replies, s', final.
  split; [exact Hrun|]. split; [exact Htr|]. split; [exact Hfinal|].
  split; [subst final off; rewrite firstn_app, firstn_all, Nat.sub_diag;
          cbn; apply app_nil_r|].
  split; [exact Hlfinal|]. split; [exact Hlen|]. split; [exact Hcalls|].
  split; [apply slice_to_length|].
  intros n prompt Hn.
  destruct (Hall n prompt Hn) as (u & r & Hu & Hrole & Hcontent & _ & Hr).
  destruct (Hrec n r Hr) as (Hclient & Hcall & Hassistant).
  exists u, r.
  split; [exact Hu|]. split; [exact Hrole|]. split; [exact Hcontent|].
  split; [exact Hclient|].
  split; [exact Hcall|]. split; [exact Hassistant | exact Hr].
Qed.

(** X2.  Every call [run_turns] makes goes to the subject model with the
    general options and carries the transcript so far: the opening and the
    turns before it, ending with the user message of its own turn. *)
Theorem run_turns_sends_transcript_so_far question_id s :
  exists evs,
    trace (snd (run_turns question_id s)) = trace s ++ evs /\
    forall n ev, chats evs !! n = Some ev ->
      exists final reply,
        store (snd (run_turns question_id s)) !! length (store s) = Some final /\
        ev = EChat (model (self s))
               (firstn (length (opening (self s)) + 2 * n + 1) final)
               (ollama_options (self s)) reply.
Proof.
  destruct (run_turns_driven question_id s)
    as [(e & He & ->) | (q & evs & res & s' & final & Hq & -> & Hdriven & Htr & Hfinal)].
  - exists [EGetQuestion question_id]. split; [reflexivity|].
    intros [|n] ev [=].
  - exists (EGetQuestion question_id :: evs). split; [exact Htr|].
    intros n ev Hn. cbn in Hn.
    destruct (driven_calls _ _ _ _ _ _ _ _ _ _ Hdriven n ev Hn) as [reply ->].
    exists final, reply. split; [exact Hfinal | reflexivity].
Qed.

(** X3.  [run_turns] does not go on after a failed call: in its trace, a
    call that the client failed is the last event, and its exception is
    what [run_turns] raises. *)
Theorem run_turns_stops_at_failure question_id s :
  exists evs,
    trace (snd (run_turns question_id s)) = trace s ++ evs /\
    failures_last evs (fst (run_turns question_id s)).
Proof.
  destruct (run_turns_driven question_id s)
    as [(e & He & ->) | (q & evs & res & s' & final & Hq & -> & Hdriven & Htr & Hfinal)].
  - exists [EGetQuestion question_id]. split; [reflexivity|].
    intros [|[|n]] to ms o e' [=].
  - exists (EGetQuestion question_id :: evs). split; [exact Htr|].
    intros [|n] to ms o e' Hn; [discriminate|]. cbn in Hn.
    destruct (driven_failures_last _ _ _ _ _ _ _ _ _ _ Hdriven n to ms o e' Hn)
      as [Hl ->].
    split; [simpl; lia | reflexivity].
Qed.

Lemma rounds_failures_last t l js evs res :
  rounds t l js evs res -> failures_last evs res.
Proof.
  induction 1; intros n to ms o e' Hn; try discriminate.
  - do 2 (destruct n as [|n]; [discriminate|]).
    destruct n as [|n]; [|discriminate]. injection Hn as <- <- <- <-. auto.
  - do 4 (destruct n as [|n]; [discriminate|]).
    destruct (IHrounds n to ms o e' Hn) as [Hl ->]. split; [simpl; lia | reflexivity].
Qed.

(** X4.  [evaluate_turns] does not go on after a failed call either: a
    call that the judge failed is the last event of its trace, and its
    exception is what [evaluate_turns] raises. *)
Theorem evaluate_turns_stops_at_failure v s :
  exists evs,
    trace (snd (evaluate_turns v s)) = trace s ++ evs /\
    failures_last evs (fst (evaluate_turns v s)).
Proof.
  destruct v as [| | | | | | |a].
  8: destruct (store s !! a) as [msgs|] eqn:Ha.
  8: { destruct (evaluate_turns_list a msgs s Ha)
         as (evs & res & s' & Hrun & Hshape & Htr & _).
       exists evs. rewrite Hrun. split; [exact Htr|].
       destruct Hshape as [Hr | [-> _]];
         [eapply rounds_failures_last, Hr | intros n to ms o e [=]]. }
  all: match goal with
       | |- context [evaluate_turns ?v ?s0] =>
           destruct (evaluate_turns_not_list v s0) as [res Hres];
           [intros ? [=]; subst; auto|];
           exists []; rewrite Hres, app_nil_r; split; [reflexivity|];
           intros n to ms o e [=]
       end.
Qed.

(** ** Tasks *)

(** X5.  When the transcripts file holds a list that is not empty,
    [get_tasks_kwargs] gives one task per transcript, numbered from 0, and
    the keyword arguments of every task are the same: [question_id] is 0, so
    that every task runs the transcript at position 0.  No call is made. *)
Theorem get_tasks_kwargs_replay s text docs :
  _load_messages (self s) = None ->
  load_messages_file (self s) = Some text ->
  json_parse text = Some (JArr docs) ->
  docs <> [] ->
  exists tasks s',
    get_tasks_kwargs s = (Ok tasks, s') /\
    length tasks = length docs /\
    (forall i, i < length docs ->
       tasks !! i = Some (VInt (Z.of_nat i), [("question_id", VInt 0)])) /\
    trace s' = trace s.
Proof.
  intros Hc Hf Hj Hne. unfold get_tasks_kwargs.
  unfold bind at 1. rewrite (load_messages_parsed s text (JArr docs) Hc Hf Hj).
  destruct (materialize_spec (JArr docs) (store s)) as (ext & Hs & Hd).
  destruct (materialize (JArr docs) (store s)) as [v h]. cbn [fst snd] in *. subst h.
  destruct v as [| | | | | | |a]; try contradiction.
  rewrite denotes_arr in Hd. destruct Hd as (vs & Hl & Hvs).
  pose proof (denotes_items_length _ _ _ Hvs) as Hlen.
  set (s1 := loaded_state s (VList a) (store s ++ ext)).
  assert (Hl1 : store s1 !! a = Some vs) by exact Hl.
  unfold bind at 1. unfold truth at 1, gets. cbn [truthy]. rewrite Hl1.
  destruct vs as [|x vs]; [destruct docs; [contradiction | discriminate]|].
  cbn [nonempty].
  unfold bind at 1. rewrite (load_messages_cached s1 (VList a) eq_refl).
  unfold bind at 1. unfold iterate. rewrite Hl1.
  eexists _, s1. split; [reflexivity|].
  split; [rewrite length_imap; exact Hlen|].
  split; [|reflexivity].
  intros i Hi. rewrite list_lookup_imap.
  destruct ((x :: vs) !! i) eqn:Hx; [reflexivity|].
  apply lookup_ge_None in Hx. lia.
Qed.

(** X6.  When the transcripts file holds an empty value, the only task is
    the configured question, with itself as [question_id]; without a
    transcripts file [get_tasks_kwargs] raises [AttributeError], as [run]
    does. *)
Theorem get_tasks_kwargs_question s :
  _load_messages (self s) = None ->
  (forall text j,
     load_messages_file (self s) = Some text ->
     json_parse text = Some j -> json_truthy j = false ->
     exists s',
       get_tasks_kwargs s =
         (Ok [(question (self s), [("question_id", question (self s))])], s') /\
       trace s' = trace s) /\
  (load_messages_file (self s) = None ->
   get_tasks_kwargs s = (Raise AttributeError, s)).
Proof.
  intros Hc. split.
  - intros text j Hf Hj Ht. unfold get_tasks_kwargs.
    unfold bind at 1. rewrite (load_messages_parsed s text j Hc Hf Hj).
    destruct (materialize_spec j (store s)) as (ext & Hs & Hd).
    destruct (materialize j (store s)) as [v h]. cbn [fst snd] in *. subst h.
    unfold bind at 1. unfold truth at 1, gets. unfold loaded_state at 1. sstate.
    rewrite (denotes_truthy _ _ _ Hd), Ht.
    eexists. split; reflexivity.
  - intros Hf. unfold get_tasks_kwargs. unfold bind at 1.
    rewrite (load_messages_no_file s Hc Hf). reflexivity.
Qed.

(** ** More on the cached property and on [check_config] *)

(** X7.  The transcripts are loaded once: after an access that returned
    them, every access returns the same object and changes nothing. *)
Theorem load_messages_once s v s1 :
  load_messages s = (Ok v, s1) ->
  load_messages s1 = (Ok v, s1).
Proof.
  intros H. destruct (load_messages_frame s) as (res & s' & Hrun & _ & _ & _ & _ & _ & _ & Hc & _).
  rewrite H in Hrun. injection Hrun as <- <-.
  apply load_messages_cached, Hc. reflexivity.
Qed.

(** X8.  A transcripts file that is not a JSON document is a configuration
    error at every access: the first one reads the file to its end and
    caches nothing, and the next ones find nothing left to read. *)
Theorem load_messages_invalid_again s text :
  _load_messages (self s) = None ->
  load_messages_file (self s) = Some text ->
  json_parse text = None ->
  exists s1,
    load_messages s = (Raise (ConfigurationError InvalidJSONMessagesFile), s1) /\
    load_messages s1 = (Raise (ConfigurationError InvalidJSONMessagesFile), s1) /\
    trace s1 = trace s.
Proof.
  intros Hc Hf Hj.
  set (s1 := set_self (set_load_messages_file (Some "") (self s)) s).
  exists s1.
  split; [apply (load_messages_invalid s text Hc Hf Hj)|].
  split; [|reflexivity].
  assert (Hc1 : _load_messages (self s1) = None) by exact Hc.
  assert (Hf1 : load_messages_file (self s1) = Some "") by reflexivity.
  rewrite (load_messages_invalid s1 "" Hc1 Hf1 eq_refl).
  subst s1. destruct s as [[] ? ? ?]. reflexivity.
Qed.

(** X9.  With both markers in the judge prompt, [check_config] rejects a
    transcripts file that is not a JSON document and one whose document is
    empty ([[]], [{}], [null], [0], an empty string, [false]). *)
Theorem check_config_rejects_source s text :
  contains "{question}" (judge_prompt (self s)) = true ->
  contains "{answer}" (judge_prompt (self s)) = true ->
  _load_messages (self s) = None ->
  load_messages_file (self s) = Some text ->
  (json_parse text = None ->
   exists s',
     check_config s = (Raise (ConfigurationError InvalidJSONMessagesFile), s')) /\
  (forall j, json_parse text = Some j -> json_truthy j = false ->
   exists s',
     check_config s = (Raise (ConfigurationError NoLoadedMessages), s')).
Proof.
  intros Hq Ha Hc Hf. rewrite check_config_unfold, Hq, Ha, Hf. cbn [negb]. split.
  - intros Hj. rewrite (load_messages_invalid s text Hc Hf Hj). eauto.
  - intros j Hj Ht. rewrite (load_messages_parsed s text j Hc Hf Hj).
    destruct (materialize_spec j (store s)) as (ext & Hs & Hd).
    destruct (materialize j (store s)) as [v h]. cbn [fst snd] in *. subst h.
    unfold loaded_state. sstate. rewrite (denotes_truthy _ _ _ Hd), Ht. eauto.
Qed.

(** X10.  [check_config] makes no call and reads no clock, whatever the
    configuration and whatever its outcome. *)
Theorem check_config_is_silent s :
  trace (snd (check_config s)) = trace s /\
  clock (snd (check_config s)) = clock s.
Proof.
  rewrite check_config_unfold.
  destruct (negb (contains "{question}" (judge_prompt (self s)))); [auto|].
  destruct (negb (contains "{answer}" (judge_prompt (self s)))); [auto|].
  destruct (load_messages_file (self s)); [|auto].
  destruct (load_messages_frame s) as (res & s' & Hrun & Htr & Hclk & _).
  rewrite Hrun. destruct res as [v|e]; [|auto].
  destruct (negb (truthy (store s') v)); auto.
Qed.

(** ** More on [run] *)




(** X12.  An empty transcript, and one that only holds a system message,
    are judged without any call: [evaluate_turns] returns no response. *)
Theorem evaluate_turns_nothing_to_judge a msgs s :
  store s !! a = Some msgs ->
  without_system msgs = [] ->
  exists s',
    evaluate_turns (VList a) s = (Ok [], s') /\ trace s' = trace s.
Proof.
  intros Ha Hws.
  destruct (evaluate_turns_list a msgs s Ha)
    as (evs & res & s' & Hrun & Hshape & Htr & _).
  destruct Hshape as [Hr | (_ & m & rest & e & -> & He & _)].
  - rewrite Hws in Hr. inversion Hr; subst.
    exists s'. rewrite app_nil_r in Htr. auto.
  - unfold without_system, is_system in Hws. rewrite He in Hws. discriminate.
Qed.

(** X13.  A tester built without a judge prompt, or with an empty one, gets
    the default prompt, which passes [check_config]. *)
Theorem default_judge_prompt_is_valid jm sp jsp jp o q mt bm bo :
  jp = None \/ jp = Some "" ->
  let s := initial (__init__ jm sp jsp jp o q mt None bm bo) in
  judge_prompt (self s) = JUDGE_PROMPT /\ check_config s = (Ok tt, s).
Proof.
  intros [-> | ->]; split; try reflexivity;
    rewrite check_config_unfold; vm_compute; reflexivity.
Qed.

Lemma index_seq_same_length {A B} (l : list A) (l' : list B) i e :
  length l' = length l -> index_seq l i = Raise e -> index_seq l' i = Raise e.
Proof.
  intros Hlen. unfold index_seq. rewrite Hlen.
  set (j := if (i <? 0)%Z then (i + Z.of_nat (length l))%Z else i).
  destruct (j <? 0)%Z; [intros [= <-]; reflexivity|].
  destruct (l !! Z.to_nat j) eqn:Hl; [intros [=]|].
  intros [= <-]. apply lookup_ge_None in Hl.
  rewrite (proj2 (lookup_ge_None l' (Z.to_nat j))); [reflexivity | lia].
Qed.

(** X14.  With a list of transcripts loaded, the run of an index outside
    the list raises [IndexError] before any call is made. *)
Theorem run_index_out_of_range s text docs i :
  _load_messages (self s) = None ->
  load_messages_file (self s) = Some text ->
  json_parse text = Some (JArr docs) ->
  docs <> [] ->
  index_seq docs i = Raise IndexError ->
  exists s', run (VInt i) s = (Raise IndexError, s') /\ trace s' = trace s.
Proof.
  intros Hc Hf Hj Hne Hi. rewrite run_unfold.
  rewrite (load_messages_parsed (tick s) text (JArr docs) Hc Hf Hj).
  change (store (tick s)) with (store s).
  destruct (materialize_spec (JArr docs) (store s)) as (ext & Hs & Hd).
  destruct (materialize (JArr docs) (store s)) as [v h]. cbn [fst snd] in *. subst h.
  destruct v as [| | | | | | |a]; try contradiction.
  rewrite denotes_arr in Hd. destruct Hd as (vs & Hl & Hvs).
  pose proof (denotes_items_length _ _ _ Hvs) as Hlen.
  set (s1 := loaded_state (tick s) (VList a) (store s ++ ext)).
  assert (Hl1 : store s1 !! a = Some vs) by exact Hl.
  assert (Htruth : truthy (store s1) (VList a) = true).
  { cbn [truthy]. rewrite Hl1.
    destruct vs; [destruct docs; [contradiction | discriminate] | reflexivity]. }
  rewrite Htruth. unfold bind at 1.
  rewrite (load_messages_cached s1 (VList a) eq_refl).
  unfold item, lift. cbn [getitem as_index]. rewrite Hl1.
  rewrite (index_seq_same_length docs vs i IndexError Hlen Hi).
  exists s1. split; reflexivity.
Qed.

Lemma opening_turns t : Forall is_turn (opening t).
Proof.
  unfold opening. destruct (system_prompt t) as [text|]; repeat constructor.
  exists "system", text. split; reflexivity.
Qed.

Lemma driven_final_turns t q question_id before i prompts rs evs res final :
  driven t q question_id before i prompts rs evs res final ->
  Forall is_turn before -> Forall is_turn final.
Proof.
  assert (Huser : forall prompt u, user_message_of q question_id prompt u -> is_turn u).
  { intros prompt u Hu. destruct (user_message_fields _ _ _ _ Hu). exists "user", prompt. auto. }
  induction 1; intros Hb; auto.
  - apply Forall_app_2; [exact Hb|]. repeat constructor. eauto.
  - apply IHdriven. apply Forall_app_2; [exact Hb|]. repeat constructor; [eauto|].
    exists "assistant", (content (message r)). split; reflexivity.
Qed.

(** A transcript built by [run_turns] pairs up: without its system message
    it holds two messages per turn. *)
Lemma driven_pairs_up t q question_id prompts evs replies final :
  driven t q question_id (opening t) 0 prompts [] evs (Ok replies) final ->
  client_answers -> images_available question_id q ->
  length (without_system final) = 2 * length prompts.
Proof.
  intros Hd Hchat Himg.
  destruct (driven_complete _ _ _ _ _ _ _ _ _ _ Hd Hchat Himg)
    as (replies' & _ & _ & _ & Hlen & Hall).
  destruct (driven_extends _ _ _ _ _ _ _ _ _ _ Hd) as [ext Hext].
  unfold opening in *. destruct (system_prompt t) as [text|].
  - subst final. cbn in Hlen |- *. lia.
  - cbn in Hext, Hlen, Hall. subst final.
    destruct prompts as [|p rest].
    + destruct ext; [reflexivity | cbn in Hlen; lia].
    + destruct (Hall 0 p eq_refl) as (u & r & Hu & Hrole & _).
      destruct ext as [|x ext]; [discriminate|]. cbn in Hu. injection Hu as ->.
      unfold without_system, is_system. rewrite Hrole. cbn [equals_str String.eqb].
      exact Hlen.
Qed.

Lemma renders_strings_same t t' :
  judge_prompt t' = judge_prompt t ->
  ollama_judge_options t' = ollama_judge_options t ->
  renders_strings t -> renders_strings t'.
Proof.
  intros Hp Ho H h q a. unfold judge_kwargs. rewrite Hp, Ho. apply H.
Qed.

Lemma rounds_counts t l js evs res :
  rounds t l js evs res ->
  2 * length (chats evs) <= length l /\
  forall rs, res = Ok rs ->
    length rs = length js + length (chats evs) /\
    2 * length (chats evs) = length l.
Proof.
  induction 1; cbn [chats List.filter is_chat judge_call length];
    try solve [split; [lia | intros rs' [=]]].
  - split; [lia|]. intros rs' [= <-]. lia.
  - fold (chats evs). destruct IHrounds as [Hle Hok]. split; [lia|].
    intros rs' Hrs. destruct (Hok rs' Hrs) as [Hl He].
    rewrite length_app in Hl. simpl in Hl. lia.
Qed.

(** X16.  Whatever the judge and the formatter do, [evaluate_turns] calls
    the judge at most once per pair of messages; and it only returns when
    the transcript, without its system message, held an even number of
    messages, every pair was judged, and there is one response per call. *)
Theorem evaluate_turns_one_call_per_pair a msgs s :
  store s !! a = Some msgs ->
  exists evs,
    trace (snd (evaluate_turns (VList a) s)) = trace s ++ evs /\
    2 * length (chats evs) <= length (without_system msgs) /\
    forall rs, fst (evaluate_turns (VList a) s) = Ok rs ->
      length rs = length (chats evs) /\
      2 * length rs = length (without_system msgs).
Proof.
  intros Ha.
  destruct (evaluate_turns_list a msgs s Ha)
    as (evs & res & s' & Hrun & Hshape & Htr & _).
  exists evs. rewrite Hrun. split; [exact Htr|].
  destruct Hshape as [Hr | (-> & m & rest & e & -> & He & ->)].
  - destruct (rounds_counts _ _ _ _ _ Hr) as [Hle Hok]. split; [exact Hle|].
    intros rs Hrs. destruct (Hok rs Hrs) as [Hl He]. simpl in Hl. lia.
  - split; [simpl; lia | intros rs [=]].
Qed.

Lemma failures_last_nil {A} (res : result A) : failures_last [] res.
Proof. intros i to ms o e [=]. Qed.

Lemma failures_last_raise {A B} evs e :
  failures_last evs (@Raise A e) -> failures_last evs (@Raise B e).
Proof.
  intros H i to ms o e' Hi. destruct (H i to ms o e' Hi) as [Hl [= ->]].
  split; [exact Hl | reflexivity].
Qed.

(** X17.  [run] swallows no failure of a model call: in the trace of a
    run, a call that the client failed, to the subject model or to the judge,
    is the last event, and its exception is what [run] raises. *)
Theorem run_stops_at_failure question_id s :
  exists evs,
    trace (snd (run question_id s)) = trace s ++ evs /\
    failures_last evs (fst (run question_id s)).
Proof.
  rewrite run_unfold.
  destruct (load_messages_frame (tick s)) as (res1 & s1 & Hl1 & Htr1 & _).
  rewrite Hl1. sstate_in Htr1.
  destruct res1 as [loaded|e];
    [|exists []; rewrite app_nil_r; split; [exact Htr1 | apply failures_last_nil]].
  (* the transcript is obtained *)
  assert (Hobtain : exists evs_t res2 s2,
            (if truthy (store s1) loaded
             then (again <- load_messages;; item again question_id) s1
             else run_turns question_id s1) = (res2, s2) /\
            trace s2 = trace s ++ evs_t /\ failures_last evs_t res2).
  { destruct (truthy (store s1) loaded).
    - unfold bind. destruct (load_messages_frame s1) as (r1 & s1' & Hl & Htr & _).
      rewrite Hl. exists [].
      destruct r1 as [v|e]; unfold item, lift; eexists _, _;
        (split; [reflexivity|]); rewrite app_nil_r;
        (split; [congruence | apply failures_last_nil]).
    - destruct (run_turns_stops_at_failure question_id s1) as (evs_t & Htr & Hfl).
      destruct (run_turns question_id s1) as [res2 s2]. cbn [fst snd] in *.
      exists evs_t, res2, s2. split; [reflexivity|]. split; [congruence | exact Hfl]. }
  destruct Hobtain as (evs_t & res2 & s2 & Hrun2 & Htr2 & Hfl2). rewrite Hrun2.
  destruct res2 as [msgs|e];
    [|exists evs_t; split; [exact Htr2 | exact (failures_last_raise _ _ Hfl2)]].
  cbv zeta.
  destruct (load_messages_frame (tick s2)) as (res3 & s3 & Hl3 & Htr3 & _).
  rewrite Hl3. sstate_in Htr3.
  destruct res3 as [loaded'|e].
  2:{ exists evs_t. cbn [fst snd]. split; [congruence|].
      intros i to ms o e' Hi. destruct (Hfl2 i to ms o e' Hi) as [_ [=]]. }
  assert (Hend : forall sf ev_u,
            trace sf = trace s2 ++ ev_u ->
            (forall i to ms o e, ev_u !! i <> Some (EChat to ms o (Raise e))) ->
            exists evs,
              trace (snd (finish msgs (time_sub (wall (clock s2)) (wall (clock s))) sf))
                = trace s ++ evs /\
              failures_last evs
                (fst (finish msgs (time_sub (wall (clock s2)) (wall (clock s))) sf))).
  { intros sf ev_u Hsf Hu.
    destruct (finish_spec msgs (time_sub (wall (clock s2)) (wall (clock s))) sf)
      as (evs & jres & sj & res & s' & Hjudged & Hfin & Ht & Htr & _ & _ & _ & _ & Hres).
    destruct (evaluate_turns_stops_at_failure msgs (tick sf)) as (evs' & Htr' & Hfl').
    rewrite Hjudged in Htr', Hfl'. cbn [fst snd] in Htr', Hfl'.
    assert (evs' = evs).
    { sstate_in Htr'. rewrite Ht in Htr'. apply app_inv_head in Htr'. congruence. }
    subst evs'.
    exists (evs_t ++ ev_u ++ evs). rewrite Hfin. cbn [fst snd].
    split; [rewrite Htr, Hsf, Htr2, <- !app_assoc; reflexivity|].
    intros i to ms o e Hi.
    destruct (decide (i < length evs_t)) as [Hlt|Hge].
    { rewrite lookup_app_l in Hi by exact Hlt.
      destruct (Hfl2 i to ms o e Hi) as [_ [=]]. }
    rewrite lookup_app_r in Hi by lia.
    destruct (decide (i - length evs_t < length ev_u)) as [Hlt|Hge'].
    { rewrite lookup_app_l in Hi by exact Hlt. destruct (Hu _ _ _ _ _ Hi). }
    rewrite lookup_app_r in Hi by lia.
    destruct (Hfl' _ to ms o e Hi) as [Hl Hj]. subst jres.
    rewrite !length_app. split; [lia | exact Hres]. }
  destruct (negb (truthy (store s3) loaded')
            && String.eqb (model (self s3)) (judge_model (self s3))).
  - unfold unload.
    destruct (client_unload s3 (model (self s3))) as [[]|e] eqn:Hun.
    + apply (Hend _ [EUnload (model (self s3)) (Ok tt)]).
      * sstate. rewrite Htr3. reflexivity.
      * intros [|[|i]] to ms o e; discriminate.
    + exists (evs_t ++ [EUnload (model (self s3)) (Raise e)]). cbn [fst snd]. sstate.
      split; [rewrite Htr3, Htr2, <- app_assoc; reflexivity|].
      intros i to ms o e' Hi.
      destruct (decide (i < length evs_t)) as [Hlt|Hge].
      { rewrite lookup_app_l in Hi by exact Hlt.
        destruct (Hfl2 i to ms o e' Hi) as [_ [=]]. }
      rewrite lookup_app_r in Hi by lia.
      destruct (i - length evs_t) as [|[|k]]; discriminate.
  - apply (Hend s3 []).
    + rewrite app_nil_r. exact Htr3.
    + intros i to ms o e [=].
Qed.

(** ** Replaying a loaded transcript and parsing the judgements *)

(** The property does not look at the clock. *)
Lemma load_messages_tick s :
  load_messages (tick s) = (fst (load_messages s), tick (snd (load_messages s))).
Proof.
  unfold load_messages, bind, gets. change (self (tick s)) with (self s).
  destruct (_load_messages (self s)); [reflexivity|].
  unfold json_load_messages_file, bind, read_load_messages_file.
  change (self (tick s)) with (self s).
  destruct (load_messages_file (self s)) as [text|]; [|reflexivity].
  unfold json_loads. sstate.
  destruct (json_parse text) as [j|]; [|reflexivity].
  destruct (materialize j (store s)) as [v h]. reflexivity.
Qed.

(** It only assigns the cache and reads the file. *)
Lemma load_messages_self s res s1 :
  load_messages s = (res, s1) ->
  exists f c, self s1 = set__load_messages c (set_load_messages_file f (self s)).
Proof.
  destruct (_load_messages (self s)) as [v|] eqn:Hc.
  - rewrite (load_messages_cached s v Hc). intros [= <- <-].
    exists (load_messages_file (self s)), (_load_messages (self s)).
    destruct (self s); reflexivity.
  - destruct (load_messages_file (self s)) as [text|] eqn:Hf.
    + destruct (json_parse text) as [j|] eqn:Hj.
      * rewrite (load_messages_parsed s text j Hc Hf Hj). intros [= <- <-].
        eexists _, _. reflexivity.
      * rewrite (load_messages_invalid s text Hc Hf Hj). intros [= <- <-].
        exists (Some ""), None.
        unfold set__load_messages, set_load_messages_file. cbn. rewrite Hc.
        reflexivity.
    + rewrite (load_messages_no_file s Hc Hf). intros [= <- <-].
      exists None, None. destruct (self s); cbn in *; subst; reflexivity.
Qed.

(** With a list of transcripts loaded and an index valid in it, [run]
    goes straight to the judging of the transcript at that index. *)
Lemma run_replay s a vs s1 i m :
  load_messages s = (Ok (VList a), s1) ->
  store s1 !! a = Some vs ->
  index_seq vs i = Ok m ->
  run (VInt i) s =
    finish m (time_sub (wall (S (clock s))) (wall (clock s))) (tick (tick s1)) /\
  trace s1 = trace s /\
  preserved (store s) (store s1) /\
  _load_messages (self s1) = Some (VList a).
Proof.
  intros Hl Ha Hi.
  destruct (load_messages_frame s)
    as (res & s1' & Hl' & Htr & Hclk & _ & _ & _ & Hpres & Hc & _).
  rewrite Hl in Hl'. injection Hl' as <- <-. specialize (Hc _ eq_refl).
  split; [|auto].
  rewrite run_unfold, load_messages_tick, Hl. cbn [fst snd].
  assert (Htruth : truthy (store s1) (VList a) = true).
  { cbn [truthy]. rewrite Ha. pose proof (index_seq_nonempty _ _ _ Hi).
    destruct vs; [contradiction | reflexivity]. }
  change (store (tick s1)) with (store s1). rewrite Htruth.
  unfold bind at 1. rewrite (load_messages_cached (tick s1) _ Hc).
  unfold item at 1, lift. cbn [getitem as_index].
  change (store (tick s1)) with (store s1). rewrite Ha, Hi.
  cbv zeta. rewrite (load_messages_cached (tick (tick s1)) _ Hc).
  change (store (tick (tick s1))) with (store s1). rewrite Htruth.
  cbn [negb andb]. sstate. rewrite Hclk. reflexivity.
Qed.

Lemma evaluate_turns_no_list b s :
  store s !! b = None -> evaluate_turns (VList b) s = (Raise TypeError, s).
Proof.
  intros H. unfold evaluate_turns. unfold bind at 1. cbn [slice_all].
  rewrite H. reflexivity.
Qed.

(** The responses the loop returns are the replies recorded for its calls,
    in order, and each answers a judge conversation. *)
Lemma rounds_recorded t l js evs res :
  rounds t l js evs res ->
  forall out, res = Ok out ->
  exists added,
    out = js ++ added /\ replies evs = map Ok added /\
    Forall (fun r => exists st text,
              client_chat st (judge_model t) (judge_conversation t text)
                (ollama_options t) = Ok r) added.
Proof.
  induction 1; intros out Hout; try discriminate.
  - injection Hout as <-. exists []. rewrite app_nil_r.
    split; [reflexivity|]. split; [reflexivity | constructor].
  - destruct (IHrounds out Hout) as (added & -> & Hrep & Hall).
    exists (r :: added). rewrite <- app_assoc. split; [reflexivity|].
    split; [|constructor; eauto].
    unfold replies in *. cbn. f_equal. exact Hrep.
Qed.

(** The end of [run] on a list object. *)
Lemma finish_list b l d sf :
  store sf !! b = Some l ->
  exists evs jres res s',
    finish (VList b) d sf = (res, s') /\
    trace s' = trace sf ++ evs /\
    self s' = self sf /\
    preserved (store sf) (store s') /\
    (rounds (self sf) (without_system l) [] evs jres \/
     (evs = [] /\ exists m rest e,
         l = m :: rest /\ field m "role" = Raise e /\ jres = Raise e)) /\
    match jres with
    | Raise e => res = Raise e
    | Ok js =>
        (Forall parses js -> exists r, res = Ok r) /\
        (Exists (fun j => json_parse (content (message j)) = None) js ->
         res = Raise JSONDecodeError) /\
        (forall r, res = Ok r ->
           messages r = VList b /\ Forall2 parsed js (judgements r))
    end.
Proof.
  intros Hb.
  destruct (finish_spec (VList b) d sf)
    as (evs & jres & s2 & res & s' & Hjudged & Hfin & Htrj & Htr & _ & Hself
        & _ & Hpres & Hres).
  destruct (evaluate_turns_list b l (tick sf) Hb)
    as (evs' & res' & s2' & Hrun' & Hshape & Htr' & _).
  rewrite Hjudged in Hrun'. injection Hrun' as <- <-.
  sstate_in Htr'. rewrite Htrj in Htr'. apply app_inv_head in Htr'. subst evs'.
  exists evs, jres, res, s'.
  split; [exact Hfin|]. split; [exact Htr|]. split; [exact Hself|].
  split; [exact Hpres|]. split; [exact Hshape|].
  destruct jres as [js|e]; [|exact Hres].
  destruct Hres as (Hgood & Hbad & Hok).
  split; [exact Hgood|]. split; [exact Hbad|].
  intros r Hr. destruct (Hok r Hr) as (Hm & Hp & _). auto.
Qed.

(** A run that returns a Result has reached the judging. *)
Lemma run_judging question_id s r s' :
  run question_id s = (Ok r, s') ->
  exists msgs d sf evs_t,
    finish msgs d sf = (Ok r, s') /\ trace sf = trace s ++ evs_t.
Proof.
  rewrite run_unfold.
  destruct (load_messages_frame (tick s)) as (res1 & s1 & Hl1 & Htr1 & _).
  rewrite Hl1. sstate_in Htr1. destruct res1 as [loaded|e]; [|discriminate].
  assert (Hobtain : forall res2 s2,
            (if truthy (store s1) loaded
             then (again <- load_messages;; item again question_id) s1
             else run_turns question_id s1) = (res2, s2) ->
            exists evs_t, trace s2 = trace s ++ evs_t).
  { intros res2 s2. destruct (truthy (store s1) loaded).
    - unfold bind. destruct (load_messages_frame s1) as (r1 & s1' & Hl & Htr & _).
      rewrite Hl. destruct r1; unfold item, lift; intros [= <- <-];
        exists []; rewrite app_nil_r; congruence.
    - destruct (run_turns_frame question_id s1)
        as (evs & res & s2' & f & Hrt & Htr & _).
      rewrite Hrt. intros [= <- <-]. exists evs. congruence. }
  destruct (if truthy (store s1) loaded
            then (again <- load_messages;; item again question_id) s1
            else run_turns question_id s1) as [[msgs|e] s2]; [|discriminate].
  destruct (Hobtain _ _ eq_refl) as [evs_t Htr2]. cbv zeta.
  destruct (load_messages_frame (tick s2)) as (res3 & s3 & Hl3 & Htr3 & _).
  rewrite Hl3. destruct res3 as [loaded'|e]; [|discriminate].
  sstate_in Htr3.
  destruct (negb (truthy (store s3) loaded')
            && String.eqb (model (self s3)) (judge_model (self s3))).
  - unfold unload. destruct (client_unload s3 (model (self s3))) as [[]|e] eqn:Hun;
      [|discriminate].
    intros H. eexists _, _, _, (evs_t ++ [EUnload (model (self s3)) (Ok tt)]).
    split; [exact H|]. sstate. rewrite Htr3, Htr2, <- app_assoc. reflexivity.
  - intros H. eexists _, _, _, evs_t. split; [exact H|]. congruence.
Qed.

(** The trace of a run extends the trace it started with. *)
Lemma run_trace question_id s :
  exists evs, trace (snd (run question_id s)) = trace s ++ evs.
Proof.
  rewrite run_unfold.
  destruct (load_messages_frame (tick s)) as (res1 & s1 & Hl1 & Htr1 & _).
  rewrite Hl1. sstate_in Htr1.
  destruct res1 as [loaded|e]; [|exists []; rewrite app_nil_r; exact Htr1].
  assert (Hobtain : exists evs_t res2 s2,
            (if truthy (store s1) loaded
             then (again <- load_messages;; item again question_id) s1
             else run_turns question_id s1) = (res2, s2) /\
            trace s2 = trace s ++ evs_t).
  { destruct (truthy (store s1) loaded).
    - unfold bind. destruct (load_messages_frame s1) as (r1 & s1' & Hl & Htr & _).
      rewrite Hl. exists [].
      destruct r1; unfold item, lift; eexists _, _; (split; [reflexivity|]);
        rewrite app_nil_r; congruence.
    - destruct (run_turns_frame question_id s1)
        as (evs & res & s2' & f & Hrt & Htr & _).
      exists evs, res, s2'. split; [exact Hrt | congruence]. }
  destruct Hobtain as (evs_t & res2 & s2 & Hrun2 & Htr2). rewrite Hrun2.
  destruct res2 as [msgs|e]; [|exists evs_t; exact Htr2].
  cbv zeta.
  destruct (load_messages_frame (tick s2)) as (res3 & s3 & Hl3 & Htr3 & _).
  rewrite Hl3. sstate_in Htr3.
  destruct res3 as [loaded'|e]; [|exists evs_t; cbn [snd]; congruence].
  destruct (negb (truthy (store s3) loaded')
            && String.eqb (model (self s3)) (judge_model (self s3))).
  - unfold unload. destruct (client_unload s3 (model (self s3))) as [[]|e].
    + match goal with
      | |- context [finish ?m ?d ?sf] =>
          destruct (finish_spec m d sf)
            as (evs & jres & sj & res & s' & _ & Hfin & _ & Htr & _)
      end.
      rewrite Hfin. exists (evs_t ++ [EUnload (model (self s3)) (Ok tt)] ++ evs).
      cbn [snd]. rewrite Htr. sstate. rewrite Htr3, Htr2, <- !app_assoc. reflexivity.
    + exists (evs_t ++ [EUnload (model (self s3)) (Raise e)]).
      cbn [snd]. sstate. rewrite Htr3, Htr2, <- app_assoc. reflexivity.
  - match goal with
    | |- context [finish ?m ?d ?sf] =>
        destruct (finish_spec m d sf)
          as (evs & jres & sj & res & s' & _ & Hfin & _ & Htr & _)
    end.
    rewrite Hfin. exists (evs_t ++ evs).
    cbn [snd]. rewrite Htr, Htr3, Htr2, <- app_assoc. reflexivity.
Qed.

(** C4, as the code has it.  When the property [load_messages] gives a
    list of transcripts, read from the file at that moment or loaded
    before, and [i] is a valid index in it, [run] makes no call but the
    judge calls of [evaluate_turns]: the subject model is not invoked and
    the question repository is not consulted.  The loaded list and every
    list it holds are left as they were, and a Result, when there is one,
    holds the loaded transcript at [i] as its messages; when the list was
    just read from the file, that object denotes the document at [i] of the
    file.  A Result is returned when the transcript is a list of messages
    with an even number of them after the leading system message, the judge
    answers every call with a JSON document and the template renders.  None
    is returned when that number is odd: [run] raises, and what it raises
    is the [IndexError] of the missing answer when the messages are well
    formed, the judge answers and the template renders. *)
Theorem run_replays_loaded_transcript s a vs s1 i m :
  load_messages s = (Ok (VList a), s1) ->
  store s1 !! a = Some vs ->
  index_seq vs i = Ok m ->
  exists evs res s',
    run (VInt i) s = (res, s') /\
    trace s' = trace s ++ evs /\
    Forall (judge_event (self s')) evs /\
    _load_messages (self s') = Some (VList a) /\
    store s' !! a = Some vs /\
    preserved (store s1) (store s') /\
    (forall r, res = Ok r -> messages r = m) /\
    (forall text docs doc,
       _load_messages (self s) = None ->
       load_messages_file (self s) = Some text ->
       json_parse text = Some (JArr docs) ->
       index_seq docs i = Ok doc ->
       denotes (store s') doc m) /\
    (forall b l, m = VList b -> store s1 !! b = Some l ->
       (forall n, Forall is_turn l -> length (without_system l) = 2 * n ->
          client_answers -> judge_answers_json (self s) -> renders_strings (self s) ->
          length (chats evs) = n /\
          exists r, res = Ok r /\ length (judgements r) = n) /\
       (Nat.Odd (length (without_system l)) ->
          exists e, res = Raise e /\
            (Forall is_turn l -> client_answers -> renders_strings (self s) ->
             e = IndexError /\
             2 * length (chats evs) + 1 = length (without_system l)))).
Proof.
  intros Hl Ha Hi.
  destruct (run_replay s a vs s1 i m Hl Ha Hi) as (Hrun & Htr1 & Hpres1 & Hc1).
  destruct (load_messages_self s _ _ Hl) as (f & c & Hself1).
  set (d := time_sub (wall (S (clock s))) (wall (clock s))) in *.
  set (sf := tick (tick s1)) in *.
  destruct (finish_spec m d sf)
    as (evs & jres & s2 & res & s' & Hjudged & Hfin & Htrj & Htr & Hev & Hself
        & Hlen & Hpres & Hres).
  change (store sf) with (store s1) in Hpres, Hlen.
  change (trace sf) with (trace s1) in Htr.
  change (self sf) with (self s1) in Hself, Hev.
  exists evs, res, s'.
  split; [rewrite Hrun; exact Hfin|].
  split; [rewrite Htr, Htr1; reflexivity|].
  split; [rewrite Hself; exact Hev|].
  split; [rewrite Hself; exact Hc1|].
  split; [rewrite Hpres; [exact Ha | eapply lookup_lt_Some, Ha]|].
  split; [exact Hpres|].
  split.
  { intros r ->. destruct jres as [js|e]; [|discriminate].
    destruct Hres as (_ & _ & Hok). apply (Hok r eq_refl). }
  split.
  { intros text docs doc Hc Hf Hj Hd.
    pose proof (load_messages_parsed s text (JArr docs) Hc Hf Hj) as Hparsed.
    destruct (materialize_spec (JArr docs) (store s)) as (ext & Hs & Hden).
    destruct (materialize (JArr docs) (store s)) as [v h].
    cbn [fst snd] in Hparsed, Hs, Hden. subst h.
    rewrite Hl in Hparsed. injection Hparsed as Hv Hs1.
    assert (Hst : store s1 = store s ++ ext) by (rewrite Hs1; reflexivity).
    rewrite <- Hv, <- Hst in Hden. rewrite denotes_arr in Hden.
    destruct Hden as (vs' & Hl' & Hvs). rewrite Ha in Hl'. injection Hl' as <-.
    destruct (denotes_items_index _ _ _ _ _ Hvs Hd) as (m' & Hm' & Hdm).
    rewrite Hi in Hm'. injection Hm' as <-.
    eapply denotes_frame; [exact Hdm | exact Hpres]. }
  intros b l -> Hb.
  destruct (finish_list b l d sf Hb)
    as (evs' & jres' & res' & s'' & Hfin' & Htr' & _ & _ & Hshape & Hres').
  rewrite Hfin in Hfin'. injection Hfin' as <- <-.
  change (trace sf) with (trace s1) in Htr'.
  rewrite Htr in Htr'. apply app_inv_head in Htr'. subst evs'.
  change (self sf) with (self s1) in Hshape.
  assert (Hfmt' : renders_strings (self s) -> renders_strings (self s1))
    by (apply renders_strings_same; rewrite Hself1; reflexivity).
  assert (Hws : Forall is_turn l -> Forall is_turn (without_system l))
    by apply Forall_without_system.
  split.
  - intros n Hturns Hn Hchat Hjson Hfmt.
    destruct Hshape as [Hr | (_ & m0 & rest & e & -> & He & _)].
    2:{ apply Forall_cons in Hturns as [(r & c0 & Hr & _) _]. congruence. }
    destruct (rounds_complete _ _ _ _ _ Hr n Hn (turns_are_messages _ (Hws Hturns)) Hchat)
      as (rs & -> & Hlrs & Hlc & _).
    { apply turns_renderable; [exact (Hfmt' Hfmt) | exact (Hws Hturns)]. }
    destruct (rounds_recorded _ _ _ _ _ Hr _ eq_refl) as (added & Hadd & _ & Hall).
    cbn [app] in Hadd. subst added.
    destruct Hres' as (Hgood & _ & Hok).
    split; [exact Hlc|].
    destruct Hgood as [r ->].
    { eapply Forall_impl; [exact Hall|].
      intros r (st & text & Hreply). apply (Hjson st text).
      rewrite Hself1 in Hreply. exact Hreply. }
    exists r. split; [reflexivity|].
    destruct (Hok r eq_refl) as [_ Hp].
    rewrite <- (Forall2_length _ _ _ Hp). exact Hlrs.
  - intros Hodd.
    destruct Hshape as [Hr | (-> & m0 & rest & e & -> & He & ->)].
    + destruct (rounds_odd_raises _ _ _ _ _ Hr Hodd) as [e ->].
      exists e. split; [exact Hres'|].
      intros Hturns Hchat Hfmt.
      destruct (rounds_odd_index _ _ _ _ _ Hr Hodd
                  (turns_are_messages _ (Hws Hturns)) Hchat) as [He Hn].
      { apply turns_renderable; [exact (Hfmt' Hfmt) | exact (Hws Hturns)]. }
      split; [congruence | exact Hn].
    + exists e. split; [exact Hres'|].
      intros Hturns _ _.
      apply Forall_cons in Hturns as [(r & c0 & Hr & _) _]. congruence.
Qed.

(** C7, as the code has it.  The content of a judge response is read as a
    JSON document: the example of the specification gives a judgement whose
    [total_rating] is the string [70], and any JSON document is taken as the
    judgement, whatever its keys.  A content that is not a JSON document,
    such as [not json], raises [JSONDecodeError].  In a run that returns a
    Result, the judgements are the documents of the replies the judge gave,
    one per pair of the transcript and in order: no Result holds a reply
    that is not a document.  And the run of a loaded transcript whose judge
    never answers with a document raises [JSONDecodeError], once every pair
    has been judged. *)
Theorem run_parses_judgements question_id s :
  (forall st,
     _parse_judgement example_judgement st =
     (Ok (VDict [("evaluation", VStr "ok"); ("total_rating", VStr "70");
                 ("feedback", VStr "none")]), st)) /\
  json_parse "not json" = None /\
  (forall text st,
     json_parse text = None ->
     _parse_judgement text st = (Raise JSONDecodeError, st)) /\
  (forall text doc st,
     json_parse text = Some doc ->
     exists v st', _parse_judgement text st = (Ok v, st') /\ denotes (store st') doc v) /\
  exists evs res s',
    run question_id s = (res, s') /\
    trace s' = trace s ++ evs /\
    (forall r b l,
       res = Ok r -> messages r = VList b -> store s' !! b = Some l ->
       exists evs_t evs_j js,
         evs = evs_t ++ evs_j /\
         rounds (self s') (without_system l) [] evs_j (Ok js) /\
         replies evs_j = map Ok js /\
         2 * length js = length (without_system l) /\
         Forall2 parsed js (judgements r)) /\
    (forall a vs s1 i b l n,
       question_id = VInt i ->
       load_messages s = (Ok (VList a), s1) ->
       store s1 !! a = Some vs ->
       index_seq vs i = Ok (VList b) ->
       store s1 !! b = Some l ->
       Forall is_turn l ->
       length (without_system l) = 2 * S n ->
       client_answers -> renders_strings (self s) -> judge_never_json (self s) ->
       res = Raise JSONDecodeError /\ length (chats evs) = S n).
Proof.
  split; [|split; [|split; [|split]]].
  - intros st. unfold _parse_judgement, json_loads.
    rewrite example_judgement_document. destruct st; reflexivity.
  - vm_compute. reflexivity.
  - intros text st H. unfold _parse_judgement, json_loads. rewrite H. reflexivity.
  - intros text doc st H. unfold _parse_judgement.
    destruct (json_loads_frame text st)
      as (res & st' & Hrun & _ & _ & _ & _ & _ & _ & Hgood).
    destruct (Hgood doc H) as [-> Hd]. eauto.
  - destruct (run_trace question_id s) as [evs Htrace].
    destruct (run question_id s) as [res s'] eqn:Hrun. cbn [snd] in Htrace.
    exists evs, res, s'. split; [reflexivity|]. split; [exact Htrace|].
    split.
    + intros r b l -> Hmsg Hb.
      destruct (run_judging _ _ _ _ Hrun) as (msgs & d & sf & evs_t & Hfin & Htrf).
      destruct (finish_spec msgs d sf)
        as (evs_j & jres & s2 & res & s'' & Hjudged & Hfin' & Htrj & Htr & _ & Hself
            & _ & Hpres & Hres).
      rewrite Hfin in Hfin'. injection Hfin' as <- <-.
      destruct jres as [js|e]; [|discriminate].
      destruct Hres as (_ & _ & Hok).
      destruct (Hok r eq_refl) as (Hm & Hparsed & _).
      rewrite Hmsg in Hm. subst msgs.
      destruct (store sf !! b) as [l0|] eqn:Hb0.
      2:{ rewrite (evaluate_turns_no_list b (tick sf) Hb0) in Hjudged. discriminate. }
      assert (l0 = l).
      { rewrite Hpres in Hb by (eapply lookup_lt_Some, Hb0). congruence. }
      subst l0.
      destruct (evaluate_turns_list b l (tick sf) Hb0)
        as (evs' & res' & s2' & Hrun' & Hshape & Htr' & _).
      rewrite Hjudged in Hrun'. injection Hrun' as <- <-.
      sstate_in Htr'. rewrite Htrj in Htr'. apply app_inv_head in Htr'. subst evs'.
      destruct Hshape as [Hr | (_ & m0 & rest & e & _ & _ & [=])].
      change (self (tick sf)) with (self sf) in Hr. rewrite <- Hself in Hr.
      destruct (rounds_recorded _ _ _ _ _ Hr _ eq_refl) as (added & Hadd & Hrep & _).
      cbn [app] in Hadd. subst added.
      destruct (rounds_counts _ _ _ _ _ Hr) as [_ Hcount].
      destruct (Hcount js eq_refl) as [Hl1 Hl2]. cbn [length] in Hl1.
      exists evs_t, evs_j, js.
      split.
      { rewrite Htr, Htrf, <- app_assoc in Htrace.
        apply app_inv_head in Htrace. symmetry. exact Htrace. }
      split; [exact Hr|]. split; [exact Hrep|]. split; [lia | exact Hparsed].
    + intros a vs s1 i b l n -> Hl Ha Hi Hb Hturns Hn Hchat Hfmt Hnever.
      destruct (run_replay s a vs s1 i _ Hl Ha Hi) as (Hrun' & Htr1 & _ & _).
      destruct (load_messages_self s _ _ Hl) as (f & c & Hself1).
      rewrite Hrun in Hrun'.
      destruct (finish_list b l (time_sub (wall (S (clock s))) (wall (clock s)))
                  (tick (tick s1)) Hb)
        as (evs' & jres & res' & s'' & Hfin & Htr & _ & _ & Hshape & Hres).
      rewrite <- Hrun' in Hfin. injection Hfin as <- <-.
      sstate_in Htr. rewrite Htr1 in Htr. rewrite Htrace in Htr.
      apply app_inv_head in Htr. subst evs'.
      sstate_in Hshape.
      destruct Hshape as [Hr | (_ & m0 & rest & e & -> & He & _)].
      2:{ apply Forall_cons in Hturns as [(r & c0 & Hr & _) _]. congruence. }
      pose proof (Forall_without_system _ _ Hturns) as Hws.
      destruct (rounds_complete _ _ _ _ _ Hr (S n) Hn (turns_are_messages _ Hws) Hchat)
        as (rs & -> & Hlrs & Hlc & _).
      { apply turns_renderable; [|exact Hws].
        eapply renders_strings_same; [| |exact Hfmt]; rewrite Hself1; reflexivity. }
      destruct (rounds_recorded _ _ _ _ _ Hr _ eq_refl) as (added & Hadd & _ & Hall).
      cbn [app] in Hadd. subst added.
      destruct Hres as (_ & Hbad & _).
      split; [|exact Hlc].
      apply Hbad. destruct rs as [|r rs]; [discriminate|].
      apply Forall_cons in Hall as [(st & text & Hreply) _].
      apply Exists_cons_hd. apply (Hnever st text).
      rewrite Hself1 in Hreply. exact Hreply.
Qed.

(** X15.  With a transcripts file that holds an empty value, a known
    question, a client that answers every call, a judge whose answers to
    judge conversations are JSON documents and a template that renders,
    [run] drives the conversation and judges it: the messages of the Result
    are the list object [run_turns] returned, holding what [run_turns] left
    in it, and there is one judgement per turn.  The transcripts built by
    [run_turns] always pair up: the [IndexError] of an odd transcript cannot
    come from them. *)
Theorem run_judges_every_turn question_id q s text j :
  _load_messages (self s) = None ->
  load_messages_file (self s) = Some text ->
  json_parse text = Some j -> json_truthy j = false ->
  question_is question_id q -> images_available question_id q ->
  client_answers -> judge_answers_json (self s) -> renders_strings (self s) ->
  (model (self s) = judge_model (self s) ->
   forall st, client_unload st (model (self s)) = Ok tt) ->
  exists r s' loaded s1 s2 a transcript,
    run question_id s = (Ok r, s') /\
    load_messages (tick s) = (Ok loaded, s1) /\
    run_turns question_id s1 = (Ok (VList a), s2) /\
    store s2 !! a = Some transcript /\
    messages r = VList a /\
    store s' !! a = Some transcript /\
    length transcript =
      length (opening (self s))
      + 2 * length (slice_to (turns q) (max_turns (self s))) /\
    length (judgements r) = length (slice_to (turns q) (max_turns (self s))).
Proof.
  intros Hc Hf Hj Ht Hq Himg Hchat Hjson Hfmt Hunload. rewrite run_unfold.
  pose proof (load_messages_parsed (tick s) text j Hc Hf Hj) as Hload.
  rewrite Hload.
  change (store (tick s)) with (store s) in *.
  destruct (materialize_spec j (store s)) as (ext & Hs & Hd).
  destruct (materialize j (store s)) as [v h]. cbn [fst snd] in *. subst h.
  set (s1 := loaded_state (tick s) v (store s ++ ext)) in *.
  assert (Htruth : truthy (store s1) v = false)
    by (rewrite <- Ht; apply (denotes_truthy _ _ _ Hd)).
  rewrite Htruth.
  destruct (run_turns_driven question_id s1)
    as [(e & He & _) | (q' & evs_t & res_t & s2 & final & Hq' & Hrun & Hdriven & _ & Hfinal)];
    [rewrite Hq in He; discriminate|].
  rewrite Hq in Hq'. injection Hq' as <-.
  destruct (driven_complete _ _ _ _ _ _ _ _ _ _ Hdriven Hchat Himg)
    as (replies & -> & _ & _ & Hlfinal & _).
  pose proof (driven_pairs_up _ _ _ _ _ _ _ Hdriven Hchat Himg) as Hpairs.
  pose proof (driven_final_turns _ _ _ _ _ _ _ _ _ _ Hdriven (opening_turns _)) as Hturns.
  destruct (run_turns_frame question_id s1)
    as (evs' & res' & s2' & f & Hrun' & _ & _ & Hself2 & _ & _ & Hpres2).
  rewrite Hrun in Hrun'. injection Hrun' as <- <-.
  rewrite Hrun. cbv zeta.
  set (m := length (store s1)) in *.
  assert (Hc2 : _load_messages (self (tick s2)) = Some v)
    by (sstate; rewrite Hself2; reflexivity).
  rewrite (load_messages_cached (tick s2) v Hc2). sstate.
  assert (Htruth2 : truthy (store s2) v = false).
  { rewrite <- Htruth. apply truthy_preserved; [|exact Hpres2].
    intros a ->. eapply denotes_valid, Hd. }
  rewrite Htruth2. cbn [negb andb].
  assert (Hend : forall sf,
            store sf = store s2 -> self sf = self s2 ->
            exists r s',
              finish (VList m) (time_sub (wall (clock s2)) (wall (clock s))) sf
                = (Ok r, s') /\
              messages r = VList m /\ store s' !! m = Some final /\
              length (judgements r)
                = length (slice_to (turns q) (max_turns (self s)))).
  { intros sf Hst Hsf.
    assert (Hm : store sf !! m = Some final) by (rewrite Hst; exact Hfinal).
    destruct (finish_list m final (time_sub (wall (clock s2)) (wall (clock s))) sf Hm)
      as (evs & jres & res & s' & Hfin & _ & _ & Hpres & Hshape & Hres).
    destruct Hshape as [Hr | (_ & m0 & rest & e & -> & He & _)].
    2:{ apply Forall_cons in Hturns as [(r & c & Hr & _) _]. congruence. }
    assert (Hws : Forall is_turn (without_system final))
      by (apply Forall_without_system, Hturns).
    destruct (rounds_complete _ _ _ _ _ Hr _ Hpairs (turns_are_messages _ Hws) Hchat)
      as (rs & -> & Hlrs & _).
    { apply turns_renderable; [|exact Hws].
      rewrite Hsf, Hself2. eapply renders_strings_same; [| |exact Hfmt];
        reflexivity. }
    destruct (rounds_recorded _ _ _ _ _ Hr _ eq_refl) as (added & Hadd & _ & Hall).
    cbn [app] in Hadd. subst added.
    destruct Hres as (Hgood & _ & Hok).
    destruct Hgood as [r ->].
    { eapply Forall_impl; [exact Hall|].
      intros r (st & text' & Hreply). apply (Hjson st text').
      rewrite Hsf, Hself2 in Hreply. exact Hreply. }
    destruct (Hok r eq_refl) as (Hmsg & Hparsed).
    exists r, s'. split; [exact Hfin|]. split; [exact Hmsg|].
    split; [rewrite Hpres; [exact Hm | eapply lookup_lt_Some, Hm]|].
    rewrite <- (Forall2_length _ _ _ Hparsed). exact Hlrs. }
  assert (Hdone : forall res s',
            (exists r, res = Ok r /\ messages r = VList m /\
                       store s' !! m = Some final /\
                       length (judgements r)
                         = length (slice_to (turns q) (max_turns (self s)))) ->
            exists r s'' loaded s1' s2' a transcript,
              (res, s') = (Ok r, s'') /\
              (Ok v, s1) = (Ok loaded, s1') /\
              run_turns question_id s1' = (Ok (VList a), s2') /\
              store s2' !! a = Some transcript /\
              messages r = VList a /\
              store s'' !! a = Some transcript /\
              length transcript =
                length (opening (self s))
                + 2 * length (slice_to (turns q) (max_turns (self s))) /\
              length (judgements r)
                = length (slice_to (turns q) (max_turns (self s)))).
  { intros res s' (r & -> & Hmsg & Hst & Hlj).
    exists r, s', v, s1, s2, m, final.
    repeat (split; [first [reflexivity | assumption]|]). exact Hlj. }
  assert (Hmodel : model (self s2) = model (self s))
    by (rewrite Hself2; reflexivity).
  assert (Hjudge : judge_model (self s2) = judge_model (self s))
    by (rewrite Hself2; reflexivity).
  destruct (String.eqb (model (self s2)) (judge_model (self s2))) eqn:Heq.
  - apply String.eqb_eq in Heq. unfold unload.
    rewrite Hmodel, Hunload by congruence.
    destruct (Hend (emit (EUnload (model (self s)) (Ok tt)) (tick s2)))
      as (r & s' & Hfin & Hrest); [reflexivity | reflexivity |].
    rewrite Hfin. apply Hdone. exists r. split; [reflexivity | exact Hrest].
  - destruct (Hend (tick s2)) as (r & s' & Hfin & Hrest); [reflexivity | reflexivity |].
    rewrite Hfin. apply Hdone. exists r. split; [reflexivity | exact Hrest].
Qed.

End Methods.

(** ** The theorems at work on the examples *)

Lemma constant_chat_answers answer : client_answers (constant_chat answer).
Proof. intros st to ms o. eexists. reflexivity. Qed.

Lemma example_format_strings t :
  judge_prompt t = JUDGE_PROMPT ->
  renders_strings example_format t.
Proof.
  intros Ht h q a. unfold judge_kwargs. rewrite Ht.
  eexists. unfold example_format. cbn. reflexivity.
Qed.

Lemma hello_turns : Forall is_turn [user_hi; assistant_hello].
Proof.
  repeat constructor.
  - exists "user", "hi". split; reflexivity.
  - exists "assistant", "hello". split; reflexivity.
Qed.

(** C2 on the transcript of the specification's example: one pair, one
    response. *)
Lemma evaluate_turns_one_response_per_pair_witness :
  exists rs s' evs,
    evaluate_turns (constant_chat example_judgement) example_format (VList 0)
      (judging [user_hi; assistant_hello]) = (Ok rs, s') /\
    length rs = 1 /\
    trace s' = evs /\
    length (chats evs) = 1.
Proof.
  destruct (evaluate_turns_one_response_per_pair
              (constant_chat example_judgement) example_format
              0 [user_hi; assistant_hello] 1 (judging [user_hi; assistant_hello]))
    as (rs & s' & evs & Hrun & Hlen & Htr & Hcalls & _).
  - reflexivity.
  - reflexivity.
  - apply turns_are_messages, hello_turns.
  - repeat constructor.
  - apply constant_chat_answers.
  - apply turns_renderable; [apply example_format_strings; reflexivity | apply hello_turns].
  - exists rs, s', evs. repeat split; assumption.
Defined.

(** C3 on the same transcript behind a system message. *)
Lemma evaluate_turns_discards_system_witness :
  exists evs res s',
    evaluate_turns (constant_chat example_judgement) example_format (VList 0)
      (judging [system_terse; user_hi; assistant_hello]) = (res, s') /\
    trace s' = evs /\
    rounds (constant_chat example_judgement) example_format replay_tester
      [user_hi; assistant_hello] [] evs res /\
    store s' !! 0 = Some [system_terse; user_hi; assistant_hello].
Proof.
  destruct (evaluate_turns_discards_system
              (constant_chat example_judgement) example_format
              0 system_terse [user_hi; assistant_hello]
              (judging [system_terse; user_hi; assistant_hello]))
    as (evs & res & s' & Hrun & Htr & Hrounds & _ & Hkept & _).
  - reflexivity.
  - reflexivity.
  - exists evs, res, s'. repeat split; assumption.
Defined.

(** C6 on a transcript that lacks its last answer. *)
Lemma evaluate_turns_odd_raises_witness :
  fst (evaluate_turns (constant_chat example_judgement) example_format (VList 0)
         (judging [user_hi; assistant_hello; user_hi])) = Raise IndexError.
Proof.
  destruct (evaluate_turns_odd_raises
              (constant_chat example_judgement) example_format
              0 [user_hi; assistant_hello; user_hi]
              (judging [user_hi; assistant_hello; user_hi]))
    as (e & s' & evs & Hrun & _ & Hgood).
  - reflexivity.
  - exists 1. reflexivity.
  - destruct Hgood as [-> _].
    + apply turns_are_messages.
      repeat constructor;
        [exists "user", "hi" | exists "assistant", "hello" | exists "user", "hi"];
        split; reflexivity.
    + apply constant_chat_answers.
    + apply turns_renderable; [apply example_format_strings; reflexivity|].
      repeat constructor;
        [exists "user", "hi" | exists "assistant", "hello" | exists "user", "hi"];
        split; reflexivity.
    + rewrite Hrun. reflexivity.
Defined.

Lemma example_transcripts_document :
  json_parse example_transcripts =
  Some (JArr [JArr [JObj [("role", JStr "user"); ("content", JStr "hi")];
                    JObj [("role", JStr "assistant"); ("content", JStr "hello")]]]).
Proof. vm_compute. reflexivity. Qed.

(** C4 fails as stated: the transcripts file below holds one transcript, of
    one message; the run of index 0 raises [IndexError] and returns no
    Result. *)
Lemma run_odd_loaded_transcript_raises :
  json_parse odd_transcripts =
    Some (JArr [JArr [JObj [("role", JStr "user"); ("content", JStr "hi")]]]) /\
  fst (run Z example_wall Z.sub Z.add (constant_chat example_judgement) example_unload
         example_question example_images example_format (VInt 0) (initial odd_tester))
  = Raise IndexError.
Proof. split; vm_compute; reflexivity. Qed.

(** C7 fails as stated: the judge answers the empty object, which has none
    of the three keys; it is parsed, and the run returns a Result with that
    object as judgement. *)
Lemma run_accepts_any_document :
  exists r s',
    run Z example_wall Z.sub Z.add (constant_chat "{}") example_unload
      example_question example_images example_format (VInt 0) (initial replay_tester)
    = (Ok r, s') /\
    judgements Z r = [VDict []].
Proof. eexists _, _. split; [vm_compute; reflexivity | reflexivity]. Qed.

(** X18 on a tester whose subject model judges itself, with a transcripts
    file that holds the empty list: two turns are driven, then the model is
    unloaded, then the judge is called. *)
Lemma run_unloads_once_witness :
  exists evs reply,
    trace (snd (run Z example_wall Z.sub Z.add (constant_chat example_judgement)
                  example_unload example_question example_images example_format
                  (VInt 80) (initial same_model_tester))) = evs /\
    unloads evs = [EUnload "judge" reply].
Proof.
  destruct (run_unloads_once
              Z example_wall Z.sub Z.add (constant_chat example_judgement) example_unload
              example_question example_images example_format
              (VInt 80) (initial same_model_tester))
    as (evs & res & s' & Hrun & Htr & _ & _ & _ & Hissued & _).
  - intros a [=].
  - edestruct Hissued as (reply & evs_judge & Hun & _).
    + vm_compute. reflexivity.
    + reflexivity.
    + vm_compute. reflexivity.
    + reflexivity.
    + exists evs, reply. rewrite Hrun. split; [exact Htr | exact Hun].
Defined.

(** C9 on a judge prompt without the answer marker, and on the default
    prompt with the transcripts file of the example. *)
Lemma check_config_markers_witness :
  check_config (initial unmarked_tester)
  = (Raise (ConfigurationError (MissingMarker "{answer}")), initial unmarked_tester) /\
  exists s', check_config (initial replay_tester) = (Ok tt, s') /\ trace s' = [].
Proof.
  split.
  - apply (check_config_markers (initial unmarked_tester)); reflexivity.
  - apply (check_config_markers (initial replay_tester)) with
      (text := example_transcripts)
      (j := JArr [JArr [JObj [("role", JStr "user"); ("content", JStr "hi")];
                        JObj [("role", JStr "assistant"); ("content", JStr "hello")]]]);
      reflexivity.
Defined.

(** The unload sits between the last turn and the first judge call. *)
Example run_same_model_trace :
  map (fun e => match e with
                | EGetQuestion _ => "question"
                | EGetImages _ => "images"
                | ELog _ _ _ => "log"
                | EChat to _ _ _ => "chat " +:+ to
                | EUnload to _ => "unload " +:+ to
                end)
    (List.filter (fun e => negb (is_log e))
       (trace (snd (run Z example_wall Z.sub Z.add (constant_chat example_judgement)
                      example_unload example_question example_images example_format
                      (VInt 80) (initial same_model_tester)))))
  = ["question"; "chat judge"; "chat judge"; "unload judge"; "chat judge"; "chat judge"].
Proof. vm_compute. reflexivity. Qed.

(** C5 and C10 on an example: the judge options are given as a string, the
    general options are [None]; the call carries [None]. *)
Example judge_call_options :
  let t := __init__ "judge" None None None (VStr "judge options") (VInt 80) 1 None
             "subject" VNone in
  ollama_judge_options t = VTuple [VStr "judge options"] /\
  map (fun e => match e with EChat _ _ o _ => o | _ => VStr "" end)
    (chats (trace (snd (evaluate_turns (constant_chat example_judgement) example_format
                          (VList 0)
                          {| self := t; store := [[user_hi; assistant_hello]];
                             trace := []; clock := 0 |}))))
  = [VNone].
Proof. split; vm_compute; reflexivity. Qed.

(** X1 on the tester with a system prompt and two turns: the transcript
    holds the system message and two pairs, and the answer of the second
    turn is the reply to the second call. *)
Lemma run_turns_transcript_witness :
  exists evs (replies : list chat_response) s' final r,
    run_turns (constant_chat "Hello.") example_question example_images (VInt 80)
      (initial same_model_tester) = (Ok (VList 0), s') /\
    trace s' = evs /\
    store s' !! 0 = Some final /\
    length final = 5 /\ length replies = 2 /\ length (chats evs) = 2 /\
    chats evs !! 1 = Some (EChat "judge" (firstn 4 final) VNone (Ok r)) /\
    final !! 4 = Some (VDict [("role", VStr "assistant");
                              ("content", VStr (content (message r)))]).
Proof.
  destruct (run_turns_transcript (constant_chat "Hello.") example_question example_images
              (VInt 80) {| turns := ["What is a monad?"; "And a comonad?"];
                           image_urls := false |}
              (initial same_model_tester) eq_refl)
    as (evs & replies & s' & final & Hrun & Htr & Hst & _ & Hlen & Hr & Hcalls & _ & Hturn).
  - intros [=].
  - apply constant_chat_answers.
  - destruct (Hturn 1 "And a comonad?" eq_refl)
      as (u & r & _ & _ & _ & _ & Hcall & Hanswer & _).
    exists evs, replies, s', final, r.
    split; [exact Hrun|]. split; [exact Htr|]. split; [exact Hst|].
    split; [exact Hlen|]. split; [exact Hr|]. split; [exact Hcalls|].
    split; [exact Hcall | exact Hanswer].
Defined.

(** X5 on a file with two transcripts: two tasks, both with [question_id]
    0. *)
Lemma get_tasks_kwargs_replay_witness :
  exists tasks s',
    get_tasks_kwargs (initial two_transcripts_tester) = (Ok tasks, s') /\
    length tasks = 2 /\
    tasks !! 1 = Some (VInt 1, [("question_id", VInt 0)]).
Proof.
  destruct (get_tasks_kwargs_replay (initial two_transcripts_tester) "[[],[]]"
              [JArr []; JArr []] eq_refl eq_refl)
    as (tasks & s' & Hrun & Hlen & Htasks & _).
  - vm_compute. reflexivity.
  - intros [=].
  - exists tasks, s'. split; [exact Hrun|]. split; [exact Hlen|].
    apply (Htasks 1). simpl. lia.
Defined.

(** X6 on a tester whose transcripts file holds the empty list. *)
Lemma get_tasks_kwargs_question_witness :
  exists s',
    get_tasks_kwargs (initial same_model_tester)
    = (Ok [(VInt 80, [("question_id", VInt 80)])], s').
Proof.
  destruct (get_tasks_kwargs_question (initial same_model_tester) eq_refl)
    as [Hempty _].
  destruct (Hempty "[]" (JArr [])) as (s' & Hrun & _).
  - reflexivity.
  - vm_compute. reflexivity.
  - reflexivity.
  - exists s'. exact Hrun.
Defined.

(** X7 on the transcripts file of the example. *)
Lemma load_messages_once_witness :
  exists v s1,
    load_messages (initial replay_tester) = (Ok v, s1) /\
    load_messages s1 = (Ok v, s1).
Proof.
  eexists _, _. split; [vm_compute; reflexivity|].
  apply (load_messages_once (initial replay_tester)).
  vm_compute. reflexivity.
Defined.

(** X8 on a transcripts file that is not a document. *)
Lemma load_messages_invalid_again_witness :
  exists s1,
    load_messages (initial invalid_file_tester)
      = (Raise (ConfigurationError InvalidJSONMessagesFile), s1) /\
    load_messages s1 = (Raise (ConfigurationError InvalidJSONMessagesFile), s1).
Proof.
  destruct (load_messages_invalid_again (initial invalid_file_tester) "not json"
              eq_refl eq_refl)
    as (s1 & Hfirst & Hnext & _).
  - vm_compute. reflexivity.
  - exists s1. split; [exact Hfirst | exact Hnext].
Defined.

(** X9 on a file that is not a document and on a file with an empty list. *)
Lemma check_config_rejects_source_witness :
  (exists s', check_config (initial invalid_file_tester)
              = (Raise (ConfigurationError InvalidJSONMessagesFile), s')) /\
  (exists s', check_config (initial same_model_tester)
              = (Raise (ConfigurationError NoLoadedMessages), s')).
Proof.
  split.
  - destruct (check_config_rejects_source (initial invalid_file_tester) "not json")
      as [Hinvalid _]; try (vm_compute; reflexivity).
    apply Hinvalid. vm_compute. reflexivity.
  - destruct (check_config_rejects_source (initial same_model_tester) "[]")
      as [_ Hempty]; try (vm_compute; reflexivity).
    apply (Hempty (JArr [])); vm_compute; reflexivity.
Defined.


(** X12 on a transcript that only holds a system message. *)
Lemma evaluate_turns_nothing_to_judge_witness :
  exists s',
    evaluate_turns failing_chat example_format (VList 0) (judging [system_terse])
    = (Ok [], s') /\ trace s' = [].
Proof.
  apply (evaluate_turns_nothing_to_judge failing_chat example_format
           0 [system_terse] (judging [system_terse])); reflexivity.
Defined.

(** X13 on a tester built with its defaults. *)
Lemma default_judge_prompt_is_valid_witness :
  let s := initial (__init__ "judge" None None None VNone (VInt 80) 1 None
                      "subject" VNone) in
  judge_prompt (self s) = JUDGE_PROMPT /\ check_config s = (Ok tt, s).
Proof.
  apply (default_judge_prompt_is_valid "judge" None None None VNone (VInt 80) 1
           "subject" VNone).
  left. reflexivity.
Defined.

(** X14 on the transcripts file of the example, which holds one
    transcript: index 1 is outside. *)
Lemma run_index_out_of_range_witness :
  exists s',
    run Z example_wall Z.sub Z.add failing_chat example_unload
      example_question example_images example_format (VInt 1) (initial replay_tester)
    = (Raise IndexError, s') /\ trace s' = [].
Proof.
  apply (run_index_out_of_range Z example_wall Z.sub Z.add failing_chat example_unload
           example_question example_images example_format
           (initial replay_tester) example_transcripts
           [JArr [JObj [("role", JStr "user"); ("content", JStr "hi")];
                  JObj [("role", JStr "assistant"); ("content", JStr "hello")]]] 1).
  - reflexivity.
  - reflexivity.
  - apply example_transcripts_document.
  - intros [=].
  - reflexivity.
Defined.

(** X16 on a transcript that lacks its last answer: three messages, at most
    one call. *)
Lemma evaluate_turns_one_call_per_pair_witness :
  exists evs,
    trace (snd (evaluate_turns (constant_chat example_judgement) example_format
                  (VList 0) (judging [user_hi; assistant_hello; user_hi]))) = evs /\
    2 * length (chats evs) <= 3.
Proof.
  destruct (evaluate_turns_one_call_per_pair
              (constant_chat example_judgement) example_format
              0 [user_hi; assistant_hello; user_hi]
              (judging [user_hi; assistant_hello; user_hi]) eq_refl)
    as (evs & Htr & Hle & _).
  exists evs. split; [exact Htr | exact Hle].
Defined.

Lemma example_judge_answers_json t :
  judge_answers_json (constant_chat example_judgement) t.
Proof. intros st text r [= <-]. eexists. apply example_judgement_document. Qed.

Lemma example_format_options :
  renders_strings example_format options_prompt_tester.
Proof. intros h q a. eexists. unfold example_format. cbn. reflexivity. Qed.

(** C4 on the transcripts file of the specification's example, read by the
    run itself: the Result holds the transcript of the file and one
    judgement; and on the same file once [check_config] has loaded it: the
    Result holds the transcript loaded then, unchanged. *)
Lemma run_replays_loaded_transcript_witness :
  (exists r s',
     run Z example_wall Z.sub Z.add (constant_chat example_judgement) example_unload
       example_question example_images example_format (VInt 0) (initial replay_tester)
     = (Ok r, s') /\
     denotes (store s')
       (JArr [JObj [("role", JStr "user"); ("content", JStr "hi")];
              JObj [("role", JStr "assistant"); ("content", JStr "hello")]])
       (messages Z r) /\
     length (judgements Z r) = 1) /\
  (exists r s',
     run Z example_wall Z.sub Z.add (constant_chat example_judgement) example_unload
       example_question example_images example_format (VInt 0)
       (snd (check_config (initial replay_tester)))
     = (Ok r, s') /\
     messages Z r = VList 0 /\
     store s' !! 0 = Some [user_hi; assistant_hello]).
Proof.
  split.
  - destruct (run_replays_loaded_transcript
                 Z example_wall Z.sub Z.add (constant_chat example_judgement)
                 example_unload example_question example_images example_format
                 (initial replay_tester) 1 [VList 0]
                 (snd (load_messages (initial replay_tester))) 0 (VList 0))
      as (evs & res & s' & Hrun & _ & _ & _ & _ & _ & Hmsg & Hfile & Hlist).
    + vm_compute. reflexivity.
    + reflexivity.
    + reflexivity.
    + destruct (Hlist 0 [user_hi; assistant_hello] eq_refl) as [Heven _];
        [reflexivity|].
      destruct (Heven 1 hello_turns eq_refl (constant_chat_answers _)
                  (example_judge_answers_json _)
                  (example_format_strings replay_tester eq_refl))
        as (_ & r & -> & Hlen).
      exists r, s'. split; [exact Hrun|]. split; [|exact Hlen].
      rewrite (Hmsg r eq_refl).
      apply (Hfile example_transcripts _ _ eq_refl eq_refl
               example_transcripts_document eq_refl).
  - destruct (run_replays_loaded_transcript
                 Z example_wall Z.sub Z.add (constant_chat example_judgement)
                 example_unload example_question example_images example_format
                 (snd (check_config (initial replay_tester))) 1 [VList 0]
                 (snd (check_config (initial replay_tester))) 0 (VList 0))
      as (evs & res & s' & Hrun & _ & _ & _ & _ & Hpres & Hmsg & _ & Hlist).
    + vm_compute. reflexivity.
    + reflexivity.
    + reflexivity.
    + destruct (Hlist 0 [user_hi; assistant_hello] eq_refl) as [Heven _];
        [reflexivity|].
      destruct (Heven 1 hello_turns eq_refl (constant_chat_answers _)
                  (example_judge_answers_json _)
                  (example_format_strings replay_tester eq_refl))
        as (_ & r & -> & _).
      exists r, s'. split; [exact Hrun|]. split; [exact (Hmsg r eq_refl)|].
      rewrite Hpres; [reflexivity | simpl; lia].
Defined.

(** C5 on a tester whose judge options differ from its general options:
    the one call made for the pair carries the general options. *)
Lemma evaluate_turns_calls_with_general_options_witness :
  exists evs text reply,
    trace (snd (evaluate_turns (constant_chat example_judgement) example_format
                  (VList 0) (judging_with options_tester [user_hi; assistant_hello])))
    = evs /\
    chats evs =
      [EChat "judge"
         [VDict [("role", VStr "system"); ("content", VStr JUDGE_SYSTEM_PROMPT)];
          VDict [("role", VStr "user"); ("content", VStr text)]]
         (VStr "general options") reply].
Proof.
  destruct (evaluate_turns_calls_with_general_options
              (constant_chat example_judgement) example_format
              0 [user_hi; assistant_hello]
              (judging_with options_tester [user_hi; assistant_hello]) eq_refl)
    as (evs & res & s' & Hrun & Htr & Hcalls & Hall).
  destruct (Hall 1 eq_refl) as [Hlen _].
  - apply turns_are_messages, hello_turns.
  - apply constant_chat_answers.
  - apply turns_renderable; [apply example_format_strings; reflexivity | apply hello_turns].
  - destruct (chats evs) as [|ev [|ev' rest]] eqn:Hc; try discriminate.
    destruct (Hcalls 0 ev eq_refl) as (p & ans & text & reply & _ & _ & _ & ->).
    exists evs, text, reply. rewrite Hrun. split; [exact Htr | exact Hc].
Defined.

(** C10 on a judge prompt that shows the options, with the judge options
    [fast]: the prompt sent to the judge shows the tuple. *)
Lemma judge_options_are_wrapped_witness :
  ollama_judge_options options_prompt_tester = VTuple [VStr "fast"] /\
  exists evs reply,
    trace (snd (evaluate_turns (constant_chat example_judgement) example_format
                  (VList 0)
                  (judging_with options_prompt_tester [user_hi; assistant_hello])))
    = evs /\
    chats evs =
      [EChat "judge"
         [VDict [("role", VStr "system"); ("content", VStr JUDGE_SYSTEM_PROMPT)];
          VDict [("role", VStr "user"); ("content", VStr "hi hello ('fast',)")]]
         VNone reply].
Proof.
  destruct (judge_options_are_wrapped
              (constant_chat example_judgement) example_format
              "judge" None None (Some "{question} {answer} {options}") (VStr "fast")
              (VInt 80) 1 None "subject" VNone)
    as (Hopt & _ & Hrender).
  split; [exact Hopt|].
  destruct (Hrender (judging_with options_prompt_tester [user_hi; assistant_hello])
              0 [user_hi; assistant_hello])
    as (evs & res & s' & Hrun & Htr & Hcalls & Hall).
  - exists None, None, None. reflexivity.
  - reflexivity.
  - destruct (Hall 1 eq_refl) as [Hlen _].
    + apply turns_are_messages, hello_turns.
    + apply constant_chat_answers.
    + apply turns_renderable; [apply example_format_options | apply hello_turns].
    + destruct (chats evs) as [|ev [|ev' rest]] eqn:Hc; try discriminate.
      destruct (Hcalls 0 ev eq_refl)
        as (p & ans & q' & a' & h' & text & reply & Hp & Hans & Hq & Ha & Hf & ->).
      injection Hp as <-. injection Hans as <-.
      injection Hq as <-. injection Ha as <-.
      vm_compute in Hf. injection Hf as <-.
      exists evs, reply. rewrite Hrun. split; [exact Htr | exact Hc].
Defined.

(** C7 on the replay of the example with a judge that answers [not json]:
    no Result, [JSONDecodeError]. *)
Lemma run_parses_judgements_witness :
  fst (run Z example_wall Z.sub Z.add (constant_chat "not json") example_unload
         example_question example_images example_format (VInt 0)
         (initial replay_tester))
  = Raise JSONDecodeError.
Proof.
  destruct (run_parses_judgements
              Z example_wall Z.sub Z.add (constant_chat "not json") example_unload
              example_question example_images example_format
              (VInt 0) (initial replay_tester))
    as (_ & _ & _ & _ & evs & res & s' & Hrun & _ & _ & Hnot).
  rewrite Hrun. cbn [fst].
  destruct (Hnot 1 [VList 0] (snd (load_messages (initial replay_tester)))
              0%Z 0 [user_hi; assistant_hello] 0 eq_refl) as [Hres _].
  - vm_compute. reflexivity.
  - reflexivity.
  - reflexivity.
  - reflexivity.
  - apply hello_turns.
  - reflexivity.
  - apply constant_chat_answers.
  - apply example_format_strings. reflexivity.
  - intros st text r [= <-]. vm_compute. reflexivity.
  - exact Hres.
Defined.

(** X15 on a tester with a system prompt and two turns, whose subject model
    answers in prose: five messages, two judgements. *)
Lemma run_judges_every_turn_witness :
  exists r s' a transcript,
    run Z example_wall Z.sub Z.add model_chat example_unload
      example_question example_images example_format (VInt 80)
      (initial live_tester) = (Ok r, s') /\
    messages Z r = VList a /\
    store s' !! a = Some transcript /\
    length transcript = 5 /\
    length (judgements Z r) = 2.
Proof.
  destruct (run_judges_every_turn Z example_wall Z.sub Z.add
              model_chat example_unload
              example_question example_images example_format (VInt 80)
              {| turns := ["What is a monad?"; "And a comonad?"]; image_urls := false |}
              (initial live_tester) "[]" (JArr []))
    as (r & s' & loaded & s1 & s2 & a & transcript
        & Hrun & _ & _ & _ & Hmsg & Hst & Hlen & Hj).
  - reflexivity.
  - reflexivity.
  - vm_compute. reflexivity.
  - reflexivity.
  - intros st. reflexivity.
  - intros [=].
  - intros st to ms o. eexists. reflexivity.
  - intros st text r [= <-]. eexists. exact example_judgement_document.
  - apply example_format_strings. reflexivity.
  - intros H. vm_compute in H. discriminate H.
  - exists r, s', a, transcript.
    split; [exact Hrun|]. split; [exact Hmsg|]. split; [exact Hst|].
    split; [exact Hlen | exact Hj].
Defined.
